(** * ShopSmart backend: the [/predict] request handler of [backend/app.py]

    A shallow embedding of the handler [predict] and of the library calls it
    makes, followed by the properties of the image decoder, the prediction
    formatter and the handler boundary.

    Conventions of the embedding:
    - a Python [str] is a [string]; characters above code 127 stand for the
      non-ASCII characters;
    - [bytes] are lists of [Z] in [0, 256);
    - a computation that may raise returns [exn + A] ([inl e] is [raise e]);
      the exceptions are instances of [Exception], and a library call
      either returns or raises;
    - the handler runs in a small monad that threads the log of inference
      calls and the pending exception;
    - the tensor handed to the model holds IEEE binary32 numbers
      ([spec_float] at precision 24), because the handler divides them;
    - the handler is stated on model outputs of a floating dtype with finite
      scores, each represented by its value in [Q]: comparing and widening
      to a Python float are exact on them. The module [Exact] has lines
      85-94 on the other values an array can hold (not-a-number, the
      infinities, integers and booleans), with CPython's own sort;
    - an instance of [Libraries] is the libraries as one request finds them;
      [predict_at] is the handler on a request given the address of its
      [BytesIO] object, the one thing in the response that changes from
      request to request. *)

From Stdlib Require Import List String Ascii Bool Arith ZArith QArith Lia.
From Stdlib Require Import Permutation Sorted SpecFloat DecimalString.
From Stdlib Require HexadecimalString HexadecimalN HexadecimalPos.
Set Warnings "-register-all".
Open Scope nat_scope.
From Stdlib Require Strings.Byte.
Import ListNotations.
Local Open Scope string_scope.

Set Implicit Arguments.

(** ** Exceptions and results *)

(** A Python exception instance (a subclass of [Exception]): its class name
    and the text [str(e)] gives. *)
Inductive exn : Type :=
  | Exception (cls : string) (msg : string).

Definition str (e : exn) : string :=
  match e with Exception _ msg => msg end.

Definition ValueError (msg : string) : exn := Exception "ValueError" msg.
Definition TypeError (msg : string) : exn := Exception "TypeError" msg.
Definition IndexError (msg : string) : exn := Exception "IndexError" msg.
Definition AttributeError (msg : string) : exn := Exception "AttributeError" msg.
Definition binascii_Error (msg : string) : exn := Exception "binascii.Error" msg.

(** [AttributeError] of a failed method lookup [obj.attr]. *)
Definition no_attribute (type_name attr : string) : exn :=
  AttributeError ("'" ++ type_name ++ "' object has no attribute '" ++ attr ++ "'").

Definition result (A : Type) : Type := (exn + A)%type.

Definition rbind {A B : Type} (r : result A) (k : A -> result B) : result B :=
  match r with
  | inl e => inl e
  | inr a => k a
  end.

Declare Scope result_scope.
Delimit Scope result_scope with result.
Notation "x <-? r ;; k" := (rbind r (fun x => k))
  (at level 61, r at next level, right associativity) : result_scope.

(** ** JSON values: request bodies and response bodies *)

Inductive json : Type :=
  | JNull
  | JBool (b : bool)
  | JInt (n : Z)
  | JFloat (x : Q)
  | JStr (s : string)
  | JArr (items : list json)
  | JObj (fields : list (string * json)).

(** Lookup in a dict kept as an association list (first binding wins). *)
Fixpoint dict_lookup {V : Type} (k : string) (d : list (string * V)) : option V :=
  match d with
  | [] => None
  | (k', v) :: d' => if String.eqb k k' then Some v else dict_lookup k d'
  end.

(** Python's name for the type of a decoded JSON value. *)
Definition json_type_name (v : json) : string :=
  match v with
  | JNull => "NoneType"
  | JBool _ => "bool"
  | JInt _ => "int"
  | JFloat _ => "float"
  | JStr _ => "str"
  | JArr _ => "list"
  | JObj _ => "dict"
  end.

(** [data.get(key)]: [dict.get] returns [None] for an absent key; any other
    decoded JSON value has no method [get]. *)
Definition json_get (data : json) (key : string) : result json :=
  match data with
  | JObj fields =>
      match dict_lookup key fields with
      | Some v => inr v
      | None => inr JNull
      end
  | _ => inl (no_attribute (json_type_name data) "get")
  end.

(** Truth value of a decoded JSON value, as [not image_data] tests it. *)
Definition truthy (v : json) : bool :=
  match v with
  | JNull => false
  | JBool b => b
  | JInt n => negb (Z.eqb n 0)
  | JFloat x => negb (Qeq_bool x 0)
  | JStr s => negb (String.eqb s "")
  | JArr items => match items with [] => false | _ => true end
  | JObj fields => match fields with [] => false | _ => true end
  end.

(** ** [re.sub("^data:image/.+;base64,", "", s)]

    The pattern language of the standard library, restricted to what the
    handler's pattern uses. *)

Module Re.

(** The pieces the handler's pattern is made of, after the anchor [^]:
    literal characters and the greedy [.+]. *)
Inductive item : Type :=
  | Lit (c : ascii)
  | AnyPlus.

Definition newline : ascii := "010"%char.

(** [.] matches every character but the newline (no DOTALL flag). *)
Definition dot (c : ascii) : bool := negb (Ascii.eqb c newline).

Fixpoint literal (s : string) : list item :=
  match s with
  | EmptyString => []
  | String c s' => Lit c :: literal s'
  end.

(** Backtracking match of a pattern at the head of [s]; the result is the
    text left after the match. [.+] is greedy: it first tries to take one
    more character and falls back to the rest of the pattern. *)
Fixpoint match_here (p : list item) (s : string) : option string :=
  match p with
  | [] => Some s
  | Lit c :: p' =>
      match s with
      | String c' s' => if Ascii.eqb c c' then match_here p' s' else None
      | EmptyString => None
      end
  | AnyPlus :: p' =>
      (fix plus (s : string) : option string :=
         match s with
         | String c s' =>
             if dot c then
               match plus s' with
               | Some r => Some r
               | None => match_here p' s'
               end
             else None
         | EmptyString => None
         end) s
  end.

(** [re.sub("^" + p, "", s)] without MULTILINE: a match can only start at
    index 0, so at most one occurrence is replaced by the empty string. *)
Definition sub_bol (p : list item) (s : string) : string :=
  match match_here p s with
  | Some rest => rest
  | None => s
  end.

Definition data_uri : list item :=
  (literal "data:image/" ++ [AnyPlus] ++ literal ";base64,")%list.

(** [c in s] *)
Fixpoint occurs (c : ascii) (s : string) : bool :=
  match s with
  | EmptyString => false
  | String c' s' => Ascii.eqb c c' || occurs c s'
  end.

(** Text that [.+] can take as a whole: no newline in it. *)
Fixpoint all_dot (s : string) : bool :=
  match s with
  | EmptyString => true
  | String c s' => dot c && all_dot s'
  end.

End Re.

(** [re.sub] raises [TypeError] on a value that is not a string. *)
Definition re_sub_data_uri (image_data : json) : result string :=
  match image_data with
  | JStr s => inr (Re.sub_bol Re.data_uri s)
  | _ =>
      inl (TypeError ("expected string or bytes-like object, got '"
                      ++ json_type_name image_data ++ "'"))
  end.

(** ** [base64.b64decode(s)] with the default [validate=False]

    The call goes to CPython's [binascii.a2b_base64] in non-strict mode;
    the definitions follow its loop and keep its names. *)

Module Base64.

Definition BASE64_PAD : ascii := "="%char.

(** The decoding table [table_a2b_base64]: the value of an alphabet
    character, [None] for every other character. *)
Definition table_a2b_base64 (c : ascii) : option Z :=
  let n := Z.of_N (N_of_ascii c) in
  if ((65 <=? n) && (n <=? 90))%Z then Some (n - 65)%Z
  else if ((97 <=? n) && (n <=? 122))%Z then Some (n - 71)%Z
  else if ((48 <=? n) && (n <=? 57))%Z then Some (n + 4)%Z
  else if (n =? 43)%Z then Some 62%Z
  else if (n =? 47)%Z then Some 63%Z
  else None.

(** Truncation of a C [int] to [unsigned char]. *)
Definition u8 (z : Z) : Z := Z.land z 255.

(** Loop state of [binascii.a2b_base64]. *)
Record state : Type := mkState {
  quad_pos : nat;
  leftchar : Z;
  pads : nat;
  bin_data : list Z
}.

Definition init : state :=
  {| quad_pos := 0; leftchar := 0; pads := 0; bin_data := [] |}.

(** One valid alphabet character of value [this_ch] ([pads] is reset
    before the switch on [quad_pos]). *)
Definition push (st : state) (this_ch : Z) : state :=
  match quad_pos st with
  | 0 =>
      {| quad_pos := 1; leftchar := this_ch; pads := 0;
         bin_data := bin_data st |}
  | 1 =>
      {| quad_pos := 2; leftchar := Z.land this_ch 15; pads := 0;
         bin_data := (bin_data st ++
           [u8 (Z.lor (Z.shiftl (leftchar st) 2) (Z.shiftr this_ch 4))])%list |}
  | 2 =>
      {| quad_pos := 3; leftchar := Z.land this_ch 3; pads := 0;
         bin_data := (bin_data st ++
           [u8 (Z.lor (Z.shiftl (leftchar st) 4) (Z.shiftr this_ch 2))])%list |}
  | _ =>
      {| quad_pos := 0; leftchar := 0; pads := 0;
         bin_data := (bin_data st ++
           [u8 (Z.lor (Z.shiftl (leftchar st) 6) this_ch)])%list |}
  end.

(** The loop ends either at a complete pad sequence ([goto done]) or at
    the end of the input. *)
Inductive stop : Type :=
  | Done (bin : list Z)
  | EndOfInput (st : state).

(** The loop over the input in non-strict mode: a pad in the first half
    of a quad and every character outside the alphabet are skipped. *)
Fixpoint loop (ascii_data : string) (st : state) : stop :=
  match ascii_data with
  | EmptyString => EndOfInput st
  | String this_ch rest =>
      if Ascii.eqb this_ch BASE64_PAD then
        if (2 <=? quad_pos st)%nat then
          if (4 <=? quad_pos st + S (pads st))%nat then Done (bin_data st)
          else loop rest {| quad_pos := quad_pos st; leftchar := leftchar st;
                            pads := S (pads st); bin_data := bin_data st |}
        else loop rest st
      else
        match table_a2b_base64 this_ch with
        | None => loop rest st
        | Some v => loop rest (push st v)
        end
  end.

(** The loop did not stop in the middle of a quad. *)
Definition complete (r : stop) : Prop :=
  match r with
  | Done _ => True
  | EndOfInput st => quad_pos st = 0
  end.

Definition decimal (n : nat) : string :=
  NilEmpty.string_of_uint (Nat.to_uint n).

Definition a2b_base64 (data : string) : result (list Z) :=
  match loop data init with
  | Done bin => inr bin
  | EndOfInput st =>
      match quad_pos st with
      | 0 => inr (bin_data st)
      | 1 => inl (binascii_Error
               ("Invalid base64-encoded string: number of data characters ("
                ++ decimal (List.length (bin_data st) / 3 * 4 + 1)
                ++ ") cannot be 1 more than a multiple of 4"))
      | _ => inl (binascii_Error "Incorrect padding")
      end
  end.

Definition is_ascii (c : ascii) : bool := (N_of_ascii c <? 128)%N.

Fixpoint all_ascii (s : string) : bool :=
  match s with
  | EmptyString => true
  | String c s' => is_ascii c && all_ascii s'
  end.

(** [b64decode] first encodes a [str] argument as ASCII. *)
Definition b64decode (s : string) : result (list Z) :=
  if all_ascii s then a2b_base64 s
  else inl (ValueError "string argument should contain only ASCII characters").

(** The characters of the base64 alphabet. *)
Definition alphabet (c : ascii) : bool :=
  match table_a2b_base64 c with Some _ => true | None => false end.

(** A base64 payload: only alphabet characters and pads. *)
Fixpoint payload (s : string) : bool :=
  match s with
  | EmptyString => true
  | String c s' => (alphabet c || Ascii.eqb c BASE64_PAD) && payload s'
  end.

(** Well-formed base64 text (RFC 4648): quads of alphabet characters, the
    last quad possibly ending in one or two pads. *)
Fixpoint valid_base64 (s : string) : bool :=
  match s with
  | EmptyString => true
  | String a (String b (String c (String d rest))) =>
      alphabet a && alphabet b &&
      ((alphabet c && alphabet d && valid_base64 rest)
       || (String.eqb rest "" && Ascii.eqb d BASE64_PAD
           && (alphabet c || Ascii.eqb c BASE64_PAD)))
  | _ => false
  end.

End Base64.

(** ** Images and tensors *)

Definition uint8 : Type := Byte.byte.
Definition pixel : Type := (uint8 * uint8 * uint8)%type.

(** A PIL image in mode RGB: [size] is (width, height) and [getpixel x y]
    the pixel of column [x] and row [y]. *)
Record rgb_image : Type := mkImage {
  size : nat * nat;
  getpixel : nat -> nat -> pixel
}.

(** IEEE binary32 numbers, the [dtype=np.float32] of the tensor. *)
Definition float32 : Type := spec_float.

Definition float32_of_Z (z : Z) : float32 := binary_normalize 24 128 z 0 false.
Definition float32_of_uint8 (b : uint8) : float32 :=
  float32_of_Z (Z.of_N (Byte.to_N b)).
Definition float32_div (x y : float32) : float32 := SFdiv 24 128 x y.

Definition tensor3 : Type := list (list (list float32)).
Definition tensor : Type := list tensor3.

(** [np.array(img, dtype=np.float32)]: one row per image row, one triple of
    channels per pixel, shape (height, width, 3). *)
Definition np_array_float32 (img : rgb_image) : tensor3 :=
  map (fun y =>
         map (fun x =>
                let '(r, g, b) := getpixel img x y in
                [float32_of_uint8 r; float32_of_uint8 g; float32_of_uint8 b])
             (seq 0 (fst (size img))))
      (seq 0 (snd (size img))).

(** [x / 255.0], element by element, in binary32. *)
Definition divide_255 (x : tensor3) : tensor3 :=
  map (map (map (fun v => float32_div v (float32_of_Z 255)))) x.

(** [np.expand_dims(x, 0)]. *)
Definition expand_dims_0 (x : tensor3) : tensor := [x].

(** [x.shape == (d0, d1, d2, d3)] for a tensor kept as nested lists. *)
Definition has_shape (d0 d1 d2 d3 : nat) (x : tensor) : Prop :=
  List.length x = d0 /\
  Forall (fun plane =>
    List.length plane = d1 /\
    Forall (fun row =>
      List.length row = d2 /\
      Forall (fun channels => List.length channels = d3) row) plane) x.

(** [0.0 <= v <= 1.0] in binary32. *)
Definition in_unit_interval (v : float32) : Prop :=
  SFleb (float32_of_Z 0) v = true /\ SFleb v (float32_of_Z 1) = true.

Definition all_values (P : float32 -> Prop) (x : tensor) : Prop :=
  Forall (Forall (Forall (Forall P))) x.

(** ** Values returned by the inference call *)

(** A numeric numpy array: a 0-dimensional array (or numpy scalar) or a
    sequence of sub-arrays along axis 0. The elements are finite floats,
    given by their values; [Exact.ndarray] below has the other elements. *)
Inductive ndarray : Type :=
  | Scalar (x : Q)
  | Array (items : list ndarray).

(** What [tolist()] returns: a Python float or a (nested) list. *)
Inductive pyobj : Type :=
  | PyFloat (x : Q)
  | PyList (items : list pyobj).

(** The value of [model.predict(x)]: a dict of named outputs, a bare array,
    [None], or an object of another type, without a method [keys] (given
    by its type name). *)
Inductive pyval : Type :=
  | PyNone
  | NdArray (a : ndarray)
  | PyDict (items : list (string * pyval))
  | PyObject (type_name : string).

Definition py_type_name (v : pyval) : string :=
  match v with
  | PyNone => "NoneType"
  | NdArray _ => "numpy.ndarray"
  | PyDict _ => "dict"
  | PyObject type_name => type_name
  end.

(** [preds.keys()]: of these values only a dict has the method. *)
Definition keys (preds : pyval) : result (list string) :=
  match preds with
  | PyDict items => inr (map fst items)
  | _ => inl (no_attribute (py_type_name preds) "keys")
  end.

(** [preds_array[0]] *)
Definition getitem_0 (a : ndarray) : result ndarray :=
  match a with
  | Scalar _ =>
      inl (IndexError
        "too many indices for array: array is 0-dimensional, but 1 were indexed")
  | Array [] =>
      inl (IndexError "index 0 is out of bounds for axis 0 with size 0")
  | Array (row :: _) => inr row
  end.

Fixpoint tolist (a : ndarray) : pyobj :=
  match a with
  | Scalar x => PyFloat x
  | Array items => PyList (map tolist items)
  end.

(** [enumerate(preds_list)] *)
Definition enumerate (o : pyobj) : result (list (nat * pyobj)) :=
  match o with
  | PyList items => inr (combine (seq 0 (List.length items)) items)
  | PyFloat _ => inl (TypeError "'float' object is not iterable")
  end.

(** [float(prob)] *)
Definition float (o : pyobj) : result Q :=
  match o with
  | PyFloat x => inr x
  | PyList _ =>
      inl (TypeError
        "float() argument must be a string or a real number, not 'list'")
  end.

(** ** The prediction formatter *)

Definition class_labels : list string :=
  [ "Comfort_fabric_conditioner";
    "Prima_noodles";
    "Raigam_soya_meat";
    "Safe_guard_soap";
    "Signal_toothbrush";
    "Vim_dishwash_bar" ].

(** [class_labels[i]] for an index [i >= 0]. *)
Definition class_labels_getitem (i : nat) : result string :=
  match nth_error class_labels i with
  | Some label => inr label
  | None => inl (IndexError "list index out of range")
  end.

(** One entry [{"class": ..., "probability": ...}] of [results]. *)
Record prediction : Type := mkPrediction {
  class : string;
  probability : Q
}.

(** The list comprehension over [enumerate(preds_list)]: for each pair the
    label is looked up first, then the score is converted. *)
Fixpoint comprehension (items : list (nat * pyobj)) : result (list prediction) :=
  match items with
  | [] => inr []
  | (i, prob) :: items' =>
      (label <-? class_labels_getitem i ;;
       p <-? float prob ;;
       rest <-? comprehension items' ;;
       inr ({| class := label; probability := p |} :: rest))%result
  end.

(** Python's [<] on floats. *)
Definition float_lt (x y : Q) : bool :=
  match (x ?= y)%Q with
  | Lt => true
  | _ => false
  end.

(** [list.sort(key=..., reverse=...)]: a stable sort that only uses [<] on
    the keys; with [reverse=True] the list is reversed, sorted and reversed
    again, so that equal elements keep their original order. *)
Section ListSort.
Variable A : Type.
Variable key : A -> Q.

Fixpoint insert (x : A) (l : list A) : list A :=
  match l with
  | [] => [x]
  | y :: l' =>
      if float_lt (key y) (key x) then y :: insert x l' else x :: l
  end.

Definition stable_sort (l : list A) : list A := fold_right insert [] l.

Definition list_sort (reverse : bool) (l : list A) : list A :=
  if reverse then rev (stable_sort (rev l)) else stable_sort l.
End ListSort.

(** Lines 85-94 of the handler. *)
Definition format_predictions (preds_array : ndarray) : result (list prediction) :=
  (row <-? getitem_0 preds_array ;;
   let preds_list := tolist row in
   items <-? enumerate preds_list ;;
   results <-? comprehension items ;;
   inr (list_sort probability true results))%result.

(** The entries of [results] before sorting when the row holds the scores
    [scores]: label and score of the same index, as far as both lists go. *)
Definition labelled (scores : list Q) : list prediction :=
  map (fun entry => {| class := fst entry; probability := snd entry |})
      (combine class_labels scores).

(** A model output whose first batch row holds the scores [scores]. *)
Definition score_array (scores : list Q) (more_rows : list ndarray) : ndarray :=
  Array (Array (map Scalar scores) :: more_rows).

(** Descending order of probability. *)
Definition descending (results : list prediction) : Prop :=
  StronglySorted (fun a b => (probability b <= probability a)%Q) results.

(** The entries of a given probability, in the order of the list. *)
Definition with_probability (p : Q) (results : list prediction) : list prediction :=
  filter (fun r => Qeq_bool (probability r) p) results.

(** ** Lines 85-94 on Python's own numbers

    The formatter again, this time on everything an array of a boolean,
    integer or floating dtype can hold: floats with their infinities and
    not-a-number, integers and booleans, compared by Python's [<] and
    sorted the way CPython 3.11 sorts a list shorter than 64 elements (one
    run found by [count_run], the rest placed by [binarysort]). *)

Module Exact.

(** A Python float: not-a-number, an infinity, or a finite number given
    by its value. *)
Inductive pyfloat : Type :=
  | NaN
  | NegInf
  | Finite (q : Q)
  | PosInf.

(** Python's [<] on floats: false as soon as one side is not-a-number. *)
Definition float_lt (x y : pyfloat) : bool :=
  match x, y with
  | NaN, _ => false
  | _, NaN => false
  | NegInf, NegInf => false
  | NegInf, _ => true
  | PosInf, _ => false
  | Finite _, NegInf => false
  | Finite _, PosInf => true
  | Finite a, Finite b =>
      match (a ?= b)%Q with
      | Lt => true
      | _ => false
      end
  end.

(** Python's [==] and [>=] on floats. *)
Definition float_eq (x y : pyfloat) : bool :=
  match x, y with
  | NegInf, NegInf => true
  | PosInf, PosInf => true
  | Finite a, Finite b => Qeq_bool a b
  | _, _ => false
  end.

Definition float_ge (x y : pyfloat) : bool := float_lt y x || float_eq x y.

Definition is_nan (x : pyfloat) : bool :=
  match x with
  | NaN => true
  | _ => false
  end.

(** The value of a finite binary64 number. *)
Definition value_of (s : bool) (m : positive) (e : Z) : Q :=
  (inject_Z (if s then Z.neg m else Z.pos m) * Qpower 2 e)%Q.

(** [float(n)] for an integer: the nearest binary64 number, ties to even;
    [OverflowError] beyond the range of floats. *)
Definition float_of_int (n : Z) : result pyfloat :=
  match binary_normalize 53 1024 n 0 false with
  | S754_zero _ => inr (Finite 0)
  | S754_finite s m e => inr (Finite (value_of s m e))
  | _ => inl (Exception "OverflowError" "int too large to convert to float")
  end.

(** What [tolist()] makes of one element: a Python bool, int or float,
    by the dtype of the array. *)
Inductive scalar : Type :=
  | PyBool (b : bool)
  | PyInt (n : Z)
  | PyFloat (x : pyfloat).

Definition type_name (s : scalar) : string :=
  match s with
  | PyBool _ => "bool"
  | PyInt _ => "int"
  | PyFloat _ => "float"
  end.

(** A numpy array of a real numeric dtype. *)
Inductive ndarray : Type :=
  | Item (s : scalar)
  | Axis (items : list ndarray).

Inductive pyobj : Type :=
  | Value (s : scalar)
  | PyList (items : list pyobj).

(** [preds_array[0]] *)
Definition getitem_0 (a : ndarray) : result ndarray :=
  match a with
  | Item _ =>
      inl (IndexError
        "too many indices for array: array is 0-dimensional, but 1 were indexed")
  | Axis [] =>
      inl (IndexError "index 0 is out of bounds for axis 0 with size 0")
  | Axis (row :: _) => inr row
  end.

Fixpoint tolist (a : ndarray) : pyobj :=
  match a with
  | Item s => Value s
  | Axis items => PyList (map tolist items)
  end.

(** [enumerate(preds_list)] *)
Definition enumerate (o : pyobj) : result (list (nat * pyobj)) :=
  match o with
  | PyList items => inr (combine (seq 0 (List.length items)) items)
  | Value s => inl (TypeError ("'" ++ type_name s ++ "' object is not iterable"))
  end.

(** [float(prob)] *)
Definition float (o : pyobj) : result pyfloat :=
  match o with
  | Value (PyFloat x) => inr x
  | Value (PyInt n) => float_of_int n
  | Value (PyBool b) => inr (Finite (if b then 1 else 0))
  | PyList _ =>
      inl (TypeError
        "float() argument must be a string or a real number, not 'list'")
  end.

Record prediction : Type := mkPrediction {
  class : string;
  probability : pyfloat
}.

Fixpoint comprehension (items : list (nat * pyobj)) : result (list prediction) :=
  match items with
  | [] => inr []
  | (i, prob) :: items' =>
      (label <-? class_labels_getitem i ;;
       p <-? float prob ;;
       rest <-? comprehension items' ;;
       inr ({| class := label; probability := p |} :: rest))%result
  end.

(** [list.sort(key=..., reverse=...)] of CPython 3.11 on a list shorter
    than 64 elements, for which [merge_compute_minrun] returns the length:
    the list is one run extended by binary insertion. *)
Section ListSort.
Variable A : Type.
Variable key : A -> pyfloat.

(** [ISLT(a, b)] on the keys. *)
Definition islt (a b : A) : bool := float_lt (key a) (key b).

(** The loop of [count_run] after the first two elements: how many more
    elements carry on the run, descending (each below its predecessor) or
    not (none below its predecessor). *)
Fixpoint run_length (descending : bool) (prev : A) (rest : list A) : nat :=
  match rest with
  | [] => 0
  | x :: rest' =>
      if Bool.eqb (islt x prev) descending
      then S (run_length descending x rest')
      else 0
  end.

(** [count_run]: the length of the run at the head and whether it is
    descending. *)
Definition count_run (l : list A) : nat * bool :=
  match l with
  | [] => (0, false)
  | [_] => (1, false)
  | x0 :: x1 :: rest =>
      let descending := islt x1 x0 in
      (2 + run_length descending x1 rest, descending)
  end.

(** The binary search of [binarysort] for the place of [pivot] in the
    sorted part: [do { p = l + ((r - l) >> 1); ... } while (l < r)]. *)
Fixpoint bisect (fuel : nat) (pivot : A) (sorted : list A) (l r : nat) : nat :=
  match fuel with
  | 0 => l
  | S fuel' =>
      let p := l + (r - l) / 2 in
      match nth_error sorted p with
      | None => l
      | Some x =>
          let l' := if islt pivot x then l else S p in
          let r' := if islt pivot x then p else r in
          if (l' <? r')%nat then bisect fuel' pivot sorted l' r' else l'
      end
  end.

(** One round of [binarysort]: slide over and put [pivot] in its place. *)
Definition place (sorted : list A) (pivot : A) : list A :=
  let l := bisect (List.length sorted) pivot sorted 0 (List.length sorted) in
  (firstn l sorted ++ pivot :: skipn l sorted)%list.

Definition binarysort (run rest : list A) : list A :=
  fold_left place rest run.

Definition list_sort (reverse : bool) (l : list A) : list A :=
  let l := if reverse then rev l else l in
  let sorted :=
    if (List.length l <? 2)%nat then l
    else
      let (n, descending) := count_run l in
      let run := firstn n l in
      binarysort (if descending then rev run else run) (skipn n l) in
  if reverse then rev sorted else sorted.

(** The keys are all numbers. *)
Definition numbers (l : list A) : Prop :=
  Forall (fun a => is_nan (key a) = false) l.

(** Ascending order for [ISLT]: no element is below an earlier one. *)
Definition ascending (l : list A) : Prop :=
  StronglySorted (fun a b => islt b a = false) l.

End ListSort.

(** Lines 85-94. *)
Definition format_predictions (preds_array : ndarray) : result (list prediction) :=
  (row <-? getitem_0 preds_array ;;
   let preds_list := tolist row in
   items <-? enumerate preds_list ;;
   results <-? comprehension items ;;
   inr (list_sort probability true results))%result.

(** An array whose first batch row holds the float scores [scores]. *)
Definition score_array (scores : list pyfloat) (more_rows : list ndarray) : ndarray :=
  Axis (Axis (map (fun x => Item (PyFloat x)) scores) :: more_rows).

(** [float] on each element of a row, first to last, up to the first
    that raises. *)
Fixpoint floats (row : list scalar) : result (list pyfloat) :=
  match row with
  | [] => inr []
  | s :: row' =>
      (p <-? float (Value s) ;;
       ps <-? floats row' ;;
       inr (p :: ps))%result
  end.

(** Scores that are all numbers. *)
Definition no_nan (scores : list pyfloat) : Prop :=
  Forall (fun x => is_nan x = false) scores.

(** Label and score of the same index, as far as both lists go. *)
Definition labelled (scores : list pyfloat) : list prediction :=
  map (fun entry => {| class := fst entry; probability := snd entry |})
      (combine class_labels scores).

(** Descending order: every entry is [>=] all the entries after it. *)
Definition descending (results : list prediction) : Prop :=
  StronglySorted
    (fun a b => float_ge (probability a) (probability b) = true) results.

End Exact.

(** ** Finite float scores among Python's numbers *)

(** An array of finite floats among the arrays of [Exact], and an entry
    of its result among the entries of [Exact]. *)
Fixpoint exact_array (a : ndarray) : Exact.ndarray :=
  match a with
  | Scalar x => Exact.Item (Exact.PyFloat (Exact.Finite x))
  | Array items => Exact.Axis (map exact_array items)
  end.

Definition exact_prediction (r : prediction) : Exact.prediction :=
  {| Exact.class := class r;
     Exact.probability := Exact.Finite (probability r) |}.

(** ** The handler monad: pending exception and log of inference calls *)

Definition call_log : Type := list tensor.

Definition M (A : Type) : Type := call_log -> result A * call_log.

Definition ret {A : Type} (a : A) : M A := fun log => (inr a, log).

Definition raise {A : Type} (e : exn) : M A := fun log => (inl e, log).

Definition bind {A B : Type} (m : M A) (k : A -> M B) : M B :=
  fun log =>
    match m log with
    | (inl e, log') => (inl e, log')
    | (inr a, log') => k a log'
    end.

(** A library call without effect on the log. *)
Definition lift {A : Type} (r : result A) : M A := fun log => (r, log).

(** [try: body / except Exception as e: handler(e)] *)
Definition try_except {A : Type} (body : M A) (handler : exn -> M A) : M A :=
  fun log =>
    match body log with
    | (inl e, log') => handler e log'
    | (inr a, log') => (inr a, log')
    end.

Declare Scope handler_scope.
Delimit Scope handler_scope with handler.
Notation "x <- m ;; k" := (bind m (fun x => k))
  (at level 61, m at next level, right associativity) : handler_scope.

(** ** The libraries the handler calls *)

(** The image library, the loaded model and the resampling filter are
    outside the repository; the handler is stated for every behaviour they
    may have. [resample img (w, h)] gives the pixels [resize] computes.
    An instance stands for the libraries during one request: [Image_open]
    is [Image.open] on the [BytesIO] object the request wraps around the
    bytes (see [libraries_at]). *)
Class Libraries : Type := {
  pil_image : Type;
  Image_open : list Z -> result pil_image;
  convert_RGB : pil_image -> result rgb_image;
  resample : rgb_image -> nat * nat -> nat -> nat -> pixel;
  model_predict : tensor -> result pyval
}.

(** A request, as the handler sees it: the outcome of [request.get_json()]. *)
Record request : Type := mkRequest {
  get_json : result json
}.

Record response : Type := mkResponse {
  body : json;
  status : Z
}.

(** [jsonify(...)] of the two response bodies. *)
Definition json_of_prediction (r : prediction) : json :=
  JObj [("class", JStr (class r)); ("probability", JFloat (probability r))].

Definition predictions_body (results : list prediction) : json :=
  JObj [("predictions", JArr (map json_of_prediction results))].

Definition error_body (msg : string) : json :=
  JObj [("error", JStr msg)].

(** The failure response the [except] clause builds from an exception. *)
Definition failure (e : exn) : response :=
  {| body := error_body (str e); status := 500 |}.

(** The two shapes of a response. *)
Definition success_shape (r : response) : Prop :=
  status r = 200%Z /\ exists results, body r = predictions_body results.

Definition failure_shape (r : response) : Prop :=
  status r = 500%Z /\ exists msg, body r = error_body msg.

Section Handler.
Context {L : Libraries}.

(** [img.resize(size)] *)
Definition resize (new_size : nat * nat) (img : rgb_image) : rgb_image :=
  {| size := new_size; getpixel := resample img new_size |}.

(** Lines 59-65: from the field [image_data] to the input tensor. *)
Definition decode_image (image_data : json) : result tensor :=
  (image_data_clean <-? re_sub_data_uri image_data ;;
   img_bytes <-? Base64.b64decode image_data_clean ;;
   opened <-? Image_open img_bytes ;;
   rgb <-? convert_RGB opened ;;
   let img := resize (224, 224) rgb in
   let x := divide_255 (np_array_float32 img) in
   let x := expand_dims_0 x in
   inr x)%result.

(** [model.predict(x)], recorded in the log. *)
Definition predict_call (x : tensor) : M pyval :=
  fun log => (model_predict x, (log ++ [x])%list).

(** Lines 81-96: the resolved [preds_array] becomes a response. *)
Definition respond (preds_array : pyval) : result response :=
  match preds_array with
  | NdArray a =>
      (results <-? format_predictions a ;;
       inr {| body := predictions_body results; status := 200 |})%result
  | _ =>
      inr {| body := error_body "Invalid prediction output"; status := 500 |}
  end.

(** Lines 72-96. *)
Definition postprocess (preds : pyval) : result response :=
  match preds with
  | PyDict items =>
      match dict_lookup "output_0" items with
      | None | Some PyNone =>
          inr {| body := error_body "Missing 'output_0' in prediction";
                 status := 500 |}
      | Some preds_array => respond preds_array
      end
  | _ => respond preds
  end.

(** The body of the [try] block (lines 49-96). *)
Definition predict_body (req : request) : M response :=
  (data <- lift (get_json req) ;;
   image_data <- lift (json_get data "image_data") ;;
   if negb (truthy image_data) then raise (ValueError "Missing image_data")
   else
     x <- lift (decode_image image_data) ;;
     preds <- predict_call x ;;
     _ <- lift (keys preds) ;;
     lift (postprocess preds))%handler.

(** The handler: the body under [except Exception as e] (lines 98-100). *)
Definition predict (req : request) : M response :=
  try_except (predict_body req)
    (fun e => ret {| body := error_body (str e); status := 500 |}).

(** The response once the input tensor [x] is built: one inference call,
    then the response of the post-processing, or the failure response of
    the exception raised on the way. *)
Definition after_inference (x : tensor) : response :=
  match model_predict x with
  | inl e => failure e
  | inr preds =>
      match keys preds with
      | inl e => failure e
      | inr _ =>
          match postprocess preds with
          | inl e => failure e
          | inr r => r
          end
      end
  end.

End Handler.

(** ** [Image.open(io.BytesIO(img_bytes))], request by request

    [io.BytesIO(img_bytes)] is a new object for each request, and
    [Image.open] is handed that object, not the bytes. Pillow tries its
    format plugins on the content ([_open_core]); when none accepts it, the
    message of the exception prints the object with [%r], address included.
    The libraries a request finds (an instance of [Libraries]) are therefore
    those of the process together with the address of the request's
    [BytesIO] object. *)

Record bytes_io : Type := mkBytesIO {
  getvalue : list Z;
  address : N
}.

(** [repr(fp)] *)
Definition bytes_io_repr (fp : bytes_io) : string :=
  "<_io.BytesIO object at 0x" ++
  HexadecimalString.NilZero.string_of_uint (N.to_hex_uint (address fp)) ++
  ">".

Definition UnidentifiedImageError (msg : string) : exn :=
  Exception "UnidentifiedImageError" msg.

(** What stays the same from request to request: the plugins of the image
    library ([identify] gives the image a plugin builds from the content,
    [None] when no plugin accepts it), conversion and resampling, and the
    loaded model. *)
Class Process : Type := {
  image : Type;
  identify : list Z -> result (option image);
  convert : image -> result rgb_image;
  resampling : rgb_image -> nat * nat -> nat -> nat -> pixel;
  model : tensor -> result pyval
}.

(** [Image.open(fp)] *)
Definition Image_open_fp {P : Process} (fp : bytes_io) : result image :=
  match identify (getvalue fp) with
  | inl e => inl e
  | inr (Some im) => inr im
  | inr None =>
      inl (UnidentifiedImageError
             ("cannot identify image file " ++ bytes_io_repr fp))
  end.

(** The libraries as the request finds them whose [BytesIO] object is at
    [at_address]. *)
Definition libraries_at {P : Process} (at_address : N) : Libraries :=
  {| pil_image := image;
     Image_open := fun img_bytes =>
       Image_open_fp {| getvalue := img_bytes; address := at_address |};
     convert_RGB := convert;
     resample := resampling;
     model_predict := model |}.

(** The handler on that request. *)
Definition predict_at {P : Process} (at_address : N) (req : request) : M response :=
  @predict (libraries_at at_address) req.

(** ** The handler with its log records *)

(** A record of the logger [image-api]: its level, its message and, for
    [logger.exception], the exception whose traceback is attached. *)
Inductive level : Type := INFO | ERROR.

Record log_record : Type := mkRecord {
  levelname : level;
  message : string;
  exc_info : option exn
}.

(** How the f-strings of lines 68 and 70 print a model output and a list
    of keys; the texts are those of the objects' [__str__]. *)
Class Formatting : Type := {
  format_preds : pyval -> string;
  format_keys : list string -> string
}.

(** The handler state with the log: inference calls and records. *)
Definition world : Type := (call_log * list log_record)%type.

Definition LM (A : Type) : Type := world -> result A * world.

Definition lret {A : Type} (a : A) : LM A := fun w => (inr a, w).

Definition lraise {A : Type} (e : exn) : LM A := fun w => (inl e, w).

Definition lbind {A B : Type} (m : LM A) (k : A -> LM B) : LM B :=
  fun w =>
    match m w with
    | (inl e, w') => (inl e, w')
    | (inr a, w') => k a w'
    end.

Definition llift {A : Type} (r : result A) : LM A := fun w => (r, w).

(** A computation of [M] run on the inference calls of the world. *)
Definition on_calls {A : Type} (m : M A) : LM A :=
  fun w =>
    match m (fst w) with
    | (r, calls') => (r, (calls', snd w))
    end.

Definition emit (rec : log_record) : LM unit :=
  fun w => (inr tt, (fst w, (snd w ++ [rec])%list)).

Definition logger_info (msg : string) : LM unit :=
  emit {| levelname := INFO; message := msg; exc_info := None |}.

Definition logger_error (msg : string) : LM unit :=
  emit {| levelname := ERROR; message := msg; exc_info := None |}.

(** [logger.exception(msg)] inside [except Exception as e]. *)
Definition logger_exception (msg : string) (e : exn) : LM unit :=
  emit {| levelname := ERROR; message := msg; exc_info := Some e |}.

Definition ltry_except {A : Type} (body : LM A) (handler : exn -> LM A) : LM A :=
  fun w =>
    match body w with
    | (inl e, w') => handler e w'
    | (inr a, w') => (inr a, w')
    end.

Declare Scope log_scope.
Delimit Scope log_scope with log.
Notation "x <- m ;; k" := (lbind m (fun x => k))
  (at level 61, m at next level, right associativity) : log_scope.
Notation "m ;; k" := (lbind m (fun _ => k))
  (at level 61, right associativity) : log_scope.

Section HandlerLog.
Context {L : Libraries} {F : Formatting}.

(** Lines 81-96 with the record of line 82. *)
Definition respond_logged (preds_array : pyval) : LM response :=
  match preds_array with
  | NdArray a =>
      (results <- llift (format_predictions a) ;;
       lret {| body := predictions_body results; status := 200 |})%log
  | _ =>
      (logger_error "Prediction output is not a numpy array" ;;
       lret {| body := error_body "Invalid prediction output";
               status := 500 |})%log
  end.

(** The body of the [try] block, line by line (lines 49-96). *)
Definition predict_logged_body (req : request) : LM response :=
  (logger_info "Received image for prediction" ;;
   data <- llift (get_json req) ;;
   image_data <- llift (json_get data "image_data") ;;
   if negb (truthy image_data) then lraise (ValueError "Missing image_data")
   else
     x <- llift (decode_image image_data) ;;
     preds <- on_calls (predict_call x) ;;
     logger_info ("Raw prediction result: " ++ format_preds preds) ;;
     ks <- llift (keys preds) ;;
     logger_info ("Output keys from model: " ++ format_keys ks) ;;
     match preds with
     | PyDict items =>
         match dict_lookup "output_0" items with
         | None | Some PyNone =>
             logger_error "Key 'output_0' not found in prediction output" ;;
             lret {| body := error_body "Missing 'output_0' in prediction";
                     status := 500 |}
         | Some preds_array => respond_logged preds_array
         end
     | _ => respond_logged preds
     end)%log.

(** The handler (lines 47-100). *)
Definition predict_logged (req : request) : LM response :=
  ltry_except (predict_logged_body req)
    (fun e =>
       (logger_exception "Prediction failed" e ;;
        lret {| body := error_body (str e); status := 500 |})%log).

End HandlerLog.

(** The first record of every request. *)
Definition received : log_record :=
  {| levelname := INFO; message := "Received image for prediction";
     exc_info := None |}.

Definition is_error (rec : log_record) : bool :=
  match levelname rec with
  | ERROR => true
  | INFO => false
  end.

Definition count_errors (recs : list log_record) : nat :=
  List.length (filter is_error recs).

(** No record follows a record of level ERROR. *)
Fixpoint error_only_last (recs : list log_record) : bool :=
  match recs with
  | [] => true
  | rec :: rest =>
      match rest with
      | [] => true
      | _ :: _ => negb (is_error rec) && error_only_last rest
      end
  end.

(** ** Test doubles *)

(** A one-pixel image and libraries that open every byte string as that
    image, resize by repeating its first pixel, and let the model answer
    [answer] on every tensor. *)
Definition solid_image (p : pixel) : rgb_image :=
  {| size := (1, 1); getpixel := fun _ _ => p |}.

Definition stub_libraries (answer : result pyval) : Libraries :=
  {| pil_image := list Z;
     Image_open := fun data => inr data;
     convert_RGB := fun _ => inr (solid_image (Byte.xff, Byte.x80, Byte.x00));
     resample := fun img _ _ _ => getpixel img 0 0;
     model_predict := fun _ => answer |}.

Definition scores_output (scores : list Q) : pyval :=
  PyDict [("output_0", NdArray (score_array scores []))].

(** A process whose image library accepts the content that starts with
    the first byte of the PNG signature, as the one-pixel image, and no
    other content. *)
Definition stub_process (answer : result pyval) : Process :=
  {| image := list Z;
     identify := fun data =>
       match data with
       | 137%Z :: _ => inr (Some data)
       | _ => inr None
       end;
     convert := fun _ => inr (solid_image (Byte.xff, Byte.x80, Byte.x00));
     resampling := fun img _ _ _ => getpixel img 0 0;
     model := fun _ => answer |}.

(** Two addresses a [BytesIO] object may have. *)
Definition address_1 : N := 0x7f23f6674450.
Definition address_2 : N := 0x7f23f66744a0.

(** A row with a not-a-number in it, and the list [list.sort] makes of
    its labelled scores. *)
Definition nan_row : list Exact.pyfloat :=
  [Exact.Finite 0.5; Exact.NaN; Exact.Finite 0.7;
   Exact.Finite 0.1; Exact.Finite 0.3; Exact.Finite 0.2].

Definition nan_row_sorted : list Exact.prediction :=
  [ {| Exact.class := "Comfort_fabric_conditioner";
       Exact.probability := Exact.Finite 0.5 |};
    {| Exact.class := "Prima_noodles";
       Exact.probability := Exact.NaN |};
    {| Exact.class := "Raigam_soya_meat";
       Exact.probability := Exact.Finite 0.7 |};
    {| Exact.class := "Signal_toothbrush";
       Exact.probability := Exact.Finite 0.3 |};
    {| Exact.class := "Vim_dishwash_bar";
       Exact.probability := Exact.Finite 0.2 |};
    {| Exact.class := "Safe_guard_soap";
       Exact.probability := Exact.Finite 0.1 |} ].

(** The tensor the decoder builds from the one-pixel image. *)
Definition stub_tensor : tensor :=
  expand_dims_0
    (divide_255
       (np_array_float32
          {| size := (224, 224);
             getpixel := fun _ _ => (Byte.xff, Byte.x80, Byte.x00) |})).

(** The field of a request: the three bytes "ABC" in base64. *)
Definition stub_fields : list (string * json) :=
  [("image_data", JStr "QUJD")].

(** The same field beside another one. *)
Definition stub_fields_named : list (string * json) :=
  [("filename", JStr "a.png"); ("image_data", JStr "QUJD")].

(** The text "hello" in base64, wrapped after four characters. *)
Definition wrapped_hello : string :=
  "aGVs" ++ String Re.newline "bG8=".

(** What the model may be called on: a batch of one 224 x 224 RGB image
    with channel values in [0, 1]. *)
Definition model_input_ok (x : tensor) : Prop :=
  has_shape 1 224 224 3 x /\ all_values in_unit_interval x.

(** The characters of a text that the decoder looks at: alphabet
    characters and pads. *)
Fixpoint base64_characters (s : string) : string :=
  match s with
  | EmptyString => EmptyString
  | String c s' =>
      if Base64.alphabet c || Ascii.eqb c Base64.BASE64_PAD
      then String c (base64_characters s')
      else base64_characters s'
  end.

(** A value of Python's [bytes]. *)
Definition is_byte (b : Z) : Prop := (0 <= b < 256)%Z.

(** The share of the input a partly read quad has not yet turned into
    output, in quarters of a byte: the weight of the loop state in the
    bound on the length of the output. *)
Definition pending (st : Base64.state) : nat :=
  match Base64.quad_pos st with
  | 0 => 0
  | 1 => 3
  | 2 => 2
  | _ => 1
  end.

(** The values of the alphabet characters of a text, in order. *)
Fixpoint sextets (s : string) : list Z :=
  match s with
  | EmptyString => []
  | String c s' =>
      match Base64.table_a2b_base64 c with
      | Some v => v :: sextets s'
      | None => sextets s'
      end
  end.

(** The number a list of digits writes in a base, first digit first. *)
Definition digits_value (base : Z) (digits : list Z) : Z :=
  fold_left (fun acc d => (acc * base + d)%Z) digits 0%Z.

(** The loop state after the sextets [vs]: the bytes written and the bits
    kept in [leftchar] together hold the bits of [vs]. *)
Definition holds_bits (st : Base64.state) (vs : list Z) : Prop :=
  4 * List.length (Base64.bin_data st) + pending st = 3 * List.length vs /\
  match Base64.quad_pos st with
  | 0 => digits_value 256 (Base64.bin_data st) = digits_value 64 vs
  | 1 =>
      (0 <= Base64.leftchar st < 64)%Z /\
      (digits_value 256 (Base64.bin_data st) * 64 + Base64.leftchar st)%Z =
        digits_value 64 vs
  | 2 =>
      (0 <= Base64.leftchar st < 16)%Z /\
      (digits_value 256 (Base64.bin_data st) * 16 + Base64.leftchar st)%Z =
        digits_value 64 vs
  | _ =>
      (0 <= Base64.leftchar st < 4)%Z /\
      (digits_value 256 (Base64.bin_data st) * 4 + Base64.leftchar st)%Z =
        digits_value 64 vs
  end.

(** Substring test, for statements about the text of an error message. *)
Fixpoint contains (needle hay : string) : bool :=
  String.prefix needle hay ||
  match hay with
  | EmptyString => false
  | String _ hay' => contains needle hay'
  end.

(** * Properties *)

(** ** The handler boundary *)

Section HandlerFacts.
Context {L : Libraries}.

Lemma predict_no_json (e : exn) (log : call_log) :
  predict (mkRequest (inl e)) log = (inr (failure e), log).
Proof. reflexivity. Qed.

Lemma predict_not_a_dict (data : json) (log : call_log) :
  (forall fields, data <> JObj fields) ->
  predict (mkRequest (inr data)) log =
  (inr (failure (no_attribute (json_type_name data) "get")), log).
Proof.
  intros Hdata. destruct data; try reflexivity.
  exfalso. eapply Hdata. reflexivity.
Qed.

Lemma predict_field (fields : list (string * json)) (log : call_log) :
  predict (mkRequest (inr (JObj fields))) log =
  let image_data :=
    match dict_lookup "image_data" fields with
    | Some v => v
    | None => JNull
    end in
  if truthy image_data then
    match decode_image image_data with
    | inl e => (inr (failure e), log)
    | inr x => (inr (after_inference x), (log ++ [x])%list)
    end
  else (inr (failure (ValueError "Missing image_data")), log).
Proof.
  unfold predict, predict_body, try_except, bind, lift, raise, ret,
    after_inference, predict_call, json_get, get_json.
  cbv zeta.
  destruct (dict_lookup "image_data" fields) as [v|];
    [destruct (truthy v) eqn:Hv | ]; simpl; try reflexivity.
  destruct (decode_image v) as [e|x]; simpl; try reflexivity.
  destruct (model_predict x) as [e|preds]; simpl; try reflexivity.
  destruct (keys preds) as [e|ks]; simpl; try reflexivity.
  destruct (postprocess preds) as [e|r]; reflexivity.
Qed.

Lemma failure_has_failure_shape (e : exn) : failure_shape (failure e).
Proof. split; [reflexivity | exists (str e); reflexivity]. Qed.

Lemma respond_shape (v : pyval) (r : response) :
  respond v = inr r -> success_shape r \/ failure_shape r.
Proof.
  destruct v as [ | a | items | name ]; simpl; intros H;
    try (injection H as <-; right; split;
         [reflexivity | eexists; reflexivity]).
  destruct (format_predictions a) as [e|results]; simpl in H;
    [discriminate|].
  injection H as <-. left. split; [reflexivity | exists results; reflexivity].
Qed.

Lemma postprocess_shape (preds : pyval) (r : response) :
  postprocess preds = inr r -> success_shape r \/ failure_shape r.
Proof.
  destruct preds as [ | a | items | name ].
  - apply (respond_shape PyNone).
  - apply (respond_shape (NdArray a)).
  - simpl. destruct (dict_lookup "output_0" items) as [v|].
    + destruct v as [ | a | items' | name ];
        [ | apply (respond_shape (NdArray a))
          | apply (respond_shape (PyDict items'))
          | apply (respond_shape (PyObject name)) ].
      intros H; injection H as <-.
      right; split; [reflexivity | eexists; reflexivity].
    + intros H; injection H as <-.
      right; split; [reflexivity | eexists; reflexivity].
  - apply (respond_shape (PyObject name)).
Qed.

Lemma after_inference_shape (x : tensor) :
  success_shape (after_inference x) \/ failure_shape (after_inference x).
Proof.
  unfold after_inference.
  destruct (model_predict x) as [e|preds];
    [right; apply failure_has_failure_shape|].
  destruct (keys preds) as [e|ks];
    [right; apply failure_has_failure_shape|].
  destruct (postprocess preds) as [e|r] eqn:Hr;
    [right; apply failure_has_failure_shape|].
  eapply postprocess_shape; eassumption.
Qed.

Lemma success_not_failure (r : response) :
  success_shape r -> ~ failure_shape r.
Proof. intros [H200 _] [H500 _]. rewrite H200 in H500. discriminate. Qed.

Lemma shape_exclusive (r : response) :
  success_shape r \/ failure_shape r ->
  (success_shape r /\ ~ failure_shape r) \/
  (failure_shape r /\ ~ success_shape r).
Proof.
  intros [Hs|Hf]; [left | right]; split; trivial.
  - now apply success_not_failure.
  - intros Hs. now apply (success_not_failure Hs).
Qed.

Lemma predict_catches (req : request) (log : call_log) :
  predict req log =
  match predict_body req log with
  | (inl e, log') => (inr (failure e), log')
  | (inr r, log') => (inr r, log')
  end.
Proof. reflexivity. Qed.

(** C8: every request ends in a response, never in an escaping exception;
    the response is either 200 with a [predictions] body or 500 with an
    [error] body, and not both; and an exception raised anywhere in the
    body of the [try] block becomes the 500 response carrying its
    message. *)
Theorem predict_two_outcomes (req : request) (log : call_log) :
  exists (r : response) (log' : call_log),
    predict req log = (inr r, log') /\
    ((success_shape r /\ ~ failure_shape r) \/
     (failure_shape r /\ ~ success_shape r)) /\
    (forall (e : exn) (log'' : call_log),
       predict_body req log = (inl e, log'') ->
       r = {| body := error_body (str e); status := 500 |} /\ log' = log'').
Proof.
  assert (exists (r : response) (log' : call_log),
            predict req log = (inr r, log') /\
            (success_shape r \/ failure_shape r)) as (r & log' & Hrun & Hshape).
  { destruct req as [[e|data]].
    - exists (failure e), log. split; [apply predict_no_json|].
      right. apply failure_has_failure_shape.
    - destruct data as [ | b | n | q | s | items | fields ];
        try (eexists; exists log; split; [reflexivity|];
             right; apply failure_has_failure_shape).
      rewrite predict_field. cbv zeta.
      destruct (truthy _).
      + destruct (decode_image _) as [e|x].
        * exists (failure e), log. split; [reflexivity|].
          right. apply failure_has_failure_shape.
        * exists (after_inference x), (log ++ [x])%list.
          split; [reflexivity | apply after_inference_shape].
      + eexists; exists log. split; [reflexivity|].
        right. apply failure_has_failure_shape. }
  exists r, log'. split; [exact Hrun|].
  split; [now apply shape_exclusive|].
  intros e log'' Hbody. rewrite predict_catches, Hbody in Hrun.
  injection Hrun as <- <-. now split.
Qed.

(** C6: a body without the field [image_data], or with the empty string
    in it, gets the 500 response whose message names the field, and the
    log of inference calls is left as it was. *)
Theorem predict_missing_image_data
    (fields : list (string * json)) (log : call_log) :
  dict_lookup "image_data" fields = None \/
  dict_lookup "image_data" fields = Some (JStr "") ->
  predict (mkRequest (inr (JObj fields))) log =
    (inr {| body := error_body "Missing image_data"; status := 500 |}, log)
  /\
  contains "image_data" "Missing image_data" = true.
Proof.
  intros H. split; [|reflexivity].
  rewrite predict_field. cbv zeta.
  destruct H as [-> | ->]; reflexivity.
Qed.

(** The response to a request whose field decodes to the tensor [x]. *)
Lemma predict_decoded
    (fields : list (string * json)) (v : json) (x : tensor)
    (log : call_log) :
  dict_lookup "image_data" fields = Some v ->
  truthy v = true ->
  decode_image v = inr x ->
  predict (mkRequest (inr (JObj fields))) log =
  (inr (after_inference x), (log ++ [x])%list).
Proof.
  intros Hv Ht Hx. rewrite predict_field, Hv. cbv zeta.
  rewrite Ht, Hx. reflexivity.
Qed.

(** A dict without the key [output_0] (or with [None] under it) gives the
    500 response whose message contains the word "output". *)
Lemma after_inference_missing_output
    (x : tensor) (items : list (string * pyval)) :
  model_predict x = inr (PyDict items) ->
  dict_lookup "output_0" items = None ->
  after_inference x =
    {| body := error_body "Missing 'output_0' in prediction";
       status := 500 |} /\
  contains "output" "Missing 'output_0' in prediction" = true.
Proof.
  intros Hm Hk. split; [|reflexivity].
  unfold after_inference. rewrite Hm. simpl. rewrite Hk. reflexivity.
Qed.

(** A dict with an array under [output_0]: that array is formatted. *)
Lemma after_inference_output_0
    (x : tensor) (items : list (string * pyval)) (a : ndarray) :
  model_predict x = inr (PyDict items) ->
  dict_lookup "output_0" items = Some (NdArray a) ->
  after_inference x =
    match format_predictions a with
    | inl e => failure e
    | inr results =>
        {| body := predictions_body results; status := 200 |}
    end.
Proof.
  intros Hm Hk. unfold after_inference. rewrite Hm. simpl. rewrite Hk.
  simpl. destruct (format_predictions a); reflexivity.
Qed.

(** The same at the level of the handler. *)
Lemma predict_missing_output
    (fields : list (string * json)) (v : json) (x : tensor)
    (items : list (string * pyval)) (log : call_log) :
  dict_lookup "image_data" fields = Some v ->
  truthy v = true ->
  decode_image v = inr x ->
  model_predict x = inr (PyDict items) ->
  dict_lookup "output_0" items = None ->
  predict (mkRequest (inr (JObj fields))) log =
  (inr {| body := error_body "Missing 'output_0' in prediction";
          status := 500 |},
   (log ++ [x])%list).
Proof.
  intros Hv Ht Hx Hm Hk. rewrite (predict_decoded _ _ Hv Ht Hx).
  now rewrite (proj1 (after_inference_missing_output _ Hm Hk)).
Qed.

(** C5, the part the code misses: when the model answers with a bare
    array, line 70 calls [preds.keys()] before the [isinstance] test, the
    [AttributeError] is caught, and the response is the 500 failure; the
    array never reaches the formatter. *)
Theorem predict_bare_array_fails
    (fields : list (string * json)) (v : json) (x : tensor)
    (a : ndarray) (log : call_log) :
  dict_lookup "image_data" fields = Some v ->
  truthy v = true ->
  decode_image v = inr x ->
  model_predict x = inr (NdArray a) ->
  predict (mkRequest (inr (JObj fields))) log =
  (inr {| body := error_body "'numpy.ndarray' object has no attribute 'keys'";
          status := 500 |},
   (log ++ [x])%list).
Proof.
  intros Hv Ht Hx Hm. rewrite (predict_decoded _ _ Hv Ht Hx).
  unfold after_inference. rewrite Hm. reflexivity.
Qed.

End HandlerFacts.

(** ** [list.sort] *)

Lemma float_lt_true (x y : Q) : float_lt x y = true <-> (x < y)%Q.
Proof.
  unfold float_lt. rewrite Qlt_alt.
  destruct (x ?= y)%Q; split; congruence.
Qed.

Lemma float_lt_false (x y : Q) : float_lt x y = false <-> (y <= x)%Q.
Proof.
  split; intros H.
  - apply Qnot_lt_le. intros Hlt. apply float_lt_true in Hlt. congruence.
  - destruct (float_lt x y) eqn:E; trivial.
    apply float_lt_true in E. exfalso. exact (Qlt_not_le _ _ E H).
Qed.

Section SortFacts.
Variable A : Type.
Variable key : A -> Q.

Let ascending_step (a b : A) : Prop := (key a <= key b)%Q.
Let descending_step (a b : A) : Prop := (key b <= key a)%Q.

Lemma insert_perm (x : A) (l : list A) :
  Permutation (insert key x l) (x :: l).
Proof.
  induction l as [|y l IH]; simpl; [reflexivity|].
  destruct (float_lt (key y) (key x)); [|reflexivity].
  rewrite IH. apply perm_swap.
Qed.

Lemma stable_sort_perm (l : list A) : Permutation (stable_sort key l) l.
Proof.
  induction l as [|x l IH]; simpl; [reflexivity|].
  rewrite insert_perm. now constructor.
Qed.

Lemma list_sort_perm (reverse : bool) (l : list A) :
  Permutation (list_sort key reverse l) l.
Proof.
  destruct reverse; simpl; [|apply stable_sort_perm].
  rewrite <- Permutation_rev, stable_sort_perm.
  symmetry. apply Permutation_rev.
Qed.

Lemma insert_hd (x z : A) (l : list A) :
  ascending_step z x -> HdRel ascending_step z l ->
  HdRel ascending_step z (insert key x l).
Proof.
  intros Hzx Hl. destruct l as [|y l]; simpl; [now constructor|].
  destruct (float_lt (key y) (key x)); constructor; trivial.
  now inversion Hl.
Qed.

Lemma insert_sorted (x : A) (l : list A) :
  Sorted ascending_step l -> Sorted ascending_step (insert key x l).
Proof.
  induction 1 as [|y l Hl IH Hhd]; simpl; [repeat constructor|].
  destruct (float_lt (key y) (key x)) eqn:E.
  - constructor; [exact IH|]. apply insert_hd; trivial.
    apply float_lt_true in E. now apply Qlt_le_weak.
  - apply float_lt_false in E. repeat constructor; trivial.
Qed.

Lemma stable_sort_sorted (l : list A) :
  StronglySorted ascending_step (stable_sort key l).
Proof.
  apply Sorted_StronglySorted.
  - intros a b c Hab Hbc. exact (Qle_trans _ _ _ Hab Hbc).
  - induction l as [|x l IH]; simpl; [constructor|].
    now apply insert_sorted.
Qed.

Lemma StronglySorted_snoc (R : A -> A -> Prop) (l : list A) (x : A) :
  StronglySorted R l -> Forall (fun y => R y x) l ->
  StronglySorted R (l ++ [x]).
Proof.
  induction 1 as [|y l Hl IH Hy]; intros Hx; simpl.
  - repeat constructor.
  - inversion Hx as [|? ? Hyx Hlx]; subst.
    constructor; [now apply IH|].
    apply Forall_app. split; [exact Hy | now repeat constructor].
Qed.

Lemma StronglySorted_rev (R : A -> A -> Prop) (l : list A) :
  StronglySorted R l -> StronglySorted (fun a b => R b a) (rev l).
Proof.
  induction 1 as [|y l Hl IH Hy]; simpl; [constructor|].
  apply StronglySorted_snoc; [exact IH|].
  apply Forall_rev. exact Hy.
Qed.

(** With [reverse=True] the result is in descending order of the key. *)
Lemma list_sort_reverse_sorted (l : list A) :
  StronglySorted descending_step (list_sort key true l).
Proof.
  simpl. apply (StronglySorted_rev (R := ascending_step)).
  apply stable_sort_sorted.
Qed.

(** Stability: the elements whose key equals [p] keep their order. *)
Let same (p : Q) (a : A) : bool := Qeq_bool (key a) p.

Lemma insert_filter (p : Q) (x : A) (l : list A) :
  filter (same p) (insert key x l) = filter (same p) (x :: l).
Proof.
  induction l as [|y l IH]; [reflexivity|].
  cbn [insert]. destruct (float_lt (key y) (key x)) eqn:E; [|reflexivity].
  cbn [filter] in *. rewrite IH.
  destruct (same p x) eqn:Ex, (same p y) eqn:Ey; trivial.
  exfalso. unfold same in Ex, Ey.
  apply Qeq_bool_iff in Ex. apply Qeq_bool_iff in Ey.
  apply float_lt_true in E. rewrite Ex, Ey in E.
  exact (Qlt_irrefl _ E).
Qed.

Lemma stable_sort_filter (p : Q) (l : list A) :
  filter (same p) (stable_sort key l) = filter (same p) l.
Proof.
  induction l as [|x l IH]; [reflexivity|].
  cbn [stable_sort fold_right]. rewrite insert_filter.
  cbn [filter]. fold (stable_sort key l). now rewrite IH.
Qed.

Lemma filter_rev (f : A -> bool) (l : list A) :
  filter f (rev l) = rev (filter f l).
Proof.
  induction l as [|x l IH]; [reflexivity|].
  simpl. rewrite filter_app, IH. simpl.
  destruct (f x); simpl; [reflexivity | now rewrite app_nil_r].
Qed.

Lemma list_sort_stable (reverse : bool) (p : Q) (l : list A) :
  filter (fun a => Qeq_bool (key a) p) (list_sort key reverse l) =
  filter (fun a => Qeq_bool (key a) p) l.
Proof.
  fold (same p). destruct reverse; simpl; [|apply stable_sort_filter].
  rewrite filter_rev, stable_sort_filter, filter_rev.
  apply rev_involutive.
Qed.

End SortFacts.

(** ** The prediction formatter *)

Lemma skipn_nth_error (X : Type) (l : list X) (k : nat) (a : X) :
  nth_error l k = Some a -> skipn k l = a :: skipn (S k) l.
Proof.
  revert l. induction k as [|k IH]; intros [|b l] H; try discriminate.
  - injection H as ->. reflexivity.
  - simpl in H. apply IH in H. exact H.
Qed.

(** The comprehension succeeds as long as the indices stay below 6. *)
Lemma comprehension_in_range (scores : list Q) (k : nat) :
  k + List.length scores <= 6 ->
  comprehension (combine (seq k (List.length scores)) (map PyFloat scores)) =
  inr (map (fun entry => {| class := fst entry; probability := snd entry |})
           (combine (skipn k class_labels) scores)).
Proof.
  revert k. induction scores as [|x scores IH]; intros k Hk.
  - simpl. now rewrite combine_nil.
  - simpl in Hk. cbn [List.length seq map combine comprehension].
    unfold class_labels_getitem.
    destruct (nth_error class_labels k) as [label|] eqn:Hlabel.
    + rewrite (skipn_nth_error _ _ Hlabel). cbn [rbind float].
      rewrite IH by lia. reflexivity.
    + apply nth_error_None in Hlabel. simpl in Hlabel. lia.
Qed.

(** It raises [IndexError] as soon as an index reaches 6. *)
Lemma comprehension_out_of_range (scores : list Q) (k : nat) :
  6 < k + List.length scores -> scores <> [] ->
  comprehension (combine (seq k (List.length scores)) (map PyFloat scores)) =
  inl (IndexError "list index out of range").
Proof.
  revert k. induction scores as [|x scores IH]; intros k Hk Hne;
    [congruence|].
  simpl in Hk. cbn [List.length seq map combine comprehension].
  unfold class_labels_getitem.
  destruct (nth_error class_labels k) as [label|] eqn:Hlabel;
    [|reflexivity].
  assert (k < 6) as Hlt.
  { change 6 with (List.length class_labels).
    apply nth_error_Some. rewrite Hlabel. discriminate. }
  cbn [rbind float]. rewrite IH; [reflexivity | lia |].
  destruct scores; [simpl in Hk; lia | discriminate].
Qed.

Lemma format_predictions_row (scores : list Q) (more_rows : list ndarray) :
  format_predictions (score_array scores more_rows) =
  rbind (comprehension
           (combine (seq 0 (List.length scores)) (map PyFloat scores)))
        (fun results => inr (list_sort probability true results)).
Proof.
  unfold format_predictions, score_array. cbn [getitem_0 rbind tolist enumerate].
  rewrite map_map. cbn [tolist]. rewrite length_map. reflexivity.
Qed.

Lemma format_predictions_in_range (scores : list Q) (more_rows : list ndarray) :
  List.length scores <= 6 ->
  format_predictions (score_array scores more_rows) =
  inr (list_sort probability true (labelled scores)).
Proof.
  intros H. rewrite format_predictions_row, comprehension_in_range by lia.
  reflexivity.
Qed.

Lemma format_predictions_out_of_range
    (scores : list Q) (more_rows : list ndarray) :
  6 < List.length scores ->
  format_predictions (score_array scores more_rows) =
  inl (IndexError "list index out of range").
Proof.
  intros H. rewrite format_predictions_row, comprehension_out_of_range.
  - reflexivity.
  - lia.
  - destruct scores; [simpl in H; lia | discriminate].
Qed.

Lemma labelled_length (scores : list Q) :
  List.length scores <= 6 -> List.length (labelled scores) = List.length scores.
Proof.
  intros H. unfold labelled. rewrite length_map, length_combine.
  apply Nat.min_r. exact H.
Qed.

Lemma labelled_nth (scores : list Q) (i : nat) :
  List.length scores = 6 -> i < 6 ->
  nth_error (labelled scores) i =
  Some {| class := nth i class_labels ""; probability := nth i scores 0%Q |}.
Proof.
  intros Hlen Hi. unfold labelled.
  rewrite nth_error_map.
  assert (nth_error (combine class_labels scores) i =
          Some (nth i class_labels "", nth i scores 0%Q)) as ->; [|reflexivity].
  rewrite <- (combine_nth class_labels scores i "" 0%Q) by (simpl; lia).
  apply nth_error_nth'. rewrite length_combine, Hlen. exact Hi.
Qed.

(** C4: the sort is stable. For every probability [p], the entries of the
    result whose probability equals [p] are the entries of the unsorted
    list with that probability, in the same (label index) order. *)
Theorem format_predictions_stable (scores : list Q) (more_rows : list ndarray) :
  List.length scores <= 6 ->
  exists results : list prediction,
    format_predictions (score_array scores more_rows) = inr results /\
    forall p : Q,
      with_probability p results = with_probability p (labelled scores).
Proof.
  intros Hlen.
  exists (list_sort probability true (labelled scores)).
  split; [now apply format_predictions_in_range|].
  intros p. apply list_sort_stable.
Qed.

(** The example of the specification: the two scores 0.5 come first, in
    the order of their labels. *)
Example format_predictions_tie :
  format_predictions (score_array [0.5; 0.5; 0.1; 0.1; 0.1; 0.1]%Q []) =
  inr [ {| class := "Comfort_fabric_conditioner"; probability := 0.5 |};
        {| class := "Prima_noodles"; probability := 0.5 |};
        {| class := "Raigam_soya_meat"; probability := 0.1 |};
        {| class := "Safe_guard_soap"; probability := 0.1 |};
        {| class := "Signal_toothbrush"; probability := 0.1 |};
        {| class := "Vim_dishwash_bar"; probability := 0.1 |} ].
Proof. reflexivity. Qed.

Section LengthMismatch.
Context {L : Libraries}.

(** C9: with more than six scores in the first batch row the label
    lookup raises [IndexError] and the response is the 500 failure
    carrying that exception's message; with fewer than six the response is
    200 and holds as many entries as there are scores, labelled with the
    first labels. *)
Theorem predict_length_mismatch
    (fields : list (string * json)) (v : json) (x : tensor)
    (items : list (string * pyval)) (scores : list Q)
    (more_rows : list ndarray) (log : call_log) :
  dict_lookup "image_data" fields = Some v ->
  truthy v = true ->
  decode_image v = inr x ->
  model_predict x = inr (PyDict items) ->
  dict_lookup "output_0" items = Some (NdArray (score_array scores more_rows)) ->
  (6 < List.length scores ->
     predict (mkRequest (inr (JObj fields))) log =
     (inr {| body := error_body "list index out of range"; status := 500 |},
      (log ++ [x])%list)) /\
  (List.length scores < 6 ->
     exists results : list prediction,
       predict (mkRequest (inr (JObj fields))) log =
       (inr {| body := predictions_body results; status := 200 |},
        (log ++ [x])%list) /\
       List.length results = List.length scores /\
       List.length results < 6 /\
       Permutation results (labelled scores)).
Proof.
  intros Hv Ht Hx Hm Hk.
  rewrite (predict_decoded _ _ Hv Ht Hx).
  rewrite (after_inference_output_0 _ Hm Hk).
  split; intros Hlen.
  - rewrite format_predictions_out_of_range by exact Hlen. reflexivity.
  - rewrite format_predictions_in_range by lia.
    exists (list_sort probability true (labelled scores)).
    assert (Permutation (list_sort probability true (labelled scores))
                        (labelled scores)) as Hperm
      by apply list_sort_perm.
    split; [reflexivity|].
    rewrite (Permutation_length Hperm), labelled_length by lia.
    repeat split; trivial.
Qed.

End LengthMismatch.

(** * Lines 85-94 on Python's own numbers *)

(** ** The order of the floats that are numbers *)

Module FloatOrder.
Import Exact.

Lemma lt_finite (a b : Q) :
  float_lt (Finite a) (Finite b) = true <-> (a < b)%Q.
Proof.
  cbn. rewrite Qlt_alt. destruct (a ?= b)%Q; split; congruence.
Qed.

Lemma lt_finite_false (a b : Q) :
  float_lt (Finite a) (Finite b) = false <-> (b <= a)%Q.
Proof.
  split; intros H.
  - apply Qnot_lt_le. intros Hlt. apply lt_finite in Hlt. congruence.
  - destruct (float_lt (Finite a) (Finite b)) eqn:E; [|reflexivity].
    apply lt_finite in E. exfalso. exact (Qlt_not_le _ _ E H).
Qed.

Ltac to_Q :=
  repeat match goal with
  | H : float_lt (Finite _) (Finite _) = true |- _ => apply lt_finite in H
  | H : float_lt (Finite _) (Finite _) = false |- _ =>
      apply lt_finite_false in H
  | |- float_lt (Finite _) (Finite _) = true => apply lt_finite
  | |- float_lt (Finite _) (Finite _) = false => apply lt_finite_false
  end.

Ltac by_cases x y z :=
  destruct x, y, z; try discriminate; try reflexivity;
  intros; try discriminate; try reflexivity; to_Q.

(** [<] is asymmetric on all floats. *)
Lemma lt_asym (x y : pyfloat) :
  float_lt x y = true -> float_lt y x = false.
Proof.
  destruct x, y; try discriminate; try reflexivity.
  intros H. to_Q. now apply Qlt_le_weak.
Qed.

Lemma lt_irrefl (x : pyfloat) : float_lt x x = false.
Proof. destruct x; try reflexivity. to_Q. apply Qle_refl. Qed.

(** On the floats that are numbers, "not greater" is transitive and
    composes with [<]. *)
Lemma le_trans (x y z : pyfloat) :
  is_nan y = false ->
  float_lt y x = false -> float_lt z y = false -> float_lt z x = false.
Proof.
  destruct x, y, z; try discriminate; try reflexivity;
    intros _ H1 H2; try discriminate; try reflexivity; to_Q.
  exact (Qle_trans _ _ _ H1 H2).
Qed.

Lemma lt_le_trans (x y z : pyfloat) :
  is_nan z = false ->
  float_lt x y = true -> float_lt z y = false -> float_lt x z = true.
Proof.
  destruct x, y, z; try discriminate; try reflexivity;
    intros _ H1 H2; try discriminate; try reflexivity; to_Q.
  exact (Qlt_le_trans _ _ _ H1 H2).
Qed.

Lemma lt_trans (x y z : pyfloat) :
  float_lt x y = true -> float_lt y z = true -> float_lt x z = true.
Proof.
  destruct x, y, z; try discriminate; try reflexivity;
    intros H1 H2; try discriminate; try reflexivity; to_Q.
  exact (Qlt_trans _ _ _ H1 H2).
Qed.

(** Between numbers, [>=] is the negation of [<]. *)
Lemma ge_not_lt (x y : pyfloat) :
  is_nan x = false -> is_nan y = false ->
  float_lt x y = false -> float_ge x y = true.
Proof.
  unfold float_ge.
  destruct x, y; try discriminate; try reflexivity; intros _ _ H.
  destruct (float_lt (Finite q0) (Finite q)) eqn:E; [reflexivity|].
  to_Q. cbn. apply Qeq_bool_iff. now apply Qle_antisym.
Qed.

(** A not-a-number is [>=] nothing and nothing is [>=] it. *)
Lemma ge_nan_r (x : pyfloat) : float_ge x NaN = false.
Proof. now destruct x. Qed.

Lemma ge_nan_l (x : pyfloat) : float_ge NaN x = false.
Proof. now destruct x. Qed.

End FloatOrder.

(** ** Sorted lists *)

Lemma StronglySorted_app_intro (A : Type) (R : A -> A -> Prop) (l1 l2 : list A) :
  StronglySorted R l1 -> StronglySorted R l2 ->
  (forall a b, In a l1 -> In b l2 -> R a b) ->
  StronglySorted R (l1 ++ l2).
Proof.
  induction 1 as [|x l1 Hl1 IH Hx]; intros H2 H12; simpl; [exact H2|].
  constructor.
  - apply IH; [exact H2|]. intros a b Ha Hb. apply H12; [now right|exact Hb].
  - apply Forall_app. split; [exact Hx|].
    apply Forall_forall. intros b Hb. apply H12; [now left|exact Hb].
Qed.

Lemma StronglySorted_app_elim (A : Type) (R : A -> A -> Prop) (l1 l2 : list A) :
  StronglySorted R (l1 ++ l2) ->
  StronglySorted R l1 /\ StronglySorted R l2 /\
  (forall a b, In a l1 -> In b l2 -> R a b).
Proof.
  induction l1 as [|x l1 IH]; simpl; intros H.
  - split; [constructor|]. split; [exact H|]. intros a b [].
  - inversion H as [|? ? Hl Hx]; subst.
    destruct (IH Hl) as (H1 & H2 & H12).
    apply Forall_app in Hx. destruct Hx as [Hx1 Hx2].
    split; [now constructor|]. split; [exact H2|].
    intros a b [<-|Ha] Hb; [|now apply H12].
    rewrite Forall_forall in Hx2. now apply Hx2.
Qed.

Lemma StronglySorted_weaken (A : Type) (R R' : A -> A -> Prop) (l : list A) :
  StronglySorted R l ->
  (forall a b, In a l -> In b l -> R a b -> R' a b) ->
  StronglySorted R' l.
Proof.
  induction 1 as [|x l Hl IH Hx]; intros Himp; constructor.
  - apply IH. intros a b Ha Hb. apply Himp; now right.
  - rewrite Forall_forall in *. intros b Hb.
    apply Himp; [now left | now right | now apply Hx].
Qed.

(** A list sorted step by step is sorted throughout when the relation is
    transitive across the elements that satisfy [P]. *)
Lemma Sorted_StronglySorted_on (A : Type) (R : A -> A -> Prop) (P : A -> Prop)
    (l : list A) :
  (forall a b c, P b -> R a b -> R b c -> R a c) ->
  Forall P l -> Sorted R l -> StronglySorted R l.
Proof.
  intros Htrans HP Hs. induction Hs as [|x l Hl IH Hhd]; constructor.
  - apply IH. now inversion HP.
  - inversion HP as [|? ? Px Pl]; subst. specialize (IH Pl).
    destruct l as [|y l]; [constructor|].
    inversion Hhd as [|? ? Rxy]; subst.
    inversion IH as [|? ? _ Hy]; subst.
    inversion Pl as [|? ? Py _]; subst.
    constructor; [exact Rxy|].
    rewrite Forall_forall in *. intros z Hz.
    apply (Htrans x y z); auto.
Qed.

Lemma StronglySorted_nth (A : Type) (R : A -> A -> Prop) (l : list A) :
  StronglySorted R l ->
  forall i j a b, i < j ->
    nth_error l i = Some a -> nth_error l j = Some b -> R a b.
Proof.
  induction 1 as [|x l Hl IH Hx]; intros i j a b Hij Ha Hb.
  - now destruct i.
  - destruct j as [|j]; [lia|]. simpl in Hb.
    destruct i as [|i]; simpl in Ha.
    + injection Ha as <-. rewrite Forall_forall in Hx.
      apply Hx. eapply nth_error_In. exact Hb.
    + apply (IH i j); trivial. lia.
Qed.

(** ** CPython's sort of a short list *)

Section CPythonSort.
Variable A : Type.
Variable key : A -> Exact.pyfloat.

Local Abbreviation islt := (Exact.islt key).
Local Abbreviation numbers := (Exact.numbers key).
Local Abbreviation ascending := (Exact.ascending key).

Lemma place_perm (sorted : list A) (pivot : A) :
  Permutation (Exact.place key sorted pivot) (pivot :: sorted).
Proof.
  unfold Exact.place. rewrite <- Permutation_middle.
  now rewrite firstn_skipn.
Qed.

Lemma binarysort_perm (rest run : list A) :
  Permutation (Exact.binarysort key run rest) (run ++ rest).
Proof.
  unfold Exact.binarysort. revert run.
  induction rest as [|x rest IH]; intros run; simpl.
  - now rewrite app_nil_r.
  - rewrite IH, place_perm. apply Permutation_middle.
Qed.

(** The sort only moves the elements, whatever their keys. *)
Lemma cpython_sort_perm (reverse : bool) (l : list A) :
  Permutation (Exact.list_sort key reverse l) l.
Proof.
  unfold Exact.list_sort.
  set (l0 := if reverse then rev l else l).
  assert (H0 : Permutation l0 l).
  { subst l0. destruct reverse; [symmetry; apply Permutation_rev | reflexivity]. }
  match goal with
  | |- Permutation (if reverse then rev ?s else ?s) _ =>
      assert (Hs : Permutation s l0)
  end.
  { destruct (List.length l0 <? 2)%nat; [reflexivity|].
    destruct (Exact.count_run key l0) as [n d].
    rewrite binarysort_perm.
    transitivity (firstn n l0 ++ skipn n l0)%list;
      [|now rewrite firstn_skipn].
    apply Permutation_app_tail.
    destruct d; [symmetry; apply Permutation_rev | reflexivity]. }
  destruct reverse; [rewrite <- Permutation_rev|]; now rewrite Hs.
Qed.

Lemma numbers_perm (l l' : list A) :
  Permutation l l' -> numbers l -> numbers l'.
Proof. intros Hp. unfold Exact.numbers. now apply Permutation_Forall. Qed.

Lemma numbers_app (l l' : list A) :
  numbers (l ++ l') <-> numbers l /\ numbers l'.
Proof. unfold Exact.numbers. apply Forall_app. Qed.

(** The binary search: on a sorted part whose keys are numbers it ends at
    a position with no element above [pivot] before it and only elements
    above [pivot] from it on. *)
Lemma bisect_spec (pivot : A) (sorted : list A) :
  ascending sorted -> numbers sorted ->
  forall fuel l r,
    l < r -> r <= List.length sorted -> r - l <= fuel ->
    (forall i y, i < l -> nth_error sorted i = Some y -> islt pivot y = false) ->
    (forall i y, r <= i -> nth_error sorted i = Some y -> islt pivot y = true) ->
    let pos := Exact.bisect key fuel pivot sorted l r in
    pos <= List.length sorted /\
    (forall i y, i < pos -> nth_error sorted i = Some y -> islt pivot y = false) /\
    (forall i y, pos <= i -> nth_error sorted i = Some y -> islt pivot y = true).
Proof.
  intros Hasc Hnum. unfold Exact.numbers in Hnum.
  rewrite Forall_forall in Hnum.
  induction fuel as [|fuel IH]; intros l r Hlr Hr Hfuel Hlow Hhigh; [lia|].
  cbn [Exact.bisect].
  assert (Hhalf : (r - l) / 2 < r - l) by (apply Nat.div_lt; lia).
  set (p := l + (r - l) / 2) in *.
  assert (Hp : l <= p < r) by (subst p; lia).
  destruct (nth_error sorted p) as [x|] eqn:Ex;
    [|apply nth_error_None in Ex; lia].
  assert (Hx : Exact.is_nan (key x) = false)
    by (apply Hnum; eapply nth_error_In; exact Ex).
  destruct (islt pivot x) eqn:Elt; cbv beta iota zeta.
  - (* pivot < sorted[p]: r = p *)
    assert (Hhigh' : forall i y, p <= i -> nth_error sorted i = Some y ->
                                 islt pivot y = true).
    { intros i y Hi Ey.
      destruct (Nat.eq_dec i p) as [->|Hne]; [congruence|].
      assert (Hy : Exact.is_nan (key y) = false)
        by (apply Hnum; eapply nth_error_In; exact Ey).
      apply (FloatOrder.lt_le_trans (key pivot) (key x) (key y) Hy Elt).
      apply (StronglySorted_nth Hasc (i := p) (j := i)); trivial. lia. }
    destruct (l <? p)%nat eqn:Elp.
    + apply Nat.ltb_lt in Elp. apply IH; trivial; lia.
    + apply Nat.ltb_ge in Elp.
      split; [lia|]. split; [|intros i y Hi; apply Hhigh'; lia].
      exact Hlow.
  - (* sorted[p] <= pivot: l = p + 1 *)
    assert (Hlow' : forall i y, i < S p -> nth_error sorted i = Some y ->
                                islt pivot y = false).
    { intros i y Hi Ey.
      destruct (Nat.eq_dec i p) as [->|Hne]; [congruence|].
      apply (FloatOrder.le_trans (key y) (key x) (key pivot) Hx); trivial.
      apply (StronglySorted_nth Hasc (i := i) (j := p)); trivial. lia. }
    destruct (S p <? r)%nat eqn:Epr.
    + apply Nat.ltb_lt in Epr. apply IH; trivial; lia.
    + apply Nat.ltb_ge in Epr.
      split; [lia|]. split; [exact Hlow'|].
      intros i y Hi. apply Hhigh. lia.
Qed.

Lemma In_firstn_nth (l : list A) (n : nat) (a : A) :
  In a (firstn n l) -> exists i, i < n /\ nth_error l i = Some a.
Proof.
  revert n. induction l as [|x l IH]; intros [|n]; simpl; try tauto.
  intros [<-|Ha].
  - exists 0. split; [lia|reflexivity].
  - destruct (IH n Ha) as (i & Hi & Ei). exists (S i). split; [lia|exact Ei].
Qed.

Lemma In_skipn_nth (l : list A) (n : nat) (a : A) :
  In a (skipn n l) -> exists i, n <= i /\ nth_error l i = Some a.
Proof.
  revert l. induction n as [|n IH]; intros l Ha.
  - apply In_nth_error in Ha. destruct Ha as [i Ei].
    exists i. split; [lia|exact Ei].
  - destruct l as [|x l]; [destruct Ha|].
    destruct (IH l Ha) as (i & Hi & Ei).
    exists (S i). split; [lia|exact Ei].
Qed.

(** One round of [binarysort] keeps the sorted part sorted. *)
Lemma place_ascending (sorted : list A) (pivot : A) :
  ascending sorted -> numbers sorted ->
  ascending (Exact.place key sorted pivot) /\
  Forall (fun y => islt pivot y = true)
    (skipn (Exact.bisect key (List.length sorted) pivot sorted 0
              (List.length sorted)) sorted).
Proof.
  intros Hasc Hnum. unfold Exact.place.
  set (pos := Exact.bisect key _ _ _ _ _).
  assert (Hpos :
    (forall i y, i < pos -> nth_error sorted i = Some y -> islt pivot y = false) /\
    (forall i y, pos <= i -> nth_error sorted i = Some y -> islt pivot y = true)).
  { destruct (Nat.eq_dec (List.length sorted) 0) as [E0|Hlen].
    - apply length_zero_iff_nil in E0. subst sorted.
      split; intros i y _ E; now destruct i.
    - assert (Hlow0 : forall i y, i < 0 -> nth_error sorted i = Some y ->
                                  islt pivot y = false) by (intros; lia).
      assert (Hhigh0 : forall i y, List.length sorted <= i ->
                         nth_error sorted i = Some y -> islt pivot y = true).
      { intros i y Hi Ey. apply nth_error_None in Hi. congruence. }
      destruct (@bisect_spec pivot sorted Hasc Hnum (List.length sorted) 0
                  (List.length sorted) ltac:(lia) (le_n _) ltac:(lia)
                  Hlow0 Hhigh0) as (_ & H1 & H2).
      split; assumption. }
  destruct Hpos as [Hlow Hhigh].
  assert (Hsplit := Hasc). unfold Exact.ascending in Hsplit.
  rewrite <- (firstn_skipn pos sorted) in Hsplit.
  apply StronglySorted_app_elim in Hsplit.
  destruct Hsplit as (H1 & H2 & H12).
  assert (Hafter : Forall (fun y => islt pivot y = true) (skipn pos sorted)).
  { apply Forall_forall. intros y Hy.
    apply In_skipn_nth in Hy. destruct Hy as (i & Hi & Ei).
    now apply (Hhigh i). }
  split; [|exact Hafter].
  apply StronglySorted_app_intro; trivial.
  - constructor; [exact H2|].
    eapply Forall_impl; [|exact Hafter].
    intros y Hy. now apply FloatOrder.lt_asym.
  - intros a b Ha [<-|Hb]; [|now apply H12].
    apply In_firstn_nth in Ha. destruct Ha as (i & Hi & Ei).
    now apply (Hlow i).
Qed.

Lemma binarysort_ascending (rest run : list A) :
  ascending run -> numbers run -> numbers rest ->
  ascending (Exact.binarysort key run rest).
Proof.
  unfold Exact.binarysort. revert run.
  induction rest as [|x rest IH]; intros run Hasc Hrun Hrest; [exact Hasc|].
  simpl. inversion Hrest as [|? ? Hx Hrest']; subst.
  apply IH; trivial.
  - now apply place_ascending.
  - apply (numbers_perm (l := x :: run)).
    + symmetry. apply place_perm.
    + now constructor.
Qed.

(** The run [count_run] finds is sorted step by step, downwards or not. *)
Lemma run_length_sorted (d : bool) (rest : list A) (prev : A) :
  Sorted (fun a b => islt b a = d)
    (prev :: firstn (Exact.run_length key d prev rest) rest).
Proof.
  revert prev. induction rest as [|x rest IH]; intros prev; simpl.
  - repeat constructor.
  - destruct (Bool.eqb (islt x prev) d) eqn:E; simpl.
    + constructor; [apply IH|]. constructor. now apply eqb_prop.
    + repeat constructor.
Qed.

Lemma count_run_sorted (x0 x1 : A) (rest : list A) :
  let l := x0 :: x1 :: rest in
  let d := islt x1 x0 in
  Exact.count_run key l = (2 + Exact.run_length key d x1 rest, d) /\
  Sorted (fun a b => islt b a = d)
    (firstn (2 + Exact.run_length key d x1 rest) l).
Proof.
  simpl. split; [reflexivity|].
  constructor; [apply run_length_sorted|]. now constructor.
Qed.

(** The first run, turned round when it descends, is in ascending order. *)
Lemma first_run_ascending (l : list A) (n : nat) (d : bool) :
  2 <= List.length l -> numbers l ->
  Exact.count_run key l = (n, d) ->
  ascending (if d then rev (firstn n l) else firstn n l).
Proof.
  intros Hlen Hnum Hrun.
  destruct l as [|x0 [|x1 rest]]; simpl in Hlen; try lia.
  destruct (count_run_sorted x0 x1 rest) as [E Hs].
  cbv zeta in E, Hs. rewrite Hrun in E. injection E as -> ->.
  set (l := x0 :: x1 :: rest) in *.
  set (n := 2 + _) in *.
  assert (Hn : numbers (firstn n l)).
  { rewrite <- (firstn_skipn n l) in Hnum.
    now apply numbers_app in Hnum. }
  destruct (islt x1 x0).
  - apply (StronglySorted_weaken (R := fun a b => islt a b = true)).
    + apply (StronglySorted_rev (R := fun a b => islt b a = true)).
      apply (Sorted_StronglySorted_on (P := fun _ => True)); trivial.
      * intros a b c _ Hab Hbc.
        exact (FloatOrder.lt_trans _ _ _ Hbc Hab).
      * apply Forall_forall. trivial.
    + intros a b _ _. apply FloatOrder.lt_asym.
  - apply (Sorted_StronglySorted_on
             (P := fun a => Exact.is_nan (key a) = false)); trivial.
    intros a b c Hb Hab Hbc.
    exact (FloatOrder.le_trans _ _ _ Hb Hab Hbc).
Qed.

(** On keys that are numbers the sort sorts: ascending without
    [reverse], and with [reverse] no element is below a later one. *)
Lemma cpython_sort_sorted (reverse : bool) (l : list A) :
  numbers l ->
  StronglySorted
    (fun a b => (if reverse then islt a b else islt b a) = false)
    (Exact.list_sort key reverse l).
Proof.
  intros Hnum. unfold Exact.list_sort.
  set (l0 := if reverse then rev l else l).
  assert (H0 : numbers l0).
  { subst l0. destruct reverse; [|exact Hnum].
    apply (numbers_perm (l := l)); [apply Permutation_rev | exact Hnum]. }
  match goal with
  | |- StronglySorted _ (if reverse then rev ?s else ?s) =>
      assert (Hs : ascending s)
  end.
  { destruct (List.length l0 <? 2)%nat eqn:Elen.
    - apply Nat.ltb_lt in Elen.
      destruct l0 as [|x [|y l1]]; simpl in Elen; try lia;
        repeat constructor.
    - apply Nat.ltb_ge in Elen.
      destruct (Exact.count_run key l0) as [n d] eqn:Erun.
      assert (H1 := H0). rewrite <- (firstn_skipn n l0) in H1.
      apply numbers_app in H1. destruct H1 as [Hrun Hrest].
      apply binarysort_ascending; trivial.
      + now apply (first_run_ascending Elen).
      + destruct d; [|exact Hrun].
        apply (numbers_perm (l := firstn n l0));
          [apply Permutation_rev | exact Hrun]. }
  destruct reverse; [|exact Hs].
  apply (StronglySorted_rev (R := fun a b => islt b a = false)).
  exact Hs.
Qed.

End CPythonSort.

(** ** Stability of CPython's sort on numbers *)

Module FloatEq.
Import Exact.

Lemma eq_finite (a b : Q) :
  float_eq (Finite a) (Finite b) = true <-> (a == b)%Q.
Proof. apply Qeq_bool_iff. Qed.

(** Two floats equal to a third are not below one another. *)
Lemma eq_not_lt (x y p : pyfloat) :
  float_eq x p = true -> float_eq y p = true -> float_lt x y = false.
Proof.
  destruct x, y, p; try discriminate; try reflexivity.
  intros Hx Hy. apply eq_finite in Hx. apply eq_finite in Hy.
  apply FloatOrder.lt_finite_false. rewrite Hx, Hy. apply Qle_refl.
Qed.

Lemma eq_refl (x : pyfloat) : is_nan x = false -> float_eq x x = true.
Proof.
  destruct x; try discriminate; try reflexivity.
  intros _. apply eq_finite. reflexivity.
Qed.

(** A number [>=] another and not equal to it is above it. *)
Lemma ge_lt (x y : pyfloat) :
  float_ge x y = true -> float_eq y x = false -> float_lt y x = true.
Proof.
  unfold float_ge. destruct (float_lt y x); [reflexivity|].
  cbn [orb]. intros Hxy Hyx.
  destruct x, y; try discriminate.
  apply eq_finite in Hxy.
  assert (float_eq (Finite q0) (Finite q) = true) as E
    by (apply eq_finite; now symmetry).
  congruence.
Qed.

End FloatEq.

Section CPythonSortStable.
Variable A : Type.
Variable key : A -> Exact.pyfloat.
Variable p : Exact.pyfloat.

Local Abbreviation islt := (Exact.islt key).
Local Abbreviation numbers := (Exact.numbers key).
Local Abbreviation ascending := (Exact.ascending key).

Let same (a : A) : bool := Exact.float_eq (key a) p.

Lemma filter_above (x : A) (l : list A) :
  same x = true -> Forall (fun y => islt x y = true) l ->
  filter same l = [].
Proof.
  intros Hx Hl. induction Hl as [|y l Hy _ IH]; [reflexivity|].
  cbn [filter]. destruct (same y) eqn:Ey; [|exact IH].
  unfold same in Hx, Ey. unfold Exact.islt in Hy.
  rewrite (FloatEq.eq_not_lt _ _ _ Hx Ey) in Hy. discriminate.
Qed.

Lemma filter_below (x : A) (l : list A) :
  same x = true -> Forall (fun y => islt y x = true) l ->
  filter same l = [].
Proof.
  intros Hx Hl. induction Hl as [|y l Hy _ IH]; [reflexivity|].
  cbn [filter]. destruct (same y) eqn:Ey; [|exact IH].
  unfold same in Hx, Ey. unfold Exact.islt in Hy.
  rewrite (FloatEq.eq_not_lt _ _ _ Ey Hx) in Hy. discriminate.
Qed.

(** [binarysort] puts the pivot after the elements of the same key. *)
Lemma place_filter (sorted : list A) (pivot : A) :
  ascending sorted -> numbers sorted ->
  filter same (Exact.place key sorted pivot) =
  filter same (sorted ++ [pivot]).
Proof.
  intros Hasc Hnum.
  destruct (place_ascending pivot Hasc Hnum) as [_ Hafter].
  unfold Exact.place.
  set (pos := Exact.bisect key _ _ _ _ _) in *.
  rewrite <- (firstn_skipn pos sorted) at 3.
  rewrite !filter_app. cbn [filter].
  destruct (same pivot) eqn:Ep.
  - rewrite (filter_above _ Ep Hafter). now rewrite app_nil_r.
  - now rewrite !app_nil_r.
Qed.

Lemma binarysort_filter (rest run : list A) :
  ascending run -> numbers run -> numbers rest ->
  filter same (Exact.binarysort key run rest) = filter same (run ++ rest).
Proof.
  unfold Exact.binarysort. revert run.
  induction rest as [|x rest IH]; intros run Hasc Hrun Hrest;
    [now rewrite app_nil_r|].
  simpl. inversion Hrest as [|? ? Hx Hrest']; subst.
  rewrite IH; trivial.
  - change (x :: rest) with ([x] ++ rest)%list.
    rewrite !filter_app, place_filter, filter_app by trivial.
    now rewrite <- app_assoc.
  - now apply place_ascending.
  - apply (numbers_perm (l := x :: run)).
    + symmetry. apply place_perm.
    + now constructor.
Qed.

(** A run that descends strictly holds each key once. *)
Lemma strict_run_filter (run : list A) :
  StronglySorted (fun a b => islt b a = true) run ->
  rev (filter same run) = filter same run.
Proof.
  induction 1 as [|x run Hrun IH Hx]; [reflexivity|].
  cbn [filter]. destruct (same x) eqn:Ex; [|exact IH].
  now rewrite (filter_below _ Ex Hx).
Qed.

Lemma first_run_filter (l : list A) (n : nat) (d : bool) :
  2 <= List.length l ->
  Exact.count_run key l = (n, d) ->
  filter same (if d then rev (firstn n l) else firstn n l) =
  filter same (firstn n l).
Proof.
  intros Hlen Hrun.
  destruct l as [|x0 [|x1 rest]]; simpl in Hlen; try lia.
  destruct (count_run_sorted key x0 x1 rest) as [E Hs].
  cbv zeta in E, Hs. rewrite Hrun in E. injection E as -> ->.
  destruct (islt x1 x0); [|reflexivity].
  rewrite filter_rev. apply strict_run_filter.
  apply (Sorted_StronglySorted_on (P := fun _ => True)); trivial.
  - intros a b c _ Hab Hbc. exact (FloatOrder.lt_trans _ _ _ Hbc Hab).
  - apply Forall_forall. trivial.
Qed.

(** On keys that are numbers the sort is stable: the elements of a given
    key keep their order, with and without [reverse]. *)
Lemma cpython_sort_stable (reverse : bool) (l : list A) :
  numbers l ->
  filter same (Exact.list_sort key reverse l) = filter same l.
Proof.
  intros Hnum. unfold Exact.list_sort.
  set (l0 := if reverse then rev l else l).
  assert (H0 : numbers l0).
  { subst l0. destruct reverse; [|exact Hnum].
    apply (numbers_perm (l := l)); [apply Permutation_rev | exact Hnum]. }
  match goal with
  | |- filter same (if reverse then rev ?s else ?s) = _ =>
      assert (Hs : filter same s = filter same l0)
  end.
  { destruct (List.length l0 <? 2)%nat eqn:Elen; [reflexivity|].
    apply Nat.ltb_ge in Elen.
    destruct (Exact.count_run key l0) as [n d] eqn:Erun.
    assert (H1 := H0). rewrite <- (firstn_skipn n l0) in H1.
    apply numbers_app in H1. destruct H1 as [Hrun Hrest].
    rewrite binarysort_filter; trivial.
    - rewrite filter_app, (@first_run_filter l0 n d Elen Erun), <- filter_app.
      now rewrite firstn_skipn.
    - now apply (first_run_ascending Elen).
    - destruct d; [|exact Hrun].
      apply (numbers_perm (l := firstn n l0));
        [apply Permutation_rev | exact Hrun]. }
  subst l0. destruct reverse; [|exact Hs].
  rewrite filter_rev, Hs, filter_rev. apply rev_involutive.
Qed.

End CPythonSortStable.

(** ** The formatter on Python's own numbers *)

Lemma exact_comprehension_in_range (row : list Exact.scalar) (k : nat) :
  k + List.length row <= 6 ->
  Exact.comprehension (combine (seq k (List.length row)) (map Exact.Value row)) =
  rbind (Exact.floats row)
    (fun probs =>
       inr (map (fun entry => {| Exact.class := fst entry;
                                 Exact.probability := snd entry |})
                (combine (skipn k class_labels) probs))).
Proof.
  revert k. induction row as [|s row IH]; intros k Hk.
  - simpl. now rewrite combine_nil.
  - simpl in Hk.
    cbn [List.length seq map combine Exact.comprehension Exact.floats].
    unfold class_labels_getitem.
    destruct (nth_error class_labels k) as [label|] eqn:Hlabel.
    + rewrite (skipn_nth_error _ _ Hlabel). cbn [rbind].
      destruct (Exact.float (Exact.Value s)) as [e|p]; [reflexivity|].
      cbn [rbind]. rewrite IH by lia.
      destruct (Exact.floats row) as [e|ps]; reflexivity.
    + apply nth_error_None in Hlabel. simpl in Hlabel. lia.
Qed.

Lemma exact_comprehension_inv (items : list Exact.ndarray) :
  forall (k : nat) (results : list Exact.prediction),
    Exact.comprehension
      (combine (seq k (List.length items)) (map Exact.tolist items)) =
      inr results ->
    exists row : list Exact.scalar,
      items = map Exact.Item row /\
      (row = [] \/ k + List.length row <= 6).
Proof.
  induction items as [|it items IH]; intros k results H.
  - exists []. split; [reflexivity | now left].
  - cbn [List.length seq map combine Exact.comprehension] in H.
    unfold class_labels_getitem in H.
    destruct (nth_error class_labels k) as [label|] eqn:Hlabel;
      [|discriminate].
    assert (k < 6) as Hk.
    { change 6 with (List.length class_labels).
      apply nth_error_Some. rewrite Hlabel. discriminate. }
    cbn [rbind] in H.
    destruct it as [s|sub]; [|discriminate].
    cbn [Exact.tolist] in H.
    destruct (Exact.float (Exact.Value s)) as [e|p]; [discriminate|].
    cbn [rbind] in H.
    destruct (Exact.comprehension _) as [e|rest] eqn:Hrest; [discriminate|].
    destruct (IH (S k) rest Hrest) as (row & -> & Hlen).
    exists (s :: row). split; [reflexivity|].
    right. destruct Hlen as [->|Hlen]; simpl; lia.
Qed.

Lemma exact_format_predictions_row
    (row : list Exact.scalar) (more_rows : list Exact.ndarray) :
  List.length row <= 6 ->
  Exact.format_predictions
    (Exact.Axis (Exact.Axis (map Exact.Item row) :: more_rows)) =
  rbind (Exact.floats row)
    (fun probs =>
       inr (Exact.list_sort Exact.probability true (Exact.labelled probs))).
Proof.
  intros Hlen. unfold Exact.format_predictions.
  cbn [Exact.getitem_0 rbind Exact.tolist Exact.enumerate].
  rewrite map_map. cbn [Exact.tolist]. rewrite length_map.
  rewrite exact_comprehension_in_range by lia.
  destruct (Exact.floats row); reflexivity.
Qed.

Lemma floats_of_floats (scores : list Exact.pyfloat) :
  Exact.floats (map Exact.PyFloat scores) = inr scores.
Proof.
  induction scores as [|x scores IH]; [reflexivity|].
  cbn [map Exact.floats Exact.float rbind]. now rewrite IH.
Qed.

Lemma exact_format_predictions_in_range
    (scores : list Exact.pyfloat) (more_rows : list Exact.ndarray) :
  List.length scores <= 6 ->
  Exact.format_predictions (Exact.score_array scores more_rows) =
  inr (Exact.list_sort Exact.probability true (Exact.labelled scores)).
Proof.
  intros Hlen. unfold Exact.score_array.
  rewrite <- (map_map Exact.PyFloat Exact.Item).
  rewrite exact_format_predictions_row by now rewrite length_map.
  now rewrite floats_of_floats.
Qed.

Lemma exact_labelled_length (scores : list Exact.pyfloat) :
  List.length scores <= 6 ->
  List.length (Exact.labelled scores) = List.length scores.
Proof.
  intros H. unfold Exact.labelled. rewrite length_map, length_combine.
  apply Nat.min_r. exact H.
Qed.

Lemma exact_labelled_nth (scores : list Exact.pyfloat) (i : nat) :
  List.length scores = 6 -> i < 6 ->
  nth_error (Exact.labelled scores) i =
  Some {| Exact.class := nth i class_labels "";
          Exact.probability := nth i scores Exact.NaN |}.
Proof.
  intros Hlen Hi. unfold Exact.labelled.
  rewrite nth_error_map.
  assert (nth_error (combine class_labels scores) i =
          Some (nth i class_labels "", nth i scores Exact.NaN)) as ->;
    [|reflexivity].
  rewrite <- (combine_nth class_labels scores i "" Exact.NaN)
    by (simpl; lia).
  apply nth_error_nth'. rewrite length_combine, Hlen. exact Hi.
Qed.

Lemma exact_labelled_numbers (scores : list Exact.pyfloat) :
  Exact.no_nan scores ->
  Exact.numbers Exact.probability (Exact.labelled scores).
Proof.
  intros Hn. unfold Exact.numbers, Exact.labelled.
  apply Forall_forall. intros r Hr.
  apply in_map_iff in Hr. destruct Hr as ([label x] & <- & Hin).
  apply in_combine_r in Hin. cbn.
  unfold Exact.no_nan in Hn. rewrite Forall_forall in Hn. now apply Hn.
Qed.

(** With [reverse=True] and scores that are numbers the result is in
    descending order. *)
Lemma exact_sort_descending (results : list Exact.prediction) :
  Exact.numbers Exact.probability results ->
  Exact.descending (Exact.list_sort Exact.probability true results).
Proof.
  intros Hnum. unfold Exact.descending.
  pose proof (cpython_sort_perm Exact.probability true results) as Hperm.
  assert (Hnum' : Exact.numbers Exact.probability
                    (Exact.list_sort Exact.probability true results)).
  { apply (numbers_perm (l := results)); [now symmetry | exact Hnum]. }
  unfold Exact.numbers in Hnum'. rewrite Forall_forall in Hnum'.
  apply (StronglySorted_weaken
           (R := fun a b => Exact.islt Exact.probability a b = false)).
  { exact (@cpython_sort_sorted _ Exact.probability true results Hnum). }
  intros a b Ha Hb. apply FloatOrder.ge_not_lt; now apply Hnum'.
Qed.

(** A list of two entries or more in descending order holds no
    not-a-number. *)
Lemma descending_numbers (results : list Exact.prediction) :
  2 <= List.length results ->
  Exact.descending results ->
  Exact.numbers Exact.probability results.
Proof.
  intros Hlen Hd. destruct results as [|a [|b rest]]; simpl in Hlen; try lia.
  apply StronglySorted_inv in Hd. destruct Hd as [_ Ha].
  assert (Hrest : Exact.numbers Exact.probability (b :: rest)).
  { apply Forall_forall. intros r Hr.
    rewrite Forall_forall in Ha. specialize (Ha r Hr).
    destruct (Exact.probability r); try reflexivity.
    now rewrite FloatOrder.ge_nan_r in Ha. }
  constructor; [|exact Hrest].
  apply Forall_inv in Ha.
  destruct (Exact.probability a); try reflexivity.
  now rewrite FloatOrder.ge_nan_l in Ha.
Qed.

Lemma map_snd_combine (X Y : Type) (l1 : list X) (l2 : list Y) :
  map snd (combine l1 l2) = firstn (List.length l1) l2.
Proof.
  revert l2. induction l1 as [|a l1 IH]; intros [|b l2]; simpl;
    try reflexivity.
  now rewrite IH.
Qed.

Lemma exact_labelled_probabilities (scores : list Exact.pyfloat) :
  List.length scores <= 6 ->
  map Exact.probability (Exact.labelled scores) = scores.
Proof.
  intros Hlen. unfold Exact.labelled. rewrite map_map.
  cbn [Exact.probability]. rewrite map_snd_combine.
  apply firstn_all2. exact Hlen.
Qed.

(** A row with a not-a-number in it: the result is in the order
    [list.sort] leaves it in, which is not descending; the score 0.5
    stays ahead of the score 0.7. *)
Lemma format_predictions_nan_row :
  List.length nan_row = 6 /\
  Exact.format_predictions (Exact.score_array nan_row []) =
    inr nan_row_sorted /\
  ~ Exact.descending nan_row_sorted /\
  (exists a b c rest,
     nan_row_sorted = a :: b :: c :: rest /\
     Exact.float_lt (Exact.probability a) (Exact.probability c) = true).
Proof.
  split; [reflexivity|]. split; [vm_compute; reflexivity|]. split.
  - unfold nan_row_sorted. intros Hd.
    apply StronglySorted_inv in Hd. destruct Hd as [_ Hhd].
    apply Forall_inv in Hhd. discriminate Hhd.
  - unfold nan_row_sorted. do 4 eexists. split; reflexivity.
Qed.

(** An integer score beyond 2^53 is not kept by [float]. *)
Example float_of_int_rounds :
  Exact.float (Exact.Value (Exact.PyInt (2 ^ 53 + 1))) =
  inr (Exact.Finite (inject_Z (2 ^ 53))).
Proof. vm_compute. reflexivity. Qed.

(** C1, amended: a first batch row of six floats gives exactly six
    entries; the entry of index [i] before sorting pairs the label of
    index [i] with the score of index [i], unchanged; the result holds
    these six entries and no other; and it is in descending order of
    probability exactly when no score is a not-a-number. *)
Theorem format_predictions_six_floats
    (scores : list Exact.pyfloat) (more_rows : list Exact.ndarray) :
  List.length scores = 6 ->
  exists results : list Exact.prediction,
    Exact.format_predictions (Exact.score_array scores more_rows) =
      inr results /\
    List.length results = 6 /\
    Permutation results (Exact.labelled scores) /\
    (forall i, i < 6 ->
       nth_error (Exact.labelled scores) i =
         Some {| Exact.class := nth i class_labels "";
                 Exact.probability := nth i scores Exact.NaN |} /\
       In {| Exact.class := nth i class_labels "";
             Exact.probability := nth i scores Exact.NaN |} results) /\
    (Exact.descending results <-> Exact.no_nan scores).
Proof.
  intros Hlen.
  exists (Exact.list_sort Exact.probability true (Exact.labelled scores)).
  pose proof (cpython_sort_perm Exact.probability true
                (Exact.labelled scores)) as Hperm.
  assert (List.length
            (Exact.list_sort Exact.probability true (Exact.labelled scores)) =
          6) as Hsix
    by (rewrite (Permutation_length Hperm), exact_labelled_length; lia).
  split; [apply exact_format_predictions_in_range; lia|].
  split; [exact Hsix|].
  split; [exact Hperm|].
  split.
  - intros i Hi. pose proof (exact_labelled_nth scores Hlen Hi) as Hnth.
    split; [exact Hnth|].
    apply (Permutation_in _ (Permutation_sym Hperm)).
    eapply nth_error_In. exact Hnth.
  - split.
    + intros Hd. apply descending_numbers in Hd; [|lia].
      apply (numbers_perm Hperm) in Hd.
      unfold Exact.no_nan.
      rewrite <- (exact_labelled_probabilities scores) by lia.
      apply Forall_map. exact Hd.
    + intros Hn. apply exact_sort_descending.
      now apply exact_labelled_numbers.
Qed.

(** ** The image decoder *)

(** Every byte divided by 255 in binary32 lies between 0 and 1; checked on
    each of the 256 bytes. *)
Lemma normalised_byte_in_unit_interval (b : uint8) :
  in_unit_interval (float32_div (float32_of_uint8 b) (float32_of_Z 255)).
Proof. destruct b; vm_compute; split; reflexivity. Qed.

Lemma divide_255_shape (x : tensor3) (h w c : nat) :
  List.length x = h ->
  Forall (fun row => List.length row = w /\
                     Forall (fun channels => List.length channels = c) row) x ->
  List.length (divide_255 x) = h /\
  Forall (fun row => List.length row = w /\
                     Forall (fun channels => List.length channels = c) row)
         (divide_255 x).
Proof.
  intros Hh Hrows. unfold divide_255. split; [now rewrite length_map|].
  apply Forall_map. eapply Forall_impl; [|exact Hrows].
  intros row [Hw Hch]. split; [now rewrite length_map|].
  apply Forall_map. eapply Forall_impl; [|exact Hch].
  intros channels Hc. now rewrite length_map.
Qed.

Lemma np_array_float32_shape (img : rgb_image) :
  List.length (np_array_float32 img) = snd (size img) /\
  Forall (fun row => List.length row = fst (size img) /\
                     Forall (fun channels => List.length channels = 3) row)
         (np_array_float32 img).
Proof.
  unfold np_array_float32. split; [now rewrite length_map, length_seq|].
  apply Forall_map, Forall_forall. intros y _.
  split; [now rewrite length_map, length_seq|].
  apply Forall_map, Forall_forall. intros x _.
  destruct (getpixel img x y) as [[r g] b]. reflexivity.
Qed.

Lemma divide_255_range (img : rgb_image) :
  Forall (Forall (Forall in_unit_interval))
         (divide_255 (np_array_float32 img)).
Proof.
  unfold divide_255, np_array_float32.
  apply Forall_map, Forall_map, Forall_forall. intros y _.
  apply Forall_map, Forall_map, Forall_forall. intros x _.
  destruct (getpixel img x y) as [[r g] b].
  apply Forall_map.
  repeat constructor; apply normalised_byte_in_unit_interval.
Qed.

Section DecoderFacts.
Context {L : Libraries}.

Lemma decode_image_string (s : string) :
  decode_image (JStr s) =
  rbind (Base64.b64decode (Re.sub_bol Re.data_uri s)) (fun img_bytes =>
  rbind (Image_open img_bytes) (fun opened =>
  rbind (convert_RGB opened) (fun rgb =>
    inr (expand_dims_0
           (divide_255 (np_array_float32 (resize (224, 224) rgb))))))).
Proof. reflexivity. Qed.

(** C2: when the field holds base64 text of an image the library can
    open, with or without a data-URI prefix in front, the decoder returns
    a tensor of shape (1, 224, 224, 3) whose values all lie in [0, 1]. *)
Theorem decode_image_tensor
    (s : string) (img_bytes : list Z) (opened : pil_image)
    (rgb : rgb_image) :
  Base64.b64decode (Re.sub_bol Re.data_uri s) = inr img_bytes ->
  Image_open img_bytes = inr opened ->
  convert_RGB opened = inr rgb ->
  exists x : tensor,
    decode_image (JStr s) = inr x /\
    has_shape 1 224 224 3 x /\
    all_values in_unit_interval x.
Proof.
  intros Hb Ho Hc.
  exists (expand_dims_0
            (divide_255 (np_array_float32 (resize (224, 224) rgb)))).
  split.
  - rewrite decode_image_string, Hb. cbn [rbind].
    rewrite Ho. cbn [rbind]. rewrite Hc. reflexivity.
  - split.
    + split; [reflexivity|]. constructor; [|constructor].
      apply (divide_255_shape (h := 224) (w := 224) (c := 3));
        apply (np_array_float32_shape (resize (224, 224) rgb)).
    + constructor; [|constructor]. apply divide_255_range.
Qed.

End DecoderFacts.

(** ** The data-URI prefix *)

Module ReFacts.
Import Re.

Lemma append_assoc (a b c : string) : (a ++ b) ++ c = a ++ (b ++ c).
Proof. induction a as [|x a IH]; simpl; [reflexivity | now rewrite IH]. Qed.

Lemma length_append (a b : string) :
  String.length (a ++ b) = String.length a + String.length b.
Proof. induction a as [|x a IH]; simpl; [reflexivity | now rewrite IH]. Qed.

Lemma all_dot_append (a b : string) :
  all_dot (a ++ b) = all_dot a && all_dot b.
Proof.
  induction a as [|x a IH]; simpl; [reflexivity|].
  now rewrite IH, andb_assoc.
Qed.

(** One step of the greedy [.+]. *)
Lemma match_plus_step (p : list item) (c : ascii) (s : string) :
  match_here (AnyPlus :: p) (String c s) =
  if dot c then
    match match_here (AnyPlus :: p) s with
    | Some r => Some r
    | None => match_here p s
    end
  else None.
Proof. reflexivity. Qed.

Lemma match_plus_empty (p : list item) :
  match_here (AnyPlus :: p) "" = None.
Proof. reflexivity. Qed.

(** Literal patterns match exactly their text. *)
Lemma match_literal_append (a : string) (p : list item) (s : string) :
  match_here (literal a ++ p)%list (a ++ s) = match_here p s.
Proof.
  induction a as [|c a IH]; simpl; [reflexivity|].
  now rewrite Ascii.eqb_refl.
Qed.

Lemma match_literal_sound (a : string) (p : list item) (s r : string) :
  match_here (literal a ++ p)%list s = Some r ->
  exists t, s = a ++ t /\ match_here p t = Some r.
Proof.
  revert s. induction a as [|c a IH]; intros s H.
  - exists s. split; [reflexivity | exact H].
  - destruct s as [|c' s]; [discriminate|]. cbn in H.
    destruct (Ascii.eqb_spec c c') as [<-|]; [|discriminate].
    apply IH in H as (t & -> & Ht). exists t. now split.
Qed.

Lemma literal_nil_r (a : string) : (literal a ++ [])%list = literal a.
Proof. apply app_nil_r. Qed.

(** A text without [;] holds no occurrence of [;base64,]: the pattern
    does not match inside it. *)
Lemma match_plus_no_semicolon (a : string) (s : string) :
  occurs ";" s = false ->
  match_here (AnyPlus :: literal (String ";" a)) s = None.
Proof.
  induction s as [|c s IH]; intros H; [reflexivity|].
  rewrite match_plus_step. cbn in H. apply orb_false_iff in H as [_ H].
  rewrite (IH H). destruct (dot c); [|reflexivity].
  destruct s as [|c' s]; [reflexivity|].
  cbn in H |- *. apply orb_false_iff in H as [-> _]. reflexivity.
Qed.

Lemma match_data_uri_no_semicolon (s : string) :
  occurs ";" s = false -> match_here data_uri s = None.
Proof.
  intros H. destruct (match_here data_uri s) as [r|] eqn:E; [|reflexivity].
  exfalso. unfold data_uri in E.
  apply match_literal_sound in E as (t & -> & Ht).
  assert (occurs ";" t = false) as Hno by exact H.
  cbn [app] in Ht. rewrite (match_plus_no_semicolon _ _ Hno) in Ht.
  discriminate.
Qed.

(** After a non-empty image type without newline, [.+] stops at the
    last [;base64,], which is the one of the prefix when the payload has
    no [;]. *)
Lemma match_plus_type (ty payload_text : string) :
  ty <> "" -> all_dot ty = true -> occurs ";" payload_text = false ->
  match_here (AnyPlus :: literal ";base64,")
             (ty ++ ";base64," ++ payload_text) = Some payload_text.
Proof.
  intros Hne Hdot Hno.
  assert (match_here (AnyPlus :: literal ";base64,")
                     (";base64," ++ payload_text) = None) as Hdeep.
  { change (";base64," ++ payload_text)
      with (String ";" ("base64," ++ payload_text)).
    rewrite match_plus_step.
    rewrite match_plus_no_semicolon by exact Hno. reflexivity. }
  induction ty as [|c ty IH]; [congruence|].
  cbn in Hdot. apply andb_true_iff in Hdot as [Hc Hdot].
  change (String c ty ++ ";base64," ++ payload_text)
    with (String c (ty ++ ";base64," ++ payload_text)).
  rewrite match_plus_step, Hc.
  destruct ty as [|c' ty].
  - change ("" ++ ";base64," ++ payload_text)
      with (";base64," ++ payload_text).
    rewrite Hdeep.
    rewrite <- (literal_nil_r ";base64,").
    apply (match_literal_append ";base64," [] payload_text).
  - rewrite IH; [reflexivity | discriminate | exact Hdot].
Qed.

Lemma sub_bol_prefixed (ty payload_text : string) :
  ty <> "" -> all_dot ty = true -> occurs ";" payload_text = false ->
  sub_bol data_uri ("data:image/" ++ ty ++ ";base64," ++ payload_text) =
  payload_text.
Proof.
  intros Hne Hdot Hno. unfold sub_bol, data_uri.
  rewrite match_literal_append. cbn [app].
  now rewrite match_plus_type.
Qed.

Lemma sub_bol_bare (payload_text : string) :
  occurs ";" payload_text = false ->
  sub_bol data_uri payload_text = payload_text.
Proof.
  intros Hno. unfold sub_bol. now rewrite match_data_uri_no_semicolon.
Qed.

(** What a match of [.+;base64,] consumed. *)
Lemma match_plus_sound (a t r : string) :
  match_here (AnyPlus :: literal a) t = Some r ->
  exists u, u <> "" /\ all_dot u = true /\ t = u ++ a ++ r.
Proof.
  revert r. induction t as [|c t IH]; intros r H; [discriminate|].
  rewrite match_plus_step in H.
  destruct (dot c) eqn:Hc; [|discriminate].
  destruct (match_here (AnyPlus :: literal a) t) as [r'|] eqn:E.
  - injection H as ->. destruct (IH r eq_refl) as (u & Hne & Hdot & ->).
    exists (String c u). split; [discriminate|]. split; [|reflexivity].
    cbn. now rewrite Hc, Hdot.
  - rewrite <- (literal_nil_r a) in H.
    apply match_literal_sound in H as (t' & -> & Ht').
    injection Ht' as ->.
    exists (String c ""). split; [discriminate|]. split; [|reflexivity].
    cbn. now rewrite Hc.
Qed.

(** Greediness: when the text can be split at an occurrence of the
    literal, the match leaves at most what follows that occurrence. *)
Lemma match_plus_greedy (a u r : string) :
  u <> "" -> all_dot u = true ->
  exists r', match_here (AnyPlus :: literal a) (u ++ a ++ r) = Some r' /\
             String.length r' <= String.length r.
Proof.
  induction u as [|c u IH]; intros Hne Hdot; [congruence|].
  cbn in Hdot. apply andb_true_iff in Hdot as [Hc Hdot].
  change (String c u ++ a ++ r) with (String c (u ++ a ++ r)).
  rewrite match_plus_step, Hc.
  destruct u as [|c' u].
  - change ("" ++ a ++ r) with (a ++ r).
    destruct (match_here (AnyPlus :: literal a) (a ++ r)) as [r'|] eqn:E.
    + exists r'. split; [reflexivity|].
      apply match_plus_sound in E as (u & _ & _ & E).
      apply (f_equal String.length) in E.
      rewrite !length_append in E. lia.
    + exists r. split; [|lia].
      rewrite <- (literal_nil_r a).
      apply (match_literal_append a [] r).
  - destruct IH as (r' & -> & Hlen); [discriminate | exact Hdot |].
    exists r'. now split.
Qed.

(** Stripping is idempotent on every string: what is left after the
    greedy match cannot start with another prefix. *)
Lemma sub_bol_idempotent (s : string) :
  sub_bol data_uri (sub_bol data_uri s) = sub_bol data_uri s.
Proof.
  unfold sub_bol at 2 3.
  destruct (match_here data_uri s) as [r|] eqn:E.
  - unfold sub_bol.
    destruct (match_here data_uri r) as [r2|] eqn:E2; [exfalso|reflexivity].
    unfold data_uri in E, E2.
    apply match_literal_sound in E as (t & -> & Ht).
    apply match_literal_sound in E2 as (t2 & -> & Ht2).
    cbn [app] in Ht, Ht2.
    pose proof Ht as Hsound.
    apply match_plus_sound in Hsound as (u & Hu & Hudot & ->).
    apply match_plus_sound in Ht2 as (u2 & Hu2 & Hu2dot & ->).
    destruct (@match_plus_greedy ";base64,"
                (u ++ ";base64," ++ "data:image/" ++ u2) r2)
      as (r' & Hr' & Hlen).
    + destruct u; [congruence | discriminate].
    + rewrite !all_dot_append, Hudot, Hu2dot. reflexivity.
    + rewrite !append_assoc in Hr'. rewrite Hr' in Ht.
      injection Ht as ->.
      cbn [String.length] in Hlen. rewrite length_append in Hlen.
      cbn [String.length] in Hlen. lia.
  - unfold sub_bol. now rewrite E.
Qed.

End ReFacts.

Lemma payload_no_semicolon (s : string) :
  Base64.payload s = true -> Re.occurs ";" s = false.
Proof.
  induction s as [|c s IH]; intros H; [reflexivity|].
  cbn [Base64.payload Re.occurs] in H |- *.
  apply andb_true_iff in H as [Hc Hs].
  rewrite (IH Hs), orb_false_r.
  destruct (Ascii.eqb_spec ";" c) as [<-|]; [|reflexivity].
  discriminate Hc.
Qed.

Section PrefixFacts.
Context {L : Libraries}.

(** C3: for a base64 payload [X], the field ["data:image/png;base64," ++ X]
    and the field [X] decode to the same result; the substitution removes
    exactly the prefix, leaves the bare payload alone, and applying it
    again changes nothing. *)
Theorem decode_image_prefix (X : string) :
  Base64.payload X = true ->
  decode_image (JStr ("data:image/png;base64," ++ X)) = decode_image (JStr X) /\
  Re.sub_bol Re.data_uri ("data:image/png;base64," ++ X) = X /\
  Re.sub_bol Re.data_uri X = X /\
  (forall s : string,
     Re.sub_bol Re.data_uri (Re.sub_bol Re.data_uri s) =
     Re.sub_bol Re.data_uri s).
Proof.
  intros HX. apply payload_no_semicolon in HX.
  assert (Re.sub_bol Re.data_uri ("data:image/png;base64," ++ X) = X) as Hp.
  { apply (@ReFacts.sub_bol_prefixed "png" X);
      [discriminate | reflexivity | exact HX]. }
  assert (Re.sub_bol Re.data_uri X = X) as Hb
    by (apply ReFacts.sub_bol_bare; exact HX).
  split; [|split; [exact Hp | split; [exact Hb | apply ReFacts.sub_bol_idempotent]]].
  rewrite !decode_image_string, Hp, Hb. reflexivity.
Qed.

End PrefixFacts.

(** ** Base64 decoding *)

Module Base64Facts.
Import Base64.

Lemma alphabet_value (c : ascii) :
  alphabet c = true -> exists v, table_a2b_base64 c = Some v.
Proof.
  unfold alphabet. destruct (table_a2b_base64 c) as [v|]; [|discriminate].
  intros _. now exists v.
Qed.

Lemma alphabet_not_pad (c : ascii) :
  alphabet c = true -> Ascii.eqb c BASE64_PAD = false.
Proof.
  intros H. destruct (Ascii.eqb_spec c BASE64_PAD) as [->|]; [|reflexivity].
  discriminate H.
Qed.

Lemma alphabet_is_ascii (c : ascii) : alphabet c = true -> is_ascii c = true.
Proof.
  destruct c as [[] [] [] [] [] [] [] []]; intros H;
    first [reflexivity | discriminate H].
Qed.

Lemma loop_alphabet (c : ascii) (s : string) (st : state) :
  alphabet c = true ->
  exists v, loop (String c s) st = loop s (push st v).
Proof.
  intros H. destruct (@alphabet_value c H) as [v Hv]. exists v.
  cbn [loop]. now rewrite (@alphabet_not_pad c H), Hv.
Qed.

Lemma loop_pad (s : string) (st : state) :
  loop (String BASE64_PAD s) st =
  if (2 <=? quad_pos st)%nat then
    if (4 <=? quad_pos st + S (pads st))%nat then Done (bin_data st)
    else loop s {| quad_pos := quad_pos st; leftchar := leftchar st;
                   pads := S (pads st); bin_data := bin_data st |}
  else loop s st.
Proof. reflexivity. Qed.

Lemma push_quad_pos (st : state) (v : Z) :
  quad_pos (push st v) =
  match quad_pos st with 0 => 1 | 1 => 2 | 2 => 3 | _ => 0 end.
Proof. unfold push. destruct (quad_pos st) as [|[|[|?]]]; reflexivity. Qed.

Lemma push_pads (st : state) (v : Z) : pads (push st v) = 0.
Proof. unfold push. destruct (quad_pos st) as [|[|[|?]]]; reflexivity. Qed.

Lemma loop_valid (n : nat) :
  forall (s : string) (st : state),
    String.length s <= n -> quad_pos st = 0 ->
    valid_base64 s = true -> complete (loop s st).
Proof.
  induction n as [|n IH]; intros s st Hlen Hq Hvalid.
  - destruct s; [exact Hq | simpl in Hlen; lia].
  - destruct s as [|a [|b [|c [|d rest]]]]; try discriminate; [exact Hq|].
    cbn [valid_base64] in Hvalid.
    apply andb_true_iff in Hvalid as [Hab Htail].
    apply andb_true_iff in Hab as [Ha Hb].
    destruct (@loop_alphabet a (String b (String c (String d rest))) st Ha)
      as [va ->].
    destruct (@loop_alphabet b (String c (String d rest)) (push st va) Hb)
      as [vb ->].
    assert (quad_pos (push (push st va) vb) = 2) as Hq2
      by now rewrite !push_quad_pos, Hq.
    assert (pads (push (push st va) vb) = 0) as Hp2 by apply push_pads.
    revert Hq2 Hp2. generalize (push (push st va) vb). intros st2 Hq2 Hp2.
    apply orb_true_iff in Htail as [Hfull | Hpadded].
    + apply andb_true_iff in Hfull as [Hcd Hrest].
      apply andb_true_iff in Hcd as [Hc Hd].
      destruct (@loop_alphabet c (String d rest) st2 Hc) as [vc ->].
      destruct (@loop_alphabet d rest (push st2 vc) Hd) as [vd ->].
      apply IH; [simpl in Hlen; lia | | exact Hrest].
      now rewrite !push_quad_pos, Hq2.
    + apply andb_true_iff in Hpadded as [Hend Hc].
      apply andb_true_iff in Hend as [Hrest Hd].
      apply Ascii.eqb_eq in Hd. subst d.
      apply orb_true_iff in Hc as [Hc | Hc].
      * destruct (@loop_alphabet c (String BASE64_PAD rest) st2 Hc) as [vc ->].
        rewrite loop_pad, push_quad_pos, Hq2, push_pads. exact I.
      * apply Ascii.eqb_eq in Hc. subst c.
        rewrite loop_pad, Hq2, Hp2. cbn [Nat.leb Nat.add].
        rewrite loop_pad. exact I.
Qed.

Lemma valid_base64_all_ascii (n : nat) :
  forall s : string,
    String.length s <= n -> valid_base64 s = true -> all_ascii s = true.
Proof.
  induction n as [|n IH]; intros s Hlen Hvalid.
  - destruct s; [reflexivity | simpl in Hlen; lia].
  - destruct s as [|a [|b [|c [|d rest]]]]; try discriminate; [reflexivity|].
    cbn [valid_base64] in Hvalid.
    apply andb_true_iff in Hvalid as [Hab Htail].
    apply andb_true_iff in Hab as [Ha Hb].
    cbn [all_ascii].
    rewrite (@alphabet_is_ascii a Ha), (@alphabet_is_ascii b Hb).
    apply orb_true_iff in Htail as [Hfull | Hpadded].
    + apply andb_true_iff in Hfull as [Hcd Hrest].
      apply andb_true_iff in Hcd as [Hc Hd].
      rewrite (@alphabet_is_ascii c Hc), (@alphabet_is_ascii d Hd).
      apply IH; [simpl in Hlen; lia | exact Hrest].
    + apply andb_true_iff in Hpadded as [Hend Hc].
      apply andb_true_iff in Hend as [Hrest Hd].
      apply Ascii.eqb_eq in Hd. apply String.eqb_eq in Hrest. subst d rest.
      apply orb_true_iff in Hc as [Hc | Hc].
      * now rewrite (@alphabet_is_ascii c Hc).
      * apply Ascii.eqb_eq in Hc. now subst c.
Qed.

(** Well-formed base64 text always decodes. *)
Lemma b64decode_valid (s : string) :
  valid_base64 s = true -> exists bin, b64decode s = inr bin.
Proof.
  intros Hvalid. unfold b64decode, a2b_base64.
  rewrite (@valid_base64_all_ascii _ s (le_n _) Hvalid).
  pose proof (@loop_valid _ s init (le_n _) eq_refl Hvalid) as Hloop.
  destruct (loop s init) as [bin|st]; [now exists bin|].
  simpl in Hloop. rewrite Hloop. now exists (bin_data st).
Qed.

(** A failed decoding tells that the text was not well-formed. *)
Lemma b64decode_error_invalid (s : string) (e : exn) :
  b64decode s = inl e -> valid_base64 s = false.
Proof.
  intros He. destruct (valid_base64 s) eqn:Hvalid; [|reflexivity].
  destruct (@b64decode_valid s Hvalid) as [bin Hbin]. congruence.
Qed.

End Base64Facts.

Section DecodeErrors.
Context {L : Libraries}.

(** C7, as the code has it: when the decode step fails on the stripped
    string, that string is not well-formed base64, the decoder stops
    with that exception, and the response is the 500 failure carrying
    its message; no inference call is logged. *)
Theorem predict_decode_error
    (fields : list (string * json)) (s : string) (e : exn)
    (log : call_log) :
  dict_lookup "image_data" fields = Some (JStr s) ->
  s <> "" ->
  Base64.b64decode (Re.sub_bol Re.data_uri s) = inl e ->
  Base64.valid_base64 (Re.sub_bol Re.data_uri s) = false /\
  decode_image (JStr s) = inl e /\
  predict (mkRequest (inr (JObj fields))) log =
  (inr {| body := error_body (str e); status := 500 |}, log).
Proof.
  intros Hfield Hne He.
  assert (decode_image (JStr s) = inl e) as Hdecode
    by (rewrite decode_image_string, He; reflexivity).
  split; [exact (Base64Facts.b64decode_error_invalid _ He)|].
  split; [exact Hdecode|].
  rewrite predict_field, Hfield. cbv zeta.
  assert (truthy (JStr s) = true) as ->.
  { cbn. destruct (String.eqb_spec s ""); [contradiction | reflexivity]. }
  now rewrite Hdecode.
Qed.

End DecodeErrors.

(** C7 as stated fails: the wrapped text is not well-formed base64, the
    substitution leaves it alone, and the decode step returns the bytes of
    "hello" instead of failing. *)
Lemma wrapped_base64_decodes :
  Re.sub_bol Re.data_uri wrapped_hello = wrapped_hello /\
  Base64.valid_base64 (Re.sub_bol Re.data_uri wrapped_hello) = false /\
  Base64.b64decode (Re.sub_bol Re.data_uri wrapped_hello) =
    inr [104; 101; 108; 108; 111]%Z /\
  ~ (exists e, Base64.b64decode (Re.sub_bol Re.data_uri wrapped_hello) = inl e).
Proof.
  repeat split; try reflexivity.
  intros [e He]. vm_compute in He. discriminate He.
Qed.

(** ** The response as a function of the request *)

Lemma append_cancel_l (s a b : string) : s ++ a = s ++ b -> a = b.
Proof.
  induction s as [|c s IH]; simpl; intros H; [exact H|].
  injection H as H. now apply IH.
Qed.

Lemma append_char_cancel_r (c : ascii) (a b : string) :
  a ++ String c "" = b ++ String c "" -> a = b.
Proof.
  revert b. induction a as [|x a IH]; intros [|y b]; simpl; intros H; trivial.
  - injection H as _ H. destruct b; discriminate.
  - injection H as _ H. destruct a; discriminate.
  - injection H as -> H. f_equal. now apply IH.
Qed.

(** The text of a [BytesIO] object tells its address. *)
Lemma bytes_io_repr_inj (fp1 fp2 : bytes_io) :
  bytes_io_repr fp1 = bytes_io_repr fp2 -> address fp1 = address fp2.
Proof.
  unfold bytes_io_repr. intros H.
  apply append_cancel_l in H. apply append_char_cancel_r in H.
  assert (Hn : forall n, N.to_hex_uint n <> Hexadecimal.Nil).
  { intros [|p]; [discriminate|].
    apply HexadecimalPos.Unsigned.to_uint_nonnil. }
  apply (f_equal HexadecimalString.NilZero.uint_of_string) in H.
  rewrite !HexadecimalString.NilZero.usu in H by apply Hn.
  injection H as H. now apply HexadecimalN.Unsigned.to_uint_inj.
Qed.

Section ProcessFacts.
Context {P : Process}.

(** The decoder of two requests on the same field: the same outcome,
    unless the image library accepts no plugin for the bytes and raises
    with the text of each request's [BytesIO] object. *)
Lemma decode_image_two_addresses (a1 a2 : N) (v : json) :
  @decode_image (libraries_at a1) v = @decode_image (libraries_at a2) v \/
  exists (s : string) (img_bytes : list Z),
    v = JStr s /\
    Base64.b64decode (Re.sub_bol Re.data_uri s) = inr img_bytes /\
    identify img_bytes = inr None /\
    @decode_image (libraries_at a1) v =
      inl (UnidentifiedImageError
             ("cannot identify image file " ++
              bytes_io_repr (mkBytesIO img_bytes a1))) /\
    @decode_image (libraries_at a2) v =
      inl (UnidentifiedImageError
             ("cannot identify image file " ++
              bytes_io_repr (mkBytesIO img_bytes a2))).
Proof.
  destruct v as [ | b | n | q | s | items | fields ];
    try (left; reflexivity).
  rewrite !decode_image_string.
  destruct (Base64.b64decode (Re.sub_bol Re.data_uri s)) as [e|img_bytes]
    eqn:Hb; [left; reflexivity|].
  cbn [rbind Image_open libraries_at]. unfold Image_open_fp.
  cbn [getvalue address].
  destruct (identify img_bytes) as [e|[im|]] eqn:Hi;
    [left; reflexivity | left; reflexivity |].
  right. exists s, img_bytes. repeat split; trivial.
Qed.

Lemma after_inference_at (a1 a2 : N) (x : tensor) :
  @after_inference (libraries_at a1) x = @after_inference (libraries_at a2) x.
Proof. reflexivity. Qed.

(** C10, amended: two requests whose JSON bodies agree on the field
    [image_data] get responses of the same status and leave the same log
    of inference calls, whatever their other fields. The responses are
    identical, except when the image library finds no format for the
    decoded bytes: then each is the 500 failure whose message prints the
    request's own [BytesIO] object, and the two differ exactly when the
    addresses of the objects do. *)
Theorem predict_at_same_image_data
    (a1 a2 : N) (fields1 fields2 : list (string * json)) (log : call_log) :
  dict_lookup "image_data" fields1 = dict_lookup "image_data" fields2 ->
  exists (r1 r2 : response) (log' : call_log),
    predict_at a1 (mkRequest (inr (JObj fields1))) log = (inr r1, log') /\
    predict_at a2 (mkRequest (inr (JObj fields2))) log = (inr r2, log') /\
    status r1 = status r2 /\
    (a1 = a2 -> r1 = r2) /\
    (r1 = r2 \/
     exists (s : string) (img_bytes : list Z),
       dict_lookup "image_data" fields1 = Some (JStr s) /\
       Base64.b64decode (Re.sub_bol Re.data_uri s) = inr img_bytes /\
       identify img_bytes = inr None /\
       log' = log /\
       r1 = failure (UnidentifiedImageError
                       ("cannot identify image file " ++
                        bytes_io_repr (mkBytesIO img_bytes a1))) /\
       r2 = failure (UnidentifiedImageError
                       ("cannot identify image file " ++
                        bytes_io_repr (mkBytesIO img_bytes a2))) /\
       (r1 = r2 -> a1 = a2)).
Proof.
  intros H. unfold predict_at.
  rewrite (@predict_field (libraries_at a1)),
          (@predict_field (libraries_at a2)), H.
  cbv zeta.
  destruct (dict_lookup "image_data" fields2) as [v|].
  2: { do 3 eexists. split; [reflexivity|]. split; [reflexivity|].
       split; [reflexivity|]. split; [reflexivity | now left]. }
  destruct (truthy v).
  2: { do 3 eexists. split; [reflexivity|]. split; [reflexivity|].
       split; [reflexivity|]. split; [reflexivity | now left]. }
  destruct (decode_image_two_addresses a1 a2 v)
    as [Heq | (s & img_bytes & -> & Hb & Hi & H1 & H2)].
  - rewrite Heq.
    destruct (@decode_image (libraries_at a2) v) as [e|x].
    + do 3 eexists. split; [reflexivity|]. split; [reflexivity|].
      split; [reflexivity|]. split; [reflexivity | now left].
    + rewrite (after_inference_at a1 a2 x).
      do 3 eexists. split; [reflexivity|]. split; [reflexivity|].
      split; [reflexivity|]. split; [reflexivity | now left].
  - rewrite H1, H2.
    do 3 eexists. split; [reflexivity|]. split; [reflexivity|].
    split; [reflexivity|]. split; [now intros ->|].
    right. exists s, img_bytes.
    split; [reflexivity|]. split; [exact Hb|]. split; [exact Hi|].
    split; [reflexivity|]. split; [reflexivity|]. split; [reflexivity|].
    intros Heq.
    apply (f_equal (fun r => match body r with
                             | JObj ((_, JStr msg) :: _) => msg
                             | _ => ""
                             end)) in Heq.
    change ("cannot identify image file " ++
              bytes_io_repr (mkBytesIO img_bytes a1) =
            "cannot identify image file " ++
              bytes_io_repr (mkBytesIO img_bytes a2)) in Heq.
    apply append_cancel_l in Heq.
    exact (@bytes_io_repr_inj _ _ Heq).
Qed.

End ProcessFacts.

(** The address in the message: two requests with the same [image_data]
    whose bytes are no image, served by the same process, get different
    response bodies. *)
Lemma predict_at_address_in_message :
  dict_lookup "image_data" stub_fields =
    dict_lookup "image_data" stub_fields_named /\
  @predict_at (stub_process (inr PyNone)) address_1
    (mkRequest (inr (JObj stub_fields))) [] =
  (inr {| body := error_body
            "cannot identify image file <_io.BytesIO object at 0x7f23f6674450>";
          status := 500 |}, []) /\
  @predict_at (stub_process (inr PyNone)) address_2
    (mkRequest (inr (JObj stub_fields_named))) [] =
  (inr {| body := error_body
            "cannot identify image file <_io.BytesIO object at 0x7f23f66744a0>";
          status := 500 |}, []) /\
  @predict_at (stub_process (inr PyNone)) address_1
    (mkRequest (inr (JObj stub_fields))) [] <>
  @predict_at (stub_process (inr PyNone)) address_2
    (mkRequest (inr (JObj stub_fields_named))) [].
Proof.
  assert (H1 : @predict_at (stub_process (inr PyNone)) address_1
                 (mkRequest (inr (JObj stub_fields))) [] =
    (inr {| body := error_body
              "cannot identify image file <_io.BytesIO object at 0x7f23f6674450>";
            status := 500 |}, [])) by (vm_compute; reflexivity).
  assert (H2 : @predict_at (stub_process (inr PyNone)) address_2
                 (mkRequest (inr (JObj stub_fields_named))) [] =
    (inr {| body := error_body
              "cannot identify image file <_io.BytesIO object at 0x7f23f66744a0>";
            status := 500 |}, [])) by (vm_compute; reflexivity).
  split; [reflexivity|]. split; [exact H1|]. split; [exact H2|].
  rewrite H1, H2. discriminate.
Qed.

(** ** The statements at concrete inputs *)

Lemma format_predictions_six_floats_witness :
  exists results : list Exact.prediction,
    Exact.format_predictions
      (Exact.score_array
         [Exact.Finite 0.5; Exact.Finite 0.5; Exact.Finite 0.1;
          Exact.PosInf; Exact.Finite 0.1; Exact.NegInf] []) =
      inr results /\
    List.length results = 6 /\
    Permutation results
      (Exact.labelled
         [Exact.Finite 0.5; Exact.Finite 0.5; Exact.Finite 0.1;
          Exact.PosInf; Exact.Finite 0.1; Exact.NegInf]) /\
    (forall i, i < 6 ->
       nth_error
         (Exact.labelled
            [Exact.Finite 0.5; Exact.Finite 0.5; Exact.Finite 0.1;
             Exact.PosInf; Exact.Finite 0.1; Exact.NegInf]) i =
         Some {| Exact.class := nth i class_labels "";
                 Exact.probability :=
                   nth i [Exact.Finite 0.5; Exact.Finite 0.5; Exact.Finite 0.1;
                          Exact.PosInf; Exact.Finite 0.1; Exact.NegInf]
                       Exact.NaN |} /\
       In {| Exact.class := nth i class_labels "";
             Exact.probability :=
               nth i [Exact.Finite 0.5; Exact.Finite 0.5; Exact.Finite 0.1;
                      Exact.PosInf; Exact.Finite 0.1; Exact.NegInf]
                   Exact.NaN |}
          results) /\
    (Exact.descending results <->
     Exact.no_nan
       [Exact.Finite 0.5; Exact.Finite 0.5; Exact.Finite 0.1;
        Exact.PosInf; Exact.Finite 0.1; Exact.NegInf]).
Proof.
  apply (@format_predictions_six_floats
           [Exact.Finite 0.5; Exact.Finite 0.5; Exact.Finite 0.1;
            Exact.PosInf; Exact.Finite 0.1; Exact.NegInf] []).
  reflexivity.
Defined.

Lemma format_predictions_stable_witness :
  exists results : list prediction,
    format_predictions (score_array [0.5; 0.5; 0.1; 0.1; 0.1; 0.1]%Q []) =
      inr results /\
    forall p : Q,
      with_probability p results =
      with_probability p (labelled [0.5; 0.5; 0.1; 0.1; 0.1; 0.1]%Q).
Proof.
  apply (@format_predictions_stable [0.5; 0.5; 0.1; 0.1; 0.1; 0.1]%Q []).
  simpl. lia.
Defined.

Lemma decode_image_tensor_witness :
  exists x : tensor,
    @decode_image (stub_libraries (inr PyNone))
      (JStr "data:image/png;base64,QUJD") = inr x /\
    has_shape 1 224 224 3 x /\
    all_values in_unit_interval x.
Proof.
  apply (@decode_image_tensor (stub_libraries (inr PyNone))
           "data:image/png;base64,QUJD" [65; 66; 67]%Z [65; 66; 67]%Z
           (solid_image (Byte.xff, Byte.x80, Byte.x00)));
    reflexivity.
Defined.

Lemma decode_image_prefix_witness :
  @decode_image (stub_libraries (inr PyNone))
    (JStr ("data:image/png;base64," ++ "QUJD")) =
  @decode_image (stub_libraries (inr PyNone)) (JStr "QUJD") /\
  Re.sub_bol Re.data_uri ("data:image/png;base64," ++ "QUJD") = "QUJD" /\
  Re.sub_bol Re.data_uri "QUJD" = "QUJD" /\
  (forall s : string,
     Re.sub_bol Re.data_uri (Re.sub_bol Re.data_uri s) =
     Re.sub_bol Re.data_uri s).
Proof.
  apply (@decode_image_prefix (stub_libraries (inr PyNone)) "QUJD").
  reflexivity.
Defined.

Lemma predict_bare_array_fails_witness :
  @predict (stub_libraries (inr (NdArray (score_array [0.9; 0.1]%Q []))))
    (mkRequest (inr (JObj stub_fields))) [] =
  (inr {| body := error_body "'numpy.ndarray' object has no attribute 'keys'";
          status := 500 |},
   [stub_tensor]).
Proof.
  apply (@predict_bare_array_fails
           (stub_libraries (inr (NdArray (score_array [0.9; 0.1]%Q []))))
           stub_fields (JStr "QUJD") stub_tensor
           (score_array [0.9; 0.1]%Q []) []);
    reflexivity.
Defined.

Lemma predict_missing_image_data_witness :
  @predict (stub_libraries (inr PyNone))
    (mkRequest (inr (JObj [("image", JStr "QUJD")]))) [] =
    (inr {| body := error_body "Missing image_data"; status := 500 |}, []) /\
  contains "image_data" "Missing image_data" = true.
Proof.
  apply (@predict_missing_image_data (stub_libraries (inr PyNone))
           [("image", JStr "QUJD")] []).
  left. reflexivity.
Defined.

Lemma predict_decode_error_witness :
  Base64.valid_base64 (Re.sub_bol Re.data_uri "QUJDR") = false /\
  @decode_image (stub_libraries (inr PyNone)) (JStr "QUJDR") =
    inl (binascii_Error
      "Invalid base64-encoded string: number of data characters (5) cannot be 1 more than a multiple of 4") /\
  @predict (stub_libraries (inr PyNone))
    (mkRequest (inr (JObj [("image_data", JStr "QUJDR")]))) [] =
  (inr {| body := error_body
      "Invalid base64-encoded string: number of data characters (5) cannot be 1 more than a multiple of 4";
          status := 500 |}, []).
Proof.
  apply (@predict_decode_error (stub_libraries (inr PyNone))
           [("image_data", JStr "QUJDR")] "QUJDR"
           (binascii_Error
      "Invalid base64-encoded string: number of data characters (5) cannot be 1 more than a multiple of 4")
           []).
  - reflexivity.
  - discriminate.
  - reflexivity.
Defined.

Lemma predict_length_mismatch_witness :
  @predict (stub_libraries (inr (scores_output [0.1; 0.1; 0.1; 0.1; 0.1; 0.1; 0.4]%Q)))
    (mkRequest (inr (JObj stub_fields))) [] =
  (inr {| body := error_body "list index out of range"; status := 500 |},
   [stub_tensor]) /\
  exists results : list prediction,
    @predict (stub_libraries (inr (scores_output [0.2; 0.8]%Q)))
      (mkRequest (inr (JObj stub_fields))) [] =
    (inr {| body := predictions_body results; status := 200 |},
     [stub_tensor]) /\
    List.length results = 2 /\
    List.length results < 6 /\
    Permutation results (labelled [0.2; 0.8]%Q).
Proof.
  split.
  - apply (@predict_length_mismatch
             (stub_libraries
                (inr (scores_output [0.1; 0.1; 0.1; 0.1; 0.1; 0.1; 0.4]%Q)))
             stub_fields (JStr "QUJD") stub_tensor
             [("output_0",
               NdArray (score_array [0.1; 0.1; 0.1; 0.1; 0.1; 0.1; 0.4]%Q []))]
             [0.1; 0.1; 0.1; 0.1; 0.1; 0.1; 0.4]%Q [] []);
      try reflexivity.
    simpl. lia.
  - apply (@predict_length_mismatch
             (stub_libraries (inr (scores_output [0.2; 0.8]%Q)))
             stub_fields (JStr "QUJD") stub_tensor
             [("output_0", NdArray (score_array [0.2; 0.8]%Q []))]
             [0.2; 0.8]%Q [] []);
      try reflexivity.
    simpl. lia.
Defined.

Lemma predict_at_same_image_data_witness :
  exists (r1 r2 : response) (log' : call_log),
    @predict_at (stub_process (inr (scores_output [0.2; 0.8]%Q))) address_1
      (mkRequest (inr (JObj stub_fields))) [] = (inr r1, log') /\
    @predict_at (stub_process (inr (scores_output [0.2; 0.8]%Q))) address_2
      (mkRequest (inr (JObj stub_fields_named))) [] = (inr r2, log') /\
    status r1 = status r2 /\
    (address_1 = address_2 -> r1 = r2) /\
    (r1 = r2 \/
     exists (s : string) (img_bytes : list Z),
       dict_lookup "image_data" stub_fields = Some (JStr s) /\
       Base64.b64decode (Re.sub_bol Re.data_uri s) = inr img_bytes /\
       @identify (stub_process (inr (scores_output [0.2; 0.8]%Q))) img_bytes =
         inr None /\
       log' = [] /\
       r1 = failure (UnidentifiedImageError
                       ("cannot identify image file " ++
                        bytes_io_repr (mkBytesIO img_bytes address_1))) /\
       r2 = failure (UnidentifiedImageError
                       ("cannot identify image file " ++
                        bytes_io_repr (mkBytesIO img_bytes address_2))) /\
       (r1 = r2 -> address_1 = address_2)).
Proof.
  apply (@predict_at_same_image_data
           (stub_process (inr (scores_output [0.2; 0.8]%Q)))
           address_1 address_2 stub_fields stub_fields_named []).
  reflexivity.
Defined.

Lemma predict_two_outcomes_witness :
  exists (r : response) (log' : call_log),
    @predict (stub_libraries (inr PyNone))
      (mkRequest (inl (Exception "BadRequest" "400 Bad Request"))) [] =
      (inr r, log') /\
    r = {| body := error_body "400 Bad Request"; status := 500 |} /\
    log' = [].
Proof.
  destruct (@predict_two_outcomes (stub_libraries (inr PyNone))
              (mkRequest (inl (Exception "BadRequest" "400 Bad Request"))) [])
    as (r & log' & Hrun & _ & Hcaught).
  exists r, log'. split; [exact Hrun|].
  apply (Hcaught (Exception "BadRequest" "400 Bad Request") []).
  reflexivity.
Defined.

(** * Further properties of the handler *)

(** ** What reaches the model *)

Section InferenceFacts.
Context {L : Libraries}.

Lemma decode_image_inv (v : json) (x : tensor) :
  decode_image v = inr x ->
  exists (s : string) (img_bytes : list Z) (opened : pil_image)
         (rgb : rgb_image),
    v = JStr s /\
    Base64.b64decode (Re.sub_bol Re.data_uri s) = inr img_bytes /\
    Image_open img_bytes = inr opened /\
    convert_RGB opened = inr rgb /\
    x = expand_dims_0 (divide_255 (np_array_float32 (resize (224, 224) rgb))).
Proof.
  intros H. destruct v as [ | b | n | q | s | items | fields ];
    try discriminate H.
  rewrite decode_image_string in H.
  destruct (Base64.b64decode _) as [e|img_bytes] eqn:Hb; [discriminate|].
  cbn [rbind] in H.
  destruct (Image_open img_bytes) as [e|opened] eqn:Ho; [discriminate|].
  cbn [rbind] in H.
  destruct (convert_RGB opened) as [e|rgb] eqn:Hc; [discriminate|].
  cbn [rbind] in H.
  exists s, img_bytes, opened, rgb.
  split; [reflexivity|]. split; [exact Hb|]. split; [exact Ho|].
  split; [exact Hc | congruence].
Qed.

Lemma resized_tensor_ok (rgb : rgb_image) :
  model_input_ok
    (expand_dims_0 (divide_255 (np_array_float32 (resize (224, 224) rgb)))).
Proof.
  split.
  - split; [reflexivity|]. constructor; [|constructor].
    apply (divide_255_shape (h := 224) (w := 224) (c := 3));
      apply (np_array_float32_shape (resize (224, 224) rgb)).
  - constructor; [|constructor]. apply divide_255_range.
Qed.

Lemma decode_image_ok (v : json) (x : tensor) :
  decode_image v = inr x -> model_input_ok x.
Proof.
  intros H. apply decode_image_inv in H as (s & b & o & rgb & _ & _ & _ & _ & ->).
  apply resized_tensor_ok.
Qed.

(** The log after a request, for every kind of request. *)
Lemma predict_log (req : request) (log : call_log) :
  snd (predict req log) =
  match get_json req with
  | inr (JObj fields) =>
      match dict_lookup "image_data" fields with
      | Some v =>
          if truthy v then
            match decode_image v with
            | inr x => (log ++ [x])%list
            | inl _ => log
            end
          else log
      | None => log
      end
  | _ => log
  end.
Proof.
  destruct req as [[e|data]]; [reflexivity|].
  destruct data as [ | b | n | q | s | items | fields ]; try reflexivity.
  rewrite predict_field. cbv zeta. cbn [get_json].
  destruct (dict_lookup "image_data" fields) as [v|]; [|reflexivity].
  destruct (truthy v); [|reflexivity].
  destruct (decode_image v); reflexivity.
Qed.

(** X1: any falsy value in the field [image_data] (null, false, 0, 0.0,
    the empty string, list or object) is reported as a missing field, with
    no inference call. *)
Theorem predict_falsy_field
    (fields : list (string * json)) (v : json) (log : call_log) :
  dict_lookup "image_data" fields = Some v ->
  truthy v = false ->
  predict (mkRequest (inr (JObj fields))) log =
  (inr {| body := error_body "Missing image_data"; status := 500 |}, log).
Proof.
  intros Hv Ht. rewrite predict_field, Hv. cbv zeta. now rewrite Ht.
Qed.

(** X2: a truthy value that is not a string makes [re.sub] raise; the
    response is the 500 failure naming the type, with no inference call. *)
Theorem predict_non_string_field
    (fields : list (string * json)) (v : json) (log : call_log) :
  dict_lookup "image_data" fields = Some v ->
  truthy v = true ->
  (forall s, v <> JStr s) ->
  predict (mkRequest (inr (JObj fields))) log =
  (inr {| body := error_body ("expected string or bytes-like object, got '"
                              ++ json_type_name v ++ "'");
          status := 500 |}, log).
Proof.
  intros Hv Ht Hs. rewrite predict_field, Hv. cbv zeta. rewrite Ht.
  destruct v as [ | b | n | q | s | items | fields' ]; try reflexivity.
  exfalso. now apply (Hs s).
Qed.

(** X3: a request whose JSON cannot be read, or whose JSON value is not
    an object, gets the 500 failure of that exception (the framework's, or
    the [AttributeError] of [data.get]), with no inference call. *)
Theorem predict_unreadable_body (req : request) (log : call_log) :
  (forall fields, get_json req <> inr (JObj fields)) ->
  predict req log =
  (inr {| body := error_body
            match get_json req with
            | inl e => str e
            | inr data =>
                "'" ++ json_type_name data ++ "' object has no attribute 'get'"
            end;
          status := 500 |}, log).
Proof.
  intros Hbody. destruct req as [[e|data]]; [reflexivity|].
  destruct data as [ | b | n | q | s | items | fields ]; try reflexivity.
  exfalso. now apply (Hbody fields).
Qed.

(** X4: a request adds at most one inference call to the log and leaves
    the earlier entries alone; a call is added exactly when the body is an
    object whose field is truthy and decodes, and its argument is the
    decoded tensor. *)
Theorem predict_at_most_one_call (req : request) (log : call_log) :
  (snd (predict req log) = log /\
   forall fields v x,
     get_json req = inr (JObj fields) ->
     dict_lookup "image_data" fields = Some v ->
     truthy v = true -> decode_image v <> inr x) \/
  (exists fields v x,
     get_json req = inr (JObj fields) /\
     dict_lookup "image_data" fields = Some v /\
     truthy v = true /\
     decode_image v = inr x /\
     snd (predict req log) = (log ++ [x])%list).
Proof.
  rewrite predict_log.
  destruct (get_json req) as [e|data] eqn:Hjson;
    [left; split; [reflexivity | intros; discriminate]|].
  destruct data as [ | b | n | q | s | items | fields ];
    try (left; split; [reflexivity | intros; discriminate]).
  destruct (dict_lookup "image_data" fields) as [v|] eqn:Hv.
  - destruct (truthy v) eqn:Ht.
    + destruct (decode_image v) as [e|x] eqn:Hx.
      * left. split; [reflexivity|].
        intros fields' v' x' Hf Hv' _ Hx'. injection Hf as <-.
        rewrite Hv in Hv'. injection Hv' as <-. congruence.
      * right. exists fields, v, x. now repeat split.
    + left. split; [reflexivity|].
      intros fields' v' x' Hf Hv' Ht' _. injection Hf as <-.
      rewrite Hv in Hv'. injection Hv' as <-. congruence.
  - left. split; [reflexivity|].
    intros fields' v' x' Hf Hv' _ _. injection Hf as <-. congruence.
Qed.

(** X5: the model is only ever called on a tensor of shape
    (1, 224, 224, 3) with values in [0, 1]: if every logged call has that
    form before a request, every logged call has it afterwards. *)
Theorem predict_model_input_ok (req : request) (log : call_log) :
  Forall model_input_ok log ->
  Forall model_input_ok (snd (predict req log)).
Proof.
  intros Hlog. rewrite predict_log.
  destruct (get_json req) as [e|data]; [exact Hlog|].
  destruct data as [ | b | n | q | s | items | fields ]; try exact Hlog.
  destruct (dict_lookup "image_data" fields) as [v|]; [|exact Hlog].
  destruct (truthy v); [|exact Hlog].
  destruct (decode_image v) as [e|x] eqn:Hx; [exact Hlog|].
  apply Forall_app. split; [exact Hlog|].
  constructor; [|constructor]. exact (decode_image_ok _ Hx).
Qed.

(** X6: an exception of the inference call becomes the 500 failure
    carrying its message; the call stays in the log. *)
Theorem predict_model_raises
    (fields : list (string * json)) (v : json) (x : tensor) (e : exn)
    (log : call_log) :
  dict_lookup "image_data" fields = Some v ->
  truthy v = true ->
  decode_image v = inr x ->
  model_predict x = inl e ->
  predict (mkRequest (inr (JObj fields))) log =
  (inr {| body := error_body (str e); status := 500 |}, (log ++ [x])%list).
Proof.
  intros Hv Ht Hx Hm. rewrite (predict_decoded _ _ Hv Ht Hx).
  unfold after_inference. now rewrite Hm.
Qed.

(** X7: a dict whose [output_0] is neither [None] nor a numpy array gives
    the 500 response "Invalid prediction output". *)
Theorem predict_invalid_output
    (fields : list (string * json)) (v : json) (x : tensor)
    (items : list (string * pyval)) (out : pyval) (log : call_log) :
  dict_lookup "image_data" fields = Some v ->
  truthy v = true ->
  decode_image v = inr x ->
  model_predict x = inr (PyDict items) ->
  dict_lookup "output_0" items = Some out ->
  out <> PyNone ->
  (forall a, out <> NdArray a) ->
  predict (mkRequest (inr (JObj fields))) log =
  (inr {| body := error_body "Invalid prediction output"; status := 500 |},
   (log ++ [x])%list).
Proof.
  intros Hv Ht Hx Hm Hk Hnone Harr. rewrite (predict_decoded _ _ Hv Ht Hx).
  unfold after_inference. rewrite Hm. cbn [keys postprocess]. rewrite Hk.
  destruct out as [ | a | items' | name ]; try reflexivity.
  - congruence.
  - exfalso. now apply (Harr a).
Qed.

(** X8: a key [output_0] that is present with the value [None] is
    reported like an absent key. *)
Theorem predict_none_output
    (fields : list (string * json)) (v : json) (x : tensor)
    (items : list (string * pyval)) (log : call_log) :
  dict_lookup "image_data" fields = Some v ->
  truthy v = true ->
  decode_image v = inr x ->
  model_predict x = inr (PyDict items) ->
  dict_lookup "output_0" items = Some PyNone ->
  predict (mkRequest (inr (JObj fields))) log =
  (inr {| body := error_body "Missing 'output_0' in prediction";
          status := 500 |},
   (log ++ [x])%list).
Proof.
  intros Hv Ht Hx Hm Hk. rewrite (predict_decoded _ _ Hv Ht Hx).
  unfold after_inference. rewrite Hm. cbn [keys postprocess].
  now rewrite Hk.
Qed.

End InferenceFacts.

(** ** When the formatter succeeds *)

Lemma comprehension_inv (items : list ndarray) :
  forall (k : nat) (results : list prediction),
    comprehension (combine (seq k (List.length items)) (map tolist items)) =
      inr results ->
    exists scores : list Q,
      items = map Scalar scores /\
      (scores = [] \/ k + List.length scores <= 6).
Proof.
  induction items as [|it items IH]; intros k results H.
  - exists []. split; [reflexivity | now left].
  - cbn [List.length seq map combine comprehension] in H.
    unfold class_labels_getitem in H.
    destruct (nth_error class_labels k) as [label|] eqn:Hlabel;
      [|discriminate].
    assert (k < 6) as Hk.
    { change 6 with (List.length class_labels).
      apply nth_error_Some. rewrite Hlabel. discriminate. }
    cbn [rbind] in H.
    destruct it as [p|sub]; [|discriminate].
    cbn [tolist float rbind] in H.
    destruct (comprehension _) as [e|rest] eqn:Hrest; [discriminate|].
    destruct (IH (S k) rest Hrest) as (scores & -> & Hlen).
    exists (p :: scores). split; [reflexivity|].
    right. destruct Hlen as [->|Hlen]; simpl; lia.
Qed.

Lemma format_predictions_inv (a : ndarray) (results : list prediction) :
  format_predictions a = inr results ->
  exists (scores : list Q) (more_rows : list ndarray),
    a = score_array scores more_rows /\
    List.length scores <= 6 /\
    results = list_sort probability true (labelled scores).
Proof.
  intros H. unfold format_predictions in H.
  destruct a as [p|[|row more_rows]]; try discriminate.
  cbn [getitem_0 rbind] in H.
  destruct row as [p|items]; [discriminate|].
  cbn [tolist enumerate rbind] in H. rewrite length_map in H.
  destruct (comprehension _) as [e|unsorted] eqn:Hc; [discriminate|].
  destruct (comprehension_inv _ _ Hc) as (scores & -> & Hlen).
  assert (List.length scores <= 6) as Hlen'
    by (destruct Hlen as [->|Hlen]; simpl; lia).
  exists scores, more_rows. split; [reflexivity|]. split; [exact Hlen'|].
  cbn [rbind] in H. injection H as <-.
  rewrite length_map, map_map in Hc. cbn [tolist] in Hc.
  rewrite comprehension_in_range in Hc by lia.
  injection Hc as <-. reflexivity.
Qed.

(** X9: the formatter succeeds exactly on the arrays whose first row
    along axis 0 is a row of at most six scalars that [float] converts;
    its result is then the list of the labelled converted scores as
    [list.sort] leaves it. *)
Theorem exact_format_predictions_succeeds_iff
    (a : Exact.ndarray) (results : list Exact.prediction) :
  Exact.format_predictions a = inr results <->
  exists (row : list Exact.scalar) (more_rows : list Exact.ndarray)
         (probs : list Exact.pyfloat),
    a = Exact.Axis (Exact.Axis (map Exact.Item row) :: more_rows) /\
    List.length row <= 6 /\
    Exact.floats row = inr probs /\
    results = Exact.list_sort Exact.probability true (Exact.labelled probs).
Proof.
  split.
  - intros H. unfold Exact.format_predictions in H.
    destruct a as [s|[|first more_rows]]; try discriminate.
    cbn [Exact.getitem_0 rbind] in H.
    destruct first as [s|items]; [discriminate|].
    cbn [Exact.tolist Exact.enumerate rbind] in H. rewrite length_map in H.
    destruct (Exact.comprehension _) as [e|unsorted] eqn:Hc; [discriminate|].
    destruct (exact_comprehension_inv _ _ Hc) as (row & -> & Hlen).
    assert (List.length row <= 6) as Hlen'
      by (destruct Hlen as [->|Hlen]; simpl; lia).
    cbn [rbind] in H.
    rewrite length_map, map_map in Hc. cbn [Exact.tolist] in Hc.
    rewrite exact_comprehension_in_range in Hc by lia.
    destruct (Exact.floats row) as [e|probs] eqn:Hf; [discriminate|].
    cbn [rbind] in Hc. change (skipn 0 class_labels) with class_labels in Hc.
    fold (Exact.labelled probs) in Hc.
    exists row, more_rows, probs.
    split; [reflexivity|]. split; [exact Hlen'|]. split; [exact Hf|].
    congruence.
  - intros (row & more_rows & probs & -> & Hlen & Hf & ->).
    rewrite exact_format_predictions_row by exact Hlen.
    now rewrite Hf.
Qed.


(** ** The first prediction *)

Lemma filter_head_split (X : Type) (f : X -> bool) (l : list X) :
  forall (a : X) (t : list X),
    filter f l = a :: t ->
    exists pre post,
      l = (pre ++ a :: post)%list /\ Forall (fun e => f e = false) pre.
Proof.
  induction l as [|b l IH]; intros a t H; [discriminate|].
  cbn [filter] in H. destruct (f b) eqn:Hb.
  - injection H as -> _. exists [], l. split; [reflexivity | constructor].
  - destruct (IH a t H) as (pre & post & -> & Hpre).
    exists (b :: pre), post. split; [reflexivity | now constructor].
Qed.

Lemma exact_labelled_nonempty (scores : list Exact.pyfloat) :
  scores <> [] -> Exact.labelled scores <> [].
Proof. destruct scores; [congruence | discriminate]. Qed.

(** X10: for a non-empty row of at most six float scores without
    not-a-number the first prediction carries the largest score, and
    among the labels that share this score it is the one of lowest index:
    every entry before it in label order is strictly less probable, every
    entry after it at most as probable. *)
Theorem exact_format_predictions_top
    (scores : list Exact.pyfloat) (more_rows : list Exact.ndarray) :
  scores <> [] ->
  List.length scores <= 6 ->
  Exact.no_nan scores ->
  exists (top : Exact.prediction)
         (rest before after : list Exact.prediction),
    Exact.format_predictions (Exact.score_array scores more_rows) =
      inr (top :: rest) /\
    Exact.labelled scores = (before ++ top :: after)%list /\
    Forall (fun e => Exact.float_lt (Exact.probability e)
                       (Exact.probability top) = true) before /\
    Forall (fun e => Exact.float_ge (Exact.probability top)
                       (Exact.probability e) = true) after.
Proof.
  intros Hne Hlen Hn.
  rewrite (exact_format_predictions_in_range scores more_rows Hlen).
  pose proof (exact_labelled_numbers Hn) as Hnum.
  pose proof (cpython_sort_perm Exact.probability true
                (Exact.labelled scores)) as Hperm.
  pose proof (exact_sort_descending Hnum) as Hdesc.
  pose proof (fun p => @cpython_sort_stable _ Exact.probability p true
                          (Exact.labelled scores) Hnum) as Hstable.
  cbv zeta in Hstable.
  destruct (Exact.list_sort Exact.probability true (Exact.labelled scores))
    as [|top rest].
  - apply Permutation_nil in Hperm.
    now apply exact_labelled_nonempty in Hperm.
  - assert (Htop : Exact.is_nan (Exact.probability top) = false).
    { unfold Exact.numbers in Hnum. rewrite Forall_forall in Hnum.
      apply Hnum. apply (Permutation_in _ Hperm). now left. }
    assert (forall e, In e (Exact.labelled scores) ->
              Exact.float_ge (Exact.probability top)
                (Exact.probability e) = true) as Hmax.
    { intros e He. apply (Permutation_in _ (Permutation_sym Hperm)) in He.
      destruct He as [<-|He].
      - unfold Exact.float_ge. rewrite (FloatEq.eq_refl _ Htop).
        apply orb_true_r.
      - apply StronglySorted_inv in Hdesc as [_ Hrest].
        rewrite Forall_forall in Hrest. now apply Hrest. }
    specialize (Hstable (Exact.probability top)). cbn [filter] in Hstable.
    rewrite (FloatEq.eq_refl _ Htop) in Hstable. symmetry in Hstable.
    apply filter_head_split in Hstable as (before & after & Hsplit & Hbefore).
    exists top, rest, before, after.
    split; [reflexivity|]. split; [exact Hsplit|].
    split; apply Forall_forall; intros e He.
    + rewrite Forall_forall in Hbefore. specialize (Hbefore e He).
      apply FloatEq.ge_lt; [|exact Hbefore].
      apply Hmax. rewrite Hsplit. apply in_or_app. now left.
    + apply Hmax. rewrite Hsplit. apply in_or_app. right. now right.
Qed.

(** ** Ties on Python's own numbers *)

(** X25: on a row of at most six float scores without not-a-number the
    sort of the formatter is stable: the entries of a given score are, in
    the result, in the order of their labels. *)
Theorem exact_format_predictions_stable
    (scores : list Exact.pyfloat) (more_rows : list Exact.ndarray) :
  List.length scores <= 6 ->
  Exact.no_nan scores ->
  exists results : list Exact.prediction,
    Exact.format_predictions (Exact.score_array scores more_rows) =
      inr results /\
    forall p : Exact.pyfloat,
      filter (fun r => Exact.float_eq (Exact.probability r) p) results =
      filter (fun r => Exact.float_eq (Exact.probability r) p)
        (Exact.labelled scores).
Proof.
  intros Hlen Hn.
  exists (Exact.list_sort Exact.probability true (Exact.labelled scores)).
  split; [now apply exact_format_predictions_in_range|].
  intros p.
  exact (@cpython_sort_stable _ Exact.probability p true
           (Exact.labelled scores) (exact_labelled_numbers Hn)).
Qed.

(** An array without batch dimension, by dtype: on a one-dimensional
    array [preds_array[0]] is a scalar, which [tolist] turns into a Python
    bool, int or float, and the comprehension cannot iterate over it; an
    empty array fails on the index. *)
Lemma exact_format_predictions_flat (row : list Exact.scalar) :
  Exact.format_predictions (Exact.Axis (map Exact.Item row)) =
  inl match row with
      | [] => IndexError "index 0 is out of bounds for axis 0 with size 0"
      | s :: _ =>
          TypeError ("'" ++ Exact.type_name s ++ "' object is not iterable")
      end.
Proof. destruct row; reflexivity. Qed.

(** ** The formatter on finite scores, and on Python's own numbers *)

Lemma float_eq_sym (x y : Exact.pyfloat) :
  Exact.float_eq x y = Exact.float_eq y x.
Proof.
  destruct x, y; try reflexivity. cbn.
  destruct (Qeq_bool q q0) eqn:E1, (Qeq_bool q0 q) eqn:E2; trivial.
  - apply Qeq_bool_iff in E1. symmetry in E1.
    apply Qeq_bool_iff in E1. congruence.
  - apply Qeq_bool_iff in E2. symmetry in E2.
    apply Qeq_bool_iff in E2. congruence.
Qed.

(** Two numbers neither of which is below the other are equal. *)
Lemma float_le_antisym (x y : Exact.pyfloat) :
  Exact.is_nan x = false -> Exact.is_nan y = false ->
  Exact.float_lt x y = false -> Exact.float_lt y x = false ->
  Exact.float_eq x y = true.
Proof.
  destruct x, y; try discriminate; try reflexivity.
  intros _ _ H1 H2.
  apply FloatOrder.lt_finite_false in H1.
  apply FloatOrder.lt_finite_false in H2.
  apply FloatEq.eq_finite. now apply Qle_antisym.
Qed.

Lemma float_lt_eq_compat (x y z : Exact.pyfloat) :
  Exact.float_eq y z = true -> Exact.float_lt x y = Exact.float_lt x z.
Proof.
  destruct x, y, z; try discriminate; try reflexivity.
  intros H. apply FloatEq.eq_finite in H. cbn.
  now rewrite H.
Qed.

Section StableSortedUnique.
Variable A : Type.
Variable key : A -> Exact.pyfloat.

Let same (p : Exact.pyfloat) (a : A) : bool := Exact.float_eq (key a) p.
Let not_below (a b : A) : Prop := Exact.islt key a b = false.

(** A list of numbers is determined by its elements of each key, in
    their order, once no element is below a later one. *)
Lemma stable_sorted_unique (l1 l2 : list A) :
  Exact.numbers key l1 -> Exact.numbers key l2 ->
  StronglySorted not_below l1 -> StronglySorted not_below l2 ->
  (forall p, filter (same p) l1 = filter (same p) l2) ->
  l1 = l2.
Proof.
  revert l2. induction l1 as [|a l1 IH]; intros l2 Hn1 Hn2 Hs1 Hs2 Hf.
  - destruct l2 as [|b l2]; [reflexivity|].
    assert (Ebb : same (key b) b = true)
      by (apply FloatEq.eq_refl; now inversion Hn2).
    specialize (Hf (key b)). cbn [filter] in Hf.
    rewrite Ebb in Hf. discriminate.
  - inversion Hn1 as [|? ? Ha Hn1']; subst.
    inversion Hs1 as [|? ? Hs1' Ha1]; subst.
    assert (Eaa : same (key a) a = true) by now apply FloatEq.eq_refl.
    assert (Hhead := Hf (key a)). cbn [filter] in Hhead.
    rewrite Eaa in Hhead. symmetry in Hhead.
    apply filter_head_split in Hhead as (pre & post & -> & Hpre).
    destruct pre as [|b pre].
    + cbn [app] in *. f_equal.
      inversion Hn2; subst. inversion Hs2; subst.
      apply IH; trivial.
      intros p. specialize (Hf p). cbn [filter] in Hf.
      destruct (same p a); [now injection Hf | exact Hf].
    + exfalso. cbn [app] in *.
      inversion Hpre as [|? ? Hba _]; subst.
      inversion Hn2 as [|? ? Hb _]; subst.
      inversion Hs2 as [|? ? _ Hb2]; subst.
      assert (Hnb : not_below b a).
      { rewrite Forall_forall in Hb2. apply Hb2.
        apply in_or_app. right. now left. }
      assert (Ebb : same (key b) b = true) by now apply FloatEq.eq_refl.
      assert (Hin : In b (filter (same (key b)) (a :: l1))).
      { rewrite (Hf (key b)). cbn [filter]. rewrite Ebb. now left. }
      apply filter_In in Hin. destruct Hin as [[<-|Hin] Hc].
      * congruence.
      * assert (Hab : not_below a b).
        { rewrite Forall_forall in Ha1. now apply Ha1. }
        unfold same in Hba.
        rewrite (@float_le_antisym (key b) (key a) Hb Ha Hnb Hab) in Hba.
        discriminate.
Qed.

End StableSortedUnique.

Lemma StronglySorted_map (A B : Type) (f : A -> B)
    (R : A -> A -> Prop) (R' : B -> B -> Prop) (l : list A) :
  (forall a b, R a b -> R' (f a) (f b)) ->
  StronglySorted R l -> StronglySorted R' (map f l).
Proof.
  intros Hf. induction 1 as [|x l Hl IH Hx]; simpl; constructor; trivial.
  apply Forall_map. eapply Forall_impl; [|exact Hx]. intros b. apply Hf.
Qed.

Lemma exact_prediction_numbers (l : list prediction) :
  Exact.numbers Exact.probability (map exact_prediction l).
Proof.
  unfold Exact.numbers. apply Forall_map. apply Forall_forall. reflexivity.
Qed.

(** On finite scores CPython's sort returns what the stable sort
    returns. *)
Lemma cpython_sort_finite (l : list prediction) :
  Exact.list_sort Exact.probability true (map exact_prediction l) =
  map exact_prediction (list_sort probability true l).
Proof.
  pose proof (exact_prediction_numbers l) as Hnum.
  apply (@stable_sorted_unique _ Exact.probability).
  - apply (numbers_perm (l := map exact_prediction l)); [|exact Hnum].
    symmetry. apply cpython_sort_perm.
  - apply exact_prediction_numbers.
  - exact (@cpython_sort_sorted _ Exact.probability true _ Hnum).
  - apply StronglySorted_map
      with (R := fun a b => (probability b <= probability a)%Q).
    + intros a b Hab. unfold Exact.islt. cbn [exact_prediction Exact.probability].
      now apply FloatOrder.lt_finite_false.
    + apply list_sort_reverse_sorted.
  - intros p.
    rewrite (@cpython_sort_stable _ Exact.probability p true _ Hnum).
    rewrite !filter_map_swap. f_equal.
    destruct p as [ | | q | ];
      cbn [exact_prediction Exact.probability Exact.float_eq];
      try (now rewrite !filter_false).
    symmetry. apply (list_sort_stable probability true q).
Qed.

Lemma comprehension_exact (items : list ndarray) (k : nat) :
  Exact.comprehension
    (combine (seq k (List.length items))
       (map Exact.tolist (map exact_array items))) =
  match comprehension (combine (seq k (List.length items)) (map tolist items)) with
  | inl e => inl e
  | inr results => inr (map exact_prediction results)
  end.
Proof.
  revert k. induction items as [|it items IH]; intros k; [reflexivity|].
  cbn [List.length seq map combine comprehension Exact.comprehension].
  destruct (class_labels_getitem k) as [e|label]; [reflexivity|].
  cbn [rbind]. destruct it as [x|sub]; [|reflexivity].
  cbn [exact_array Exact.tolist tolist Exact.float float rbind].
  rewrite IH.
  destruct (comprehension _) as [e|rest]; reflexivity.
Qed.

(** X26: on an array of finite float scores, lines 85-94 with CPython's
    sort give what they give with a stable descending sort: the same
    entries in the same order, or the same exception. *)
Theorem format_predictions_exact (a : ndarray) :
  Exact.format_predictions (exact_array a) =
  match format_predictions a with
  | inl e => inl e
  | inr results => inr (map exact_prediction results)
  end.
Proof.
  destruct a as [x|[|row more_rows]]; try reflexivity.
  destruct row as [x|items]; [reflexivity|].
  unfold format_predictions, Exact.format_predictions.
  cbn [exact_array map Exact.getitem_0 getitem_0 rbind Exact.tolist tolist
       Exact.enumerate enumerate].
  rewrite !length_map.
  rewrite comprehension_exact.
  destruct (comprehension _) as [e|results]; [reflexivity|].
  cbn [rbind]. now rewrite cpython_sort_finite.
Qed.

(** ** Successful responses *)

Lemma class_labels_NoDup : NoDup class_labels.
Proof.
  unfold class_labels.
  repeat (constructor; [simpl; intuition discriminate|]).
  constructor.
Qed.

Lemma map_fst_combine (X Y : Type) (l1 : list X) (l2 : list Y) :
  map fst (combine l1 l2) = firstn (List.length l2) l1.
Proof.
  revert l2. induction l1 as [|a l1 IH]; intros [|b l2]; simpl;
    try reflexivity.
  now rewrite IH.
Qed.

Lemma labelled_classes (scores : list Q) :
  map class (labelled scores) = firstn (List.length scores) class_labels.
Proof.
  unfold labelled. rewrite map_map. cbn [class].
  apply map_fst_combine.
Qed.

Lemma firstn_incl (X : Type) (n : nat) (l : list X) : incl (firstn n l) l.
Proof.
  intros a Ha. rewrite <- (firstn_skipn n l). apply in_or_app. now left.
Qed.

Lemma firstn_NoDup (X : Type) (n : nat) (l : list X) :
  NoDup l -> NoDup (firstn n l).
Proof.
  intros H. rewrite <- (firstn_skipn n l) in H.
  now apply NoDup_app_remove_r in H.
Qed.

Section SuccessFacts.
Context {L : Libraries}.

(** A 200 response tells how the request went through the handler. *)
Lemma after_inference_success (x : tensor) :
  status (after_inference x) = 200%Z ->
  exists items a results,
    model_predict x = inr (PyDict items) /\
    dict_lookup "output_0" items = Some (NdArray a) /\
    format_predictions a = inr results /\
    after_inference x = {| body := predictions_body results; status := 200 |}.
Proof.
  unfold after_inference.
  destruct (model_predict x) as [e|preds]; [discriminate|].
  destruct preds as [ | a | items | name ]; try discriminate.
  cbn [keys postprocess].
  destruct (dict_lookup "output_0" items) as [out|] eqn:Hk; [|discriminate].
  destruct out as [ | a | items' | name ]; try discriminate.
  cbn [respond].
  destruct (format_predictions a) as [e|results] eqn:Hf; [discriminate|].
  intros _. now exists items, a, results.
Qed.

Lemma predict_success_inv (req : request) (log : call_log) :
  status match fst (predict req log) with
         | inr r => r
         | inl e => failure e
         end = 200%Z ->
  exists fields v x,
    get_json req = inr (JObj fields) /\
    dict_lookup "image_data" fields = Some v /\
    truthy v = true /\
    decode_image v = inr x /\
    status (after_inference x) = 200%Z /\
    predict req log = (inr (after_inference x), (log ++ [x])%list).
Proof.
  destruct req as [[e|data]]; [discriminate|].
  destruct data as [ | b | n | q | s | items | fields ]; try discriminate.
  rewrite predict_field. cbv zeta.
  destruct (dict_lookup "image_data" fields) as [v|] eqn:Hv; [|discriminate].
  destruct (truthy v) eqn:Ht; [|discriminate].
  destruct (decode_image v) as [e|x] eqn:Hx; [discriminate|].
  cbn [fst]. intros Hs. now exists fields, v, x.
Qed.

(** X11: what a 200 response guarantees. Its body lists at most six
    predictions with pairwise distinct classes taken from [class_labels],
    and the request made exactly one inference call, on a well-formed
    tensor. *)
Theorem predict_success_guarantee
    (req : request) (log log' : call_log) (r : response) :
  predict req log = (inr r, log') ->
  status r = 200%Z ->
  exists (results : list prediction) (x : tensor),
    r = {| body := predictions_body results; status := 200 |} /\
    List.length results <= 6 /\
    NoDup (map class results) /\
    incl (map class results) class_labels /\
    log' = (log ++ [x])%list /\
    model_input_ok x.
Proof.
  intros Hrun Hs.
  destruct (predict_success_inv req log) as
    (fields & v & x & _ & _ & _ & Hx & Hs' & Hrun').
  { rewrite Hrun. exact Hs. }
  rewrite Hrun in Hrun'. injection Hrun' as -> ->.
  destruct (after_inference_success x Hs')
    as (items & a & results & _ & _ & Hf & ->).
  apply format_predictions_inv in Hf as (scores & more_rows & _ & Hlen & ->).
  pose proof (list_sort_perm probability true (labelled scores)) as Hperm.
  exists (list_sort probability true (labelled scores)), x.
  split; [reflexivity|].
  split; [rewrite (Permutation_length Hperm), labelled_length; lia|].
  assert (Permutation (map class (list_sort probability true (labelled scores)))
            (firstn (List.length scores) class_labels)) as Hclasses.
  { rewrite <- labelled_classes. now apply Permutation_map. }
  split.
  { apply (Permutation_NoDup (Permutation_sym Hclasses)).
    apply firstn_NoDup, class_labels_NoDup. }
  split.
  { intros c Hc. apply (Permutation_in _ Hclasses) in Hc.
    now apply firstn_incl in Hc. }
  split; [reflexivity|].
  exact (decode_image_ok _ Hx).
Qed.

(** X12: the whole path on good input. When the field is a non-empty
    string whose payload decodes to bytes the image library opens, and the
    model answers with a dict holding under [output_0] an array whose first
    row has at most six scores, the response is 200 with one prediction
    for each score, their classes are the first labels of [class_labels],
    each once, and the model was called once on the normalised 224 x 224
    image. *)
Theorem predict_success
    (fields : list (string * json)) (s : string) (img_bytes : list Z)
    (opened : pil_image) (rgb : rgb_image)
    (items : list (string * pyval)) (scores : list Q)
    (more_rows : list ndarray) (log : call_log) :
  let x := expand_dims_0
             (divide_255 (np_array_float32 (resize (224, 224) rgb))) in
  dict_lookup "image_data" fields = Some (JStr s) ->
  s <> "" ->
  Base64.b64decode (Re.sub_bol Re.data_uri s) = inr img_bytes ->
  Image_open img_bytes = inr opened ->
  convert_RGB opened = inr rgb ->
  model_predict x = inr (PyDict items) ->
  dict_lookup "output_0" items = Some (NdArray (score_array scores more_rows)) ->
  List.length scores <= 6 ->
  exists results : list prediction,
    predict (mkRequest (inr (JObj fields))) log =
    (inr {| body := predictions_body results; status := 200 |},
     (log ++ [x])%list) /\
    List.length results = List.length scores /\
    Permutation (map class results)
      (firstn (List.length scores) class_labels).
Proof.
  intros x Hv Hne Hb Ho Hc Hm Hk Hlen.
  assert (truthy (JStr s) = true) as Ht.
  { cbn. destruct (String.eqb_spec s ""); [contradiction | reflexivity]. }
  assert (decode_image (JStr s) = inr x) as Hx.
  { rewrite decode_image_string, Hb. cbn [rbind].
    rewrite Ho. cbn [rbind]. rewrite Hc. reflexivity. }
  pose proof (list_sort_perm probability true (labelled scores)) as Hperm.
  exists (list_sort probability true (labelled scores)).
  split.
  - rewrite (predict_decoded _ _ Hv Ht Hx).
    rewrite (after_inference_output_0 _ Hm Hk).
    now rewrite format_predictions_in_range.
  - split; [rewrite (Permutation_length Hperm); now apply labelled_length|].
    rewrite <- labelled_classes. now apply Permutation_map.
Qed.


End SuccessFacts.

(** * Further properties of the decoder *)

(** ** The prefix substitution *)

(** X14: the substitution only ever removes a complete data-URI prefix
    from the front: the result is what follows it in the input, and the
    removed text is either empty or ["data:image/"], a non-empty image
    type without line break, and [";base64,"]. *)
Theorem sub_bol_removes_prefix_only (s : string) :
  exists removed : string,
    s = removed ++ Re.sub_bol Re.data_uri s /\
    (removed = "" \/
     exists ty : string,
       ty <> "" /\ Re.all_dot ty = true /\
       removed = "data:image/" ++ ty ++ ";base64,").
Proof.
  unfold Re.sub_bol.
  destruct (Re.match_here Re.data_uri s) as [r|] eqn:E.
  - unfold Re.data_uri in E.
    apply ReFacts.match_literal_sound in E as (t & -> & Ht).
    cbn [app] in Ht.
    apply ReFacts.match_plus_sound in Ht as (ty & Hne & Hdot & ->).
    exists ("data:image/" ++ ty ++ ";base64,"). split.
    + now rewrite !ReFacts.append_assoc.
    + right. now exists ty.
  - exists "". split; [reflexivity | now left].
Qed.

(** X15: every image type is handled like [png]: for a non-empty type
    without line break and a payload of base64 characters, the prefixed
    field and the bare payload decode to the same result. *)
Theorem decode_image_any_type {L : Libraries} (ty X : string) :
  ty <> "" -> Re.all_dot ty = true -> Base64.payload X = true ->
  Re.sub_bol Re.data_uri ("data:image/" ++ ty ++ ";base64," ++ X) = X /\
  decode_image (JStr ("data:image/" ++ ty ++ ";base64," ++ X)) =
  decode_image (JStr X).
Proof.
  intros Hne Hdot HX. apply payload_no_semicolon in HX.
  assert (Re.sub_bol Re.data_uri ("data:image/" ++ ty ++ ";base64," ++ X) = X)
    as Hp by now apply ReFacts.sub_bol_prefixed.
  split; [exact Hp|].
  rewrite !decode_image_string, Hp.
  now rewrite (ReFacts.sub_bol_bare X HX).
Qed.

(** X16: [.+] is greedy. When the text after the prefix holds another
    [";base64,"] on the same line, the substitution removes everything up
    to the last one, so the part of the payload before it is lost. *)
Theorem sub_bol_cuts_at_last_marker (ty lost kept : string) :
  ty <> "" -> Re.all_dot ty = true -> Re.all_dot lost = true ->
  Re.occurs ";" kept = false ->
  Re.sub_bol Re.data_uri
    ("data:image/" ++ ty ++ ";base64," ++ lost ++ ";base64," ++ kept) = kept.
Proof.
  intros Hne Hty Hlost Hkept.
  replace ("data:image/" ++ ty ++ ";base64," ++ lost ++ ";base64," ++ kept)
    with ("data:image/" ++ (ty ++ ";base64," ++ lost) ++ ";base64," ++ kept)
    by now rewrite !ReFacts.append_assoc.
  apply ReFacts.sub_bol_prefixed; [ | | exact Hkept].
  - destruct ty; [congruence | discriminate].
  - now rewrite !ReFacts.all_dot_append, Hty, Hlost.
Qed.

(** X17: [.+] needs one character. A prefix with an empty image type,
    before a payload without [;], is not removed: the whole field goes to
    the base64 decoder. *)
Theorem sub_bol_empty_type (X : string) :
  Re.occurs ";" X = false ->
  Re.sub_bol Re.data_uri ("data:image/;base64," ++ X) =
  "data:image/;base64," ++ X.
Proof.
  intros HX. unfold Re.sub_bol, Re.data_uri.
  rewrite (ReFacts.match_literal_append "data:image/" _ (";base64," ++ X)).
  cbn [app].
  change (";base64," ++ X) with (String ";" ("base64," ++ X)).
  rewrite ReFacts.match_plus_step.
  rewrite ReFacts.match_plus_no_semicolon by exact HX.
  reflexivity.
Qed.

(** ** The base64 decoder *)

Module LoopFacts.
Import Base64.

Lemma u8_is_byte (z : Z) : is_byte (u8 z).
Proof.
  unfold is_byte, u8. change 255%Z with (Z.ones 8).
  rewrite Z.land_ones by lia. apply Z.mod_pos_bound. reflexivity.
Qed.

Lemma push_bytes (st : state) (v : Z) :
  Forall is_byte (bin_data st) -> Forall is_byte (bin_data (push st v)).
Proof.
  intros H. unfold push.
  destruct (quad_pos st) as [|[|[|?]]]; cbn [bin_data]; trivial;
    (apply Forall_app; split; [exact H|]);
    repeat constructor; apply u8_is_byte.
Qed.

Lemma loop_bytes (s : string) :
  forall st : state,
    Forall is_byte (bin_data st) ->
    match loop s st with
    | Done bin => Forall is_byte bin
    | EndOfInput st' => Forall is_byte (bin_data st')
    end.
Proof.
  induction s as [|c s IH]; intros st H; [exact H|].
  cbn [loop]. destruct (Ascii.eqb c BASE64_PAD).
  - destruct (2 <=? quad_pos st)%nat; [|now apply IH].
    destruct (4 <=? quad_pos st + S (pads st))%nat; [exact H|].
    now apply IH.
  - destruct (table_a2b_base64 c) as [v|]; [|now apply IH].
    apply IH. now apply push_bytes.
Qed.

(** Characters outside the alphabet do not change the run of the loop. *)
Lemma loop_base64_characters (s : string) :
  forall st : state, loop (base64_characters s) st = loop s st.
Proof.
  induction s as [|c s IH]; intros st; [reflexivity|].
  cbn [base64_characters loop]. unfold alphabet.
  destruct (Ascii.eqb c BASE64_PAD) eqn:Hpad.
  - rewrite orb_true_r. cbn [loop]. rewrite Hpad.
    destruct (2 <=? quad_pos st)%nat; [|apply IH].
    destruct (4 <=? quad_pos st + S (pads st))%nat; [reflexivity | apply IH].
  - rewrite orb_false_r.
    destruct (table_a2b_base64 c) as [v|] eqn:Hv.
    + cbn [loop]. rewrite Hpad, Hv. apply IH.
    + apply IH.
Qed.

Lemma base64_characters_ascii (s : string) :
  all_ascii (base64_characters s) = true.
Proof.
  induction s as [|c s IH]; [reflexivity|].
  cbn [base64_characters].
  destruct (alphabet c) eqn:Ha; cbn [orb].
  - cbn [all_ascii]. now rewrite (Base64Facts.alphabet_is_ascii c Ha).
  - destruct (Ascii.eqb_spec c BASE64_PAD) as [->|]; [|exact IH].
    cbn [all_ascii]. now rewrite IH.
Qed.

Lemma push_length (st : state) (v : Z) (n : nat) :
  4 * List.length (bin_data st) + pending st <= 3 * n ->
  4 * List.length (bin_data (push st v)) + pending (push st v) <= 3 * S n.
Proof.
  unfold pending, push.
  destruct (quad_pos st) as [|[|[|?]]]; cbn [quad_pos bin_data];
    rewrite ?length_app; cbn [List.length]; lia.
Qed.

Lemma loop_length (s : string) :
  forall (st : state) (n : nat),
    4 * List.length (bin_data st) + pending st <= 3 * n ->
    match loop s st with
    | Done bin => 4 * List.length bin <= 3 * (n + String.length s)
    | EndOfInput st' =>
        4 * List.length (bin_data st') <= 3 * (n + String.length s)
    end.
Proof.
  induction s as [|c s IH]; intros st n H.
  - cbn [loop String.length]. lia.
  - cbn [loop String.length].
    replace (n + S (String.length s)) with (S n + String.length s) by lia.
    destruct (Ascii.eqb c BASE64_PAD).
    + destruct (2 <=? quad_pos st)%nat; [|apply IH; lia].
      destruct (4 <=? quad_pos st + S (pads st))%nat; [lia|].
      apply IH. unfold pending in *. cbn [quad_pos bin_data]. lia.
    + destruct (table_a2b_base64 c) as [v|]; [|apply IH; lia].
      apply IH. now apply push_length.
Qed.

End LoopFacts.

(** X18: what the decoder returns is a byte string: every element lies
    in [0, 256). *)
Theorem b64decode_bytes (s : string) (bin : list Z) :
  Base64.b64decode s = inr bin -> Forall is_byte bin.
Proof.
  unfold Base64.b64decode, Base64.a2b_base64.
  destruct (Base64.all_ascii s); [|discriminate].
  pose proof (LoopFacts.loop_bytes s Base64.init (Forall_nil _)) as H.
  destruct (Base64.loop s Base64.init) as [bin'|st].
  - now intros [= <-].
  - destruct (Base64.quad_pos st) as [|[|?]]; try discriminate.
    now intros [= <-].
Qed.

(** X19: the decoder is lenient. In an ASCII text every character that
    is neither in the alphabet nor a pad (blanks, line breaks, punctuation)
    is skipped: the text and its base64 characters alone decode alike,
    to the same bytes or the same error. *)
Theorem b64decode_ignores_other_characters (s : string) :
  Base64.all_ascii s = true ->
  Base64.b64decode (base64_characters s) = Base64.b64decode s.
Proof.
  intros Hs. unfold Base64.b64decode, Base64.a2b_base64.
  now rewrite Hs, LoopFacts.base64_characters_ascii,
    LoopFacts.loop_base64_characters.
Qed.

(** X20: four base64 characters give at most three bytes: the decoded
    data is never longer than three quarters of the number of alphabet
    characters and pads in the text. *)
Theorem b64decode_length (s : string) (bin : list Z) :
  Base64.b64decode s = inr bin ->
  4 * List.length bin <= 3 * String.length (base64_characters s).
Proof.
  unfold Base64.b64decode, Base64.a2b_base64.
  destruct (Base64.all_ascii s); [|discriminate].
  rewrite <- LoopFacts.loop_base64_characters.
  pose proof (LoopFacts.loop_length (base64_characters s) Base64.init 0)
    as H.
  cbn [Nat.add] in H.
  destruct (Base64.loop (base64_characters s) Base64.init) as [bin'|st].
  - intros [= <-]. apply H. cbn. lia.
  - destruct (Base64.quad_pos st) as [|[|?]]; try discriminate.
    intros [= <-]. apply H. cbn. lia.
Qed.

(** ** Normalisation of the pixels *)

(** The quotients of the 256 bytes, each with its byte value, and the
    comparison of any two of them, checked on all pairs. *)
Lemma divide_255_pairs :
  let quotients :=
    map (fun n =>
           (n, match Byte.of_nat n with
               | Some b => float32_div (float32_of_uint8 b) (float32_of_Z 255)
               | None => float32_of_Z 0
               end)) (seq 0 256) in
  forallb (fun p1 =>
    forallb (fun p2 => implb (fst p1 <? fst p2)%nat (SFltb (snd p1) (snd p2)))
            quotients) quotients = true.
Proof. vm_compute. reflexivity. Qed.

(** X21: dividing by 255 in binary32 keeps the order of the pixel
    values strictly, so distinct channel values stay distinct in the
    tensor; 0 becomes exactly 0.0 and 255 exactly 1.0. *)
Theorem divide_255_strictly_monotone (b1 b2 : uint8) :
  (Byte.to_N b1 < Byte.to_N b2)%N ->
  SFltb (float32_div (float32_of_uint8 b1) (float32_of_Z 255))
        (float32_div (float32_of_uint8 b2) (float32_of_Z 255)) = true /\
  float32_div (float32_of_uint8 Byte.x00) (float32_of_Z 255) = float32_of_Z 0 /\
  float32_div (float32_of_uint8 Byte.xff) (float32_of_Z 255) = float32_of_Z 1.
Proof.
  intros Hlt. split; [|split; reflexivity].
  pose proof divide_255_pairs as Hall. cbv zeta in Hall.
  rewrite forallb_forall in Hall.
  assert (forall b : uint8,
            In (Byte.to_nat b,
                float32_div (float32_of_uint8 b) (float32_of_Z 255))
               (map (fun n =>
                  (n, match Byte.of_nat n with
                      | Some b =>
                          float32_div (float32_of_uint8 b) (float32_of_Z 255)
                      | None => float32_of_Z 0
                      end)) (seq 0 256))) as Hin.
  { intros b. apply in_map_iff. exists (Byte.to_nat b).
    rewrite Byte.of_to_nat. split; [reflexivity|].
    apply in_seq. pose proof (Byte.to_nat_bounded b). lia. }
  specialize (Hall _ (Hin b1)).
  rewrite forallb_forall in Hall.
  specialize (Hall _ (Hin b2)). cbn [fst snd] in Hall.
  assert ((Byte.to_nat b1 <? Byte.to_nat b2)%nat = true) as Hlt'.
  { apply Nat.ltb_lt. rewrite !Byte.to_nat_via_N. lia. }
  rewrite Hlt' in Hall. exact Hall.
Qed.

(** * The log records *)

Section LogFacts.
Context {L : Libraries} {F : Formatting}.

Ltac unfold_logged :=
  unfold predict_logged, predict_logged_body, respond_logged, ltry_except,
    lbind, llift, lraise, lret, on_calls, predict_call, logger_info,
    logger_error, logger_exception, emit, json_get;
  unfold predict, predict_body, try_except, bind, lift, raise, ret,
    predict_call, json_get;
  cbn [fst snd get_json].

Ltac next_case :=
  match goal with
  | |- context [dict_lookup ?k ?d] => destruct (dict_lookup k d)
  | |- context [truthy ?v] => destruct (truthy v)
  | |- context [decode_image ?v] => destruct (decode_image v)
  | |- context [model_predict ?x] => destruct (model_predict x)
  | |- context [format_predictions ?a] => destruct (format_predictions a)
  | |- context [keys ?p] => destruct p
  | |- context [respond ?p] => destruct p
  | |- context [match ?p with
                | PyNone => _ | NdArray _ => _ | PyDict _ => _ | PyObject _ => _
                end] => destruct p
  end;
  cbn [fst snd negb keys postprocess respond rbind].

(** [predict] is [predict_logged] with the records left out: the same
    response and the same inference calls. *)
Lemma predict_logged_erases
    (req : request) (calls : call_log) (recs : list log_record) :
  fst (predict_logged req (calls, recs)) = fst (predict req calls) /\
  fst (snd (predict_logged req (calls, recs))) = snd (predict req calls).
Proof.
  destruct req as [[e|data]]; [split; reflexivity|].
  destruct data as [ | b | n | q | s | items | fields ];
    try (split; reflexivity).
  unfold_logged.
  repeat next_case; split; reflexivity.
Qed.

(** X23: what a request leaves in the log. Records are only appended;
    the first is "Received image for prediction"; a 200 response comes
    with no ERROR record and a 500 response with exactly one, which is the
    last record of the request; and when that record carries an exception,
    it is the exception whose message the response reports. *)
Theorem predict_logged_records
    (req : request) (calls : call_log) (recs : list log_record) :
  exists (r : response) (calls' : call_log) (news : list log_record),
    predict_logged req (calls, recs) =
      (inr r, (calls', (recs ++ received :: news)%list)) /\
    error_only_last news = true /\
    count_errors news = (if (status r =? 200)%Z then 0 else 1) /\
    Forall (fun rec =>
              match exc_info rec with
              | Some e => body r = error_body (str e)
              | None => True
              end) news.
Proof.
  destruct req as [[e|data]];
    [ | destruct data as [ | b | n | q | s | items | fields ] ];
    unfold_logged; repeat next_case;
    rewrite <- ?app_assoc; cbn [app];
    (do 3 eexists; split; [reflexivity|];
     repeat split; repeat constructor).
Qed.

End LogFacts.

(** ** The bits of the decoded bytes *)

Module BitFacts.
Import Base64.

Lemma table_range (c : ascii) (v : Z) :
  table_a2b_base64 c = Some v -> (0 <= v < 64)%Z.
Proof.
  destruct c as [[] [] [] [] [] [] [] []]; vm_compute;
    first [discriminate | intros [= <-]; split; [discriminate | reflexivity]].
Qed.

Lemma digits_value_snoc (base : Z) (ds : list Z) (d : Z) :
  digits_value base (ds ++ [d]) = (digits_value base ds * base + d)%Z.
Proof. unfold digits_value. now rewrite fold_left_app. Qed.

Lemma in_range (n : nat) (z : Z) :
  (0 <= z < Z.of_nat n)%Z -> In z (map Z.of_nat (seq 0 n)).
Proof.
  intros H. apply in_map_iff. exists (Z.to_nat z).
  split; [lia | apply in_seq; lia].
Qed.

(** The three bytes of a quad, written with sums instead of bit
    operations; checked on all values of the operands. *)
Lemma byte_1_check :
  forallb (fun lc => forallb (fun v =>
    Z.eqb (u8 (Z.lor (Z.shiftl lc 2) (Z.shiftr v 4))) (4 * lc + v / 16)
    && Z.eqb (Z.land v 15) (v mod 16))
    (map Z.of_nat (seq 0 64))) (map Z.of_nat (seq 0 64)) = true.
Proof. vm_compute. reflexivity. Qed.

Lemma byte_2_check :
  forallb (fun lc => forallb (fun v =>
    Z.eqb (u8 (Z.lor (Z.shiftl lc 4) (Z.shiftr v 2))) (16 * lc + v / 4)
    && Z.eqb (Z.land v 3) (v mod 4))
    (map Z.of_nat (seq 0 64))) (map Z.of_nat (seq 0 16)) = true.
Proof. vm_compute. reflexivity. Qed.

Lemma byte_3_check :
  forallb (fun lc => forallb (fun v =>
    Z.eqb (u8 (Z.lor (Z.shiftl lc 6) v)) (64 * lc + v))
    (map Z.of_nat (seq 0 64))) (map Z.of_nat (seq 0 4)) = true.
Proof. vm_compute. reflexivity. Qed.

Lemma byte_1 (lc v : Z) :
  (0 <= lc < 64)%Z -> (0 <= v < 64)%Z ->
  u8 (Z.lor (Z.shiftl lc 2) (Z.shiftr v 4)) = (4 * lc + v / 16)%Z /\
  Z.land v 15 = (v mod 16)%Z.
Proof.
  intros Hlc Hv. pose proof byte_1_check as H.
  rewrite forallb_forall in H. specialize (H lc (@in_range 64 lc Hlc)).
  rewrite forallb_forall in H. specialize (H v (@in_range 64 v Hv)).
  apply andb_true_iff in H as [H1 H2].
  split; now apply Z.eqb_eq.
Qed.

Lemma byte_2 (lc v : Z) :
  (0 <= lc < 16)%Z -> (0 <= v < 64)%Z ->
  u8 (Z.lor (Z.shiftl lc 4) (Z.shiftr v 2)) = (16 * lc + v / 4)%Z /\
  Z.land v 3 = (v mod 4)%Z.
Proof.
  intros Hlc Hv. pose proof byte_2_check as H.
  rewrite forallb_forall in H. specialize (H lc (@in_range 16 lc Hlc)).
  rewrite forallb_forall in H. specialize (H v (@in_range 64 v Hv)).
  apply andb_true_iff in H as [H1 H2].
  split; now apply Z.eqb_eq.
Qed.

Lemma byte_3 (lc v : Z) :
  (0 <= lc < 4)%Z -> (0 <= v < 64)%Z ->
  u8 (Z.lor (Z.shiftl lc 6) v) = (64 * lc + v)%Z.
Proof.
  intros Hlc Hv. pose proof byte_3_check as H.
  rewrite forallb_forall in H. specialize (H lc (@in_range 4 lc Hlc)).
  rewrite forallb_forall in H. specialize (H v (@in_range 64 v Hv)).
  now apply Z.eqb_eq.
Qed.

Lemma push_holds_bits (st : state) (vs : list Z) (v : Z) :
  (0 <= v < 64)%Z -> holds_bits st vs ->
  holds_bits (push st v) (vs ++ [v]).
Proof.
  intros Hv [Hlen Hbits]. unfold holds_bits, pending, push in *.
  rewrite digits_value_snoc, length_app. cbn [List.length].
  destruct (quad_pos st) as [|[|[|?]]]; cbn [quad_pos bin_data leftchar].
  - split; [lia|]. split; [exact Hv | lia].
  - destruct Hbits as [Hlc Hbits].
    destruct (@byte_1 (leftchar st) v Hlc Hv) as [-> ->].
    rewrite digits_value_snoc, length_app. cbn [List.length].
    split; [lia|]. split; [apply Z.mod_pos_bound; lia|].
    pose proof (Z.div_mod v 16). lia.
  - destruct Hbits as [Hlc Hbits].
    destruct (@byte_2 (leftchar st) v Hlc Hv) as [-> ->].
    rewrite digits_value_snoc, length_app. cbn [List.length].
    split; [lia|]. split; [apply Z.mod_pos_bound; lia|].
    pose proof (Z.div_mod v 4). lia.
  - destruct Hbits as [Hlc Hbits].
    rewrite (@byte_3 (leftchar st) v Hlc Hv).
    rewrite digits_value_snoc, length_app. cbn [List.length].
    split; lia.
Qed.

Lemma loop_holds_bits (s : string) :
  forall (st : state) (vs : list Z),
    Re.occurs BASE64_PAD s = false ->
    holds_bits st vs ->
    exists st', loop s st = EndOfInput st' /\
                holds_bits st' (vs ++ sextets s).
Proof.
  induction s as [|c s IH]; intros st vs Hpad H.
  - exists st. split; [reflexivity | now rewrite app_nil_r].
  - cbn [Re.occurs] in Hpad. apply orb_false_iff in Hpad as [Hc Hpad].
    rewrite Ascii.eqb_sym in Hc.
    cbn [loop sextets]. rewrite Hc.
    destruct (table_a2b_base64 c) as [v|] eqn:Hv; [|now apply IH].
    destruct (IH (push st v) (vs ++ [v])%list Hpad) as (st' & Hrun & Hst').
    { apply push_holds_bits; [exact (@table_range c v Hv) | exact H]. }
    exists st'. split; [exact Hrun|].
    now rewrite <- app_assoc in Hst'.
Qed.

End BitFacts.

(** X24: the decoder keeps the bits. For a text without pad, whatever
    other characters it holds, a successful decoding returns three bytes
    for every four alphabet characters, and the bytes read as a number in
    base 256 are the alphabet characters read as a number in base 64. *)
Theorem b64decode_value (s : string) (bin : list Z) :
  Re.occurs Base64.BASE64_PAD s = false ->
  Base64.b64decode s = inr bin ->
  4 * List.length bin = 3 * List.length (sextets s) /\
  digits_value 256 bin = digits_value 64 (sextets s).
Proof.
  intros Hpad. unfold Base64.b64decode, Base64.a2b_base64.
  destruct (Base64.all_ascii s); [|discriminate].
  destruct (@BitFacts.loop_holds_bits s Base64.init [] Hpad)
    as (st & -> & Hlen & Hbits).
  { split; reflexivity. }
  cbn [app] in Hlen, Hbits. unfold pending in Hlen.
  destruct (Base64.quad_pos st) as [|[|?]]; try discriminate.
  intros [= <-]. split; [lia | exact Hbits].
Qed.

(** * The further statements at concrete inputs *)

Lemma predict_falsy_field_witness :
  @predict (stub_libraries (inr PyNone))
    (mkRequest (inr (JObj [("image_data", JInt 0)]))) [] =
  (inr {| body := error_body "Missing image_data"; status := 500 |}, []).
Proof.
  apply (@predict_falsy_field (stub_libraries (inr PyNone))
           [("image_data", JInt 0)] (JInt 0) []); reflexivity.
Defined.

Lemma predict_non_string_field_witness :
  @predict (stub_libraries (inr PyNone))
    (mkRequest (inr (JObj [("image_data", JInt 5)]))) [] =
  (inr {| body := error_body ("expected string or bytes-like object, got '"
                              ++ json_type_name (JInt 5) ++ "'");
          status := 500 |}, []).
Proof.
  apply (@predict_non_string_field (stub_libraries (inr PyNone))
           [("image_data", JInt 5)] (JInt 5) []);
    [reflexivity | reflexivity | discriminate].
Defined.

Lemma predict_unreadable_body_witness :
  @predict (stub_libraries (inr PyNone)) (mkRequest (inr (JArr []))) [] =
  (inr {| body := error_body "'list' object has no attribute 'get'";
          status := 500 |}, []).
Proof.
  apply (@predict_unreadable_body (stub_libraries (inr PyNone))
           (mkRequest (inr (JArr []))) []).
  discriminate.
Defined.

Lemma predict_model_input_ok_witness :
  Forall model_input_ok
    (snd (@predict (stub_libraries (inr PyNone))
            (mkRequest (inr (JObj stub_fields))) [])).
Proof.
  apply (@predict_model_input_ok (stub_libraries (inr PyNone))
           (mkRequest (inr (JObj stub_fields))) []).
  constructor.
Defined.

Lemma predict_model_raises_witness :
  @predict (stub_libraries (inl (Exception "RuntimeError" "out of memory")))
    (mkRequest (inr (JObj stub_fields))) [] =
  (inr {| body := error_body "out of memory"; status := 500 |},
   [stub_tensor]).
Proof.
  apply (@predict_model_raises
           (stub_libraries (inl (Exception "RuntimeError" "out of memory")))
           stub_fields (JStr "QUJD") stub_tensor
           (Exception "RuntimeError" "out of memory") []);
    reflexivity.
Defined.

Lemma predict_invalid_output_witness :
  @predict (stub_libraries (inr (PyDict [("output_0", PyObject "list")])))
    (mkRequest (inr (JObj stub_fields))) [] =
  (inr {| body := error_body "Invalid prediction output"; status := 500 |},
   [stub_tensor]).
Proof.
  apply (@predict_invalid_output
           (stub_libraries (inr (PyDict [("output_0", PyObject "list")])))
           stub_fields (JStr "QUJD") stub_tensor
           [("output_0", PyObject "list")] (PyObject "list") []);
    try reflexivity; discriminate.
Defined.

Lemma predict_none_output_witness :
  @predict (stub_libraries (inr (PyDict [("output_0", PyNone)])))
    (mkRequest (inr (JObj stub_fields))) [] =
  (inr {| body := error_body "Missing 'output_0' in prediction";
          status := 500 |},
   [stub_tensor]).
Proof.
  apply (@predict_none_output
           (stub_libraries (inr (PyDict [("output_0", PyNone)])))
           stub_fields (JStr "QUJD") stub_tensor
           [("output_0", PyNone)] []);
    reflexivity.
Defined.

Lemma exact_format_predictions_top_witness :
  exists (top : Exact.prediction)
         (rest before after : list Exact.prediction),
    Exact.format_predictions
      (Exact.score_array
         [Exact.Finite 0.1; Exact.Finite 0.7; Exact.Finite 0.7] []) =
      inr (top :: rest) /\
    Exact.labelled [Exact.Finite 0.1; Exact.Finite 0.7; Exact.Finite 0.7] =
      (before ++ top :: after)%list /\
    Forall (fun e => Exact.float_lt (Exact.probability e)
                       (Exact.probability top) = true) before /\
    Forall (fun e => Exact.float_ge (Exact.probability top)
                       (Exact.probability e) = true) after.
Proof.
  apply (@exact_format_predictions_top
           [Exact.Finite 0.1; Exact.Finite 0.7; Exact.Finite 0.7] []).
  - discriminate.
  - simpl. lia.
  - repeat constructor.
Defined.

Lemma exact_format_predictions_stable_witness :
  exists results : list Exact.prediction,
    Exact.format_predictions
      (Exact.score_array
         [Exact.Finite 0.1; Exact.Finite 0.7; Exact.Finite 0.7] []) =
      inr results /\
    forall p : Exact.pyfloat,
      filter (fun r => Exact.float_eq (Exact.probability r) p) results =
      filter (fun r => Exact.float_eq (Exact.probability r) p)
        (Exact.labelled
           [Exact.Finite 0.1; Exact.Finite 0.7; Exact.Finite 0.7]).
Proof.
  apply (@exact_format_predictions_stable
           [Exact.Finite 0.1; Exact.Finite 0.7; Exact.Finite 0.7] []).
  - simpl. lia.
  - repeat constructor.
Defined.


Lemma predict_success_guarantee_witness :
  exists (results : list prediction) (x : tensor),
    {| body := predictions_body
                 [ {| class := "Prima_noodles"; probability := 0.8 |};
                   {| class := "Comfort_fabric_conditioner";
                      probability := 0.2 |} ];
       status := 200 |} =
      {| body := predictions_body results; status := 200 |} /\
    List.length results <= 6 /\
    NoDup (map class results) /\
    incl (map class results) class_labels /\
    [stub_tensor] = ([] ++ [x])%list /\
    model_input_ok x.
Proof.
  apply (@predict_success_guarantee
           (stub_libraries (inr (scores_output [0.2; 0.8]%Q)))
           (mkRequest (inr (JObj stub_fields))) [] [stub_tensor]
           {| body := predictions_body
                        [ {| class := "Prima_noodles"; probability := 0.8 |};
                          {| class := "Comfort_fabric_conditioner";
                             probability := 0.2 |} ];
              status := 200 |});
    reflexivity.
Defined.

Lemma predict_success_witness :
  exists results : list prediction,
    @predict (stub_libraries (inr (scores_output [0.2; 0.8]%Q)))
      (mkRequest (inr (JObj stub_fields))) [] =
    (inr {| body := predictions_body results; status := 200 |},
     ([] ++ [stub_tensor])%list) /\
    List.length results = 2 /\
    Permutation (map class results) (firstn 2 class_labels).
Proof.
  apply (@predict_success
           (stub_libraries (inr (scores_output [0.2; 0.8]%Q)))
           stub_fields "QUJD" [65; 66; 67]%Z [65; 66; 67]%Z
           (solid_image (Byte.xff, Byte.x80, Byte.x00))
           [("output_0", NdArray (score_array [0.2; 0.8]%Q []))]
           [0.2; 0.8]%Q [] []);
    try reflexivity.
  - discriminate.
  - simpl. lia.
Defined.

Lemma decode_image_any_type_witness :
  Re.sub_bol Re.data_uri ("data:image/" ++ "jpeg" ++ ";base64," ++ "QUJD") =
    "QUJD" /\
  @decode_image (stub_libraries (inr PyNone))
    (JStr ("data:image/" ++ "jpeg" ++ ";base64," ++ "QUJD")) =
  @decode_image (stub_libraries (inr PyNone)) (JStr "QUJD").
Proof.
  apply (@decode_image_any_type (stub_libraries (inr PyNone)) "jpeg" "QUJD");
    [discriminate | reflexivity | reflexivity].
Defined.

Lemma sub_bol_cuts_at_last_marker_witness :
  Re.sub_bol Re.data_uri
    ("data:image/" ++ "png" ++ ";base64," ++ "QUJD" ++ ";base64," ++ "RUZH") =
  "RUZH".
Proof.
  apply (@sub_bol_cuts_at_last_marker "png" "QUJD" "RUZH");
    [discriminate | reflexivity | reflexivity | reflexivity].
Defined.

Lemma sub_bol_empty_type_witness :
  Re.sub_bol Re.data_uri ("data:image/;base64," ++ "QUJD") =
  "data:image/;base64," ++ "QUJD".
Proof.
  apply (@sub_bol_empty_type "QUJD"). reflexivity.
Defined.

Lemma b64decode_bytes_witness : Forall is_byte [65; 66; 67]%Z.
Proof.
  apply (@b64decode_bytes "QUJD" [65; 66; 67]%Z). reflexivity.
Defined.

Lemma b64decode_ignores_other_characters_witness :
  Base64.b64decode (base64_characters wrapped_hello) =
  Base64.b64decode wrapped_hello.
Proof.
  apply (@b64decode_ignores_other_characters wrapped_hello). reflexivity.
Defined.

Lemma b64decode_length_witness :
  4 * List.length [65; 66; 67]%Z <= 3 * String.length (base64_characters "QUJD").
Proof.
  apply (@b64decode_length "QUJD" [65; 66; 67]%Z). reflexivity.
Defined.

Lemma divide_255_strictly_monotone_witness :
  SFltb (float32_div (float32_of_uint8 Byte.x10) (float32_of_Z 255))
        (float32_div (float32_of_uint8 Byte.x80) (float32_of_Z 255)) = true /\
  float32_div (float32_of_uint8 Byte.x00) (float32_of_Z 255) = float32_of_Z 0 /\
  float32_div (float32_of_uint8 Byte.xff) (float32_of_Z 255) = float32_of_Z 1.
Proof.
  apply (@divide_255_strictly_monotone Byte.x10 Byte.x80). reflexivity.
Defined.

Lemma b64decode_value_witness :
  4 * List.length [65; 66; 67]%Z = 3 * List.length (sextets "QUJD") /\
  digits_value 256 [65; 66; 67]%Z = digits_value 64 (sextets "QUJD").
Proof.
  apply (@b64decode_value "QUJD" [65; 66; 67]%Z); reflexivity.
Defined.
